(** * Laku.ai sales backend ([src/app.py]): ledger, text parser, analytics
      and command interpreter.

    A string is a sequence of bytes; the character classes of [re],
    [str.lower] and [str.strip] are those of Python on ASCII text, and the
    properties of the text parser are stated for ASCII text ([ascii_text]).
    A [Decimal] is modelled by its exact value in [Q] and its arithmetic by
    the exact result rounded to the 28 significant digits of the default
    context; a [float] is modelled by the decimal that Python prints for it
    (its [repr]), read as a number in [Q]. *)

From Stdlib Require Import List String Ascii ZArith QArith Lia Bool Arith.
From Stdlib Require Import Sorting.Sorted Permutation DecimalString.
Import ListNotations.

Local Open Scope string_scope.
Local Open Scope list_scope.

Set Implicit Arguments.
Set Warnings "-register-all".
Set Warnings "-automation".


(* ================================================================== *)
(** ** Characters and strings *)

Module Text.

Definition chars := list ascii.

Definition code (a : ascii) : nat := nat_of_ascii a.

Definition between (lo hi n : nat) : bool := (lo <=? n)%nat && (n <=? hi)%nat.

(** [\d] on ASCII text. *)
Definition is_digit (a : ascii) : bool := between 48 57 (code a).

(** [\s] and [str.isspace] on ASCII text: tab, newline, vertical tab, form
    feed, carriage return, the four separators 0x1c-0x1f and space. *)
Definition is_space (a : ascii) : bool :=
  between 9 13 (code a) || between 28 31 (code a) || (code a =? 32)%nat.

Definition is_upper (a : ascii) : bool := between 65 90 (code a).
Definition is_lower (a : ascii) : bool := between 97 122 (code a).

(** [\w] on ASCII text: letters, digits and the underscore. *)
Definition is_word (a : ascii) : bool :=
  is_digit a || is_upper a || is_lower a || (code a =? 95)%nat.

Definition lower_char (a : ascii) : ascii :=
  if is_upper a then ascii_of_nat (code a + 32) else a.

(** [str.lower()]. *)
Definition lower (s : string) : string :=
  string_of_list_ascii (map lower_char (list_ascii_of_string s)).

(** [str.strip()]: whitespace removed at both ends. *)
Fixpoint lstrip (s : chars) : chars :=
  match s with
  | a :: s' => if is_space a then lstrip s' else s
  | [] => []
  end.

Definition strip_chars (s : chars) : chars := rev (lstrip (rev (lstrip s))).

Definition strip (s : string) : string :=
  string_of_list_ascii (strip_chars (list_ascii_of_string s)).

Definition digit_value (a : ascii) : Z := Z.of_nat (code a - 48).

(** Value of a run of decimal digits, most significant first. *)
Definition digits_value (s : chars) : Z :=
  fold_left (fun acc a => (10 * acc + digit_value a)%Z) s 0%Z.

(** Every character is an ASCII character. *)
Definition ascii_chars (s : chars) : Prop := Forall (fun a => (code a < 128)%nat) s.

Definition ascii_text (s : string) : Prop := ascii_chars (list_ascii_of_string s).

(** [sys.get_int_max_str_digits()]: the default limit on the length of a
    decimal numeral that [int] converts. *)
Definition int_max_str_digits : nat := 4300.

(** [int(s)] on the strings the parser hands it: a non-empty run of ASCII
    digits.  [None] stands for [ValueError], which is raised for a numeral
    of more than [int_max_str_digits] digits, leading zeros included. *)
Definition py_int (s : chars) : option Z :=
  match s with
  | [] => None
  | _ =>
      if forallb is_digit s && (List.length s <=? int_max_str_digits)%nat
      then Some (digits_value s)
      else None
  end.

(** [str(n)] for a natural number. *)
Definition decimal_numeral (n : nat) : string := NilEmpty.string_of_uint (Nat.to_uint n).

(** Splits at the first ["."]. *)
Fixpoint split_dot (s : chars) : chars * option chars :=
  match s with
  | [] => ([], None)
  | a :: s' =>
      if (code a =? 46)%nat then ([], Some s')
      else let (i, f) := split_dot s' in (a :: i, f)
  end.

(** The number a decimal numeral denotes: digits, optionally followed by a
    point and further digits.  [None]: the text is no such numeral. *)
Definition decimal_value (s : chars) : option Q :=
  match split_dot s with
  | (i, None) =>
      match i with
      | [] => None
      | _ => if forallb is_digit i then Some (inject_Z (digits_value i)) else None
      end
  | (i, Some f) =>
      match i with
      | [] => None
      | _ =>
          if forallb is_digit i && forallb is_digit f
          then Some (Qmake (digits_value i * 10 ^ Z.of_nat (List.length f)
                            + digits_value f)
                           (Z.to_pos (10 ^ Z.of_nat (List.length f))))
          else None
      end
  end.

(** *** Rounding

    [Decimal] and [float] arithmetic return the exact result rounded to the
    precision of the type, ties to even. *)

(** The integer nearest to [p / q] for [q > 0], ties to the even one. *)
Definition nearest_even (p q : Z) : Z :=
  let f := (p / q)%Z in
  match (2 * (p mod q) ?= q)%Z with
  | Lt => f
  | Gt => (f + 1)%Z
  | Eq => if Z.even f then f else (f + 1)%Z
  end.

(** The number of digits of [n > 0] in base [b]. *)
Fixpoint digits_upto (fuel : nat) (b n : Z) : Z :=
  match fuel with
  | O => 0%Z
  | S fuel' => if (n <=? 0)%Z then 0%Z else (1 + digits_upto fuel' b (n / b))%Z
  end.

Definition digits_in (b n : Z) : Z := digits_upto (S (Z.to_nat (Z.log2 n))) b n.

(** The largest [e] with [b ^ e <= p / q], for [p, q > 0]. *)
Definition magnitude (b p q : Z) : Z :=
  let e := (digits_in b p - digits_in b q)%Z in
  if (q * b ^ Z.max e 0 <=? p * b ^ Z.max (- e) 0)%Z then e else (e - 1)%Z.

(** [x] rounded to [prec] significant digits in base [b], ties to even; no
    digit is kept below [b ^ emin]. *)
Definition round_to (b prec emin : Z) (x : Q) : Q :=
  let p := Z.abs (Qnum x) in
  let q := Zpos (Qden x) in
  if (p =? 0)%Z then inject_Z 0
  else
    let quantum := Z.max (magnitude b p q - (prec - 1)) emin in
    let m := nearest_even (p * b ^ Z.max (- quantum) 0) (q * b ^ Z.max quantum 0) in
    let v := Qred (Qmake (m * b ^ Z.max quantum 0)
                         (Z.to_pos (b ^ Z.max (- quantum) 0))) in
    if (Qnum x <? 0)%Z then Qopp v else v.

(** The default [decimal] context: 28 significant digits, ROUND_HALF_EVEN,
    smallest exponent -1000026.  Its largest exponent, 999999, is beyond any
    number a NUMERIC column holds, so [Overflow] is not modelled. *)
Definition decimal (x : Q) : Q := round_to 10 28 (-1000026) x.

(** [a + b], [n * a] and [a / n] on [Decimal]s. *)
Definition decimal_add (a b : Q) : Q := decimal (Qplus a b).
Definition decimal_mul (n : Z) (a : Q) : Q := decimal (Qmult (inject_Z n) a).
Definition decimal_div (a : Q) (n : Z) : Q := decimal (Qdiv a (inject_Z n)).

(** A [float]: a finite one, given by the decimal Python prints for it, or
    one of the three others. *)
Inductive nonfinite : Type := PosInf | NegInf | NaN.

Inductive float : Type :=
| Finite (q : Q)
| NonFinite (f : nonfinite).

(** The binary64 number nearest to [x], ties to even; [None] when [x] is
    rounded beyond the largest one. *)
Definition binary64 (x : Q) : option Q :=
  let v := round_to 2 53 (-1074) x in
  if Qle_bool (inject_Z (2 ^ 1024)) v || Qle_bool v (inject_Z (- 2 ^ 1024))
  then None else Some v.

(** [x >= 0] cut to [digits] significant decimal digits, and the next number
    of that many digits. *)
Definition decimal_below (digits : Z) (x : Q) : Q :=
  let p := Qnum x in
  let q := Zpos (Qden x) in
  let quantum := (magnitude 10 p q - (digits - 1))%Z in
  Qred (Qmake ((p * 10 ^ Z.max (- quantum) 0) / (q * 10 ^ Z.max quantum 0)
               * 10 ^ Z.max quantum 0)
              (Z.to_pos (10 ^ Z.max (- quantum) 0))).

Definition decimal_above (digits : Z) (x : Q) : Q :=
  let p := Qnum x in
  let q := Zpos (Qden x) in
  let quantum := (magnitude 10 p q - (digits - 1))%Z in
  Qred (Qmake (((p * 10 ^ Z.max (- quantum) 0) / (q * 10 ^ Z.max quantum 0) + 1)
               * 10 ^ Z.max quantum 0)
              (Z.to_pos (10 ^ Z.max (- quantum) 0))).

(** [repr(v)] for a binary64 number [v > 0]: the decimal of fewest
    significant digits that is read back as [v]; of two, the nearer one.
    Seventeen digits always suffice. *)
Fixpoint shortest_from (more : nat) (digits : Z) (v : Q) : Q :=
  match more with
  | O => v
  | S more' =>
      let lo := decimal_below digits v in
      let hi := decimal_above digits v in
      let reads c := match binary64 c with Some v' => Qeq_bool v' v | None => false end in
      let lo_first := Qle_bool (Qminus v lo) (Qminus hi v) in
      if reads lo && (lo_first || negb (reads hi)) then lo
      else if reads hi then hi
      else shortest_from more' (digits + 1)%Z v
  end.

Definition shortest_decimal (v : Q) : Q :=
  if Qeq_bool v 0 then inject_Z 0
  else if Qle_bool 0 v then shortest_from 17 1 v
  else Qopp (shortest_from 17 1 (Qopp v)).

(** The [float] nearest to the number [x]: what [float(s)] returns for a
    numeral [s] that denotes [x], and [float(d)] for a [Decimal] of value
    [x].  Beyond the largest binary64 number the result is an infinity. *)
Definition float_nearest (x : Q) : float :=
  match binary64 x with
  | Some v => Finite (shortest_decimal v)
  | None => NonFinite (if Qle_bool 0 x then PosInf else NegInf)
  end.

(** [float(s)] on the strings the parser hands it; [None] stands for
    [ValueError]. *)
Definition py_float (s : chars) : option float :=
  match decimal_value s with
  | Some x => Some (float_nearest x)
  | None => None
  end.

End Text.

(* ================================================================== *)
(** ** The fragment of [re] the program uses

    A backtracking matcher in continuation-passing style: alternatives are
    tried in the order Python's [re] tries them (greedy repetition longest
    first, lazy repetition shortest first, an optional item present first),
    and [search] returns the groups of the leftmost match. *)

Module Re.
Import Text.

Inductive cclass : Type :=
| Digit                (* \d *)
| Space                (* \s *)
| Word                 (* \w *)
| Dot                  (* .  without DOTALL: anything but a newline *)
| DotAll               (* .  under re.DOTALL *)
| Lit (a : ascii).     (* a literal character *)

Definition in_class (c : cclass) (a : ascii) : bool :=
  match c with
  | Digit => is_digit a
  | Space => is_space a
  | Word => is_word a
  | Dot => negb (code a =? 10)%nat
  | DotAll => true
  | Lit b => (code a =? code b)%nat
  end.

Inductive regex : Type :=
| Eps
| Chr (c : cclass)               (* one character of the class *)
| Star (c : cclass)              (* c*   greedy *)
| Lazy (c : cclass)              (* c*?  lazy *)
| Opt (r : regex)                (* r?   greedy *)
| Seq (r1 r2 : regex)
| Group (n : nat) (r : regex).   (* capturing group number n *)

(** [c+] *)
Definition Plus (c : cclass) : regex := Seq (Chr c) (Star c).

(** A literal string. *)
Fixpoint Str (s : chars) : regex :=
  match s with
  | [] => Eps
  | a :: s' => Seq (Chr (Lit a)) (Str s')
  end.

(** Captured groups, most recent binding first. *)
Definition groups := list (nat * chars).

Fixpoint group (g : groups) (n : nat) : option chars :=
  match g with
  | [] => None
  | (m, s) :: g' => if (m =? n)%nat then Some s else group g' n
  end.

(** [match.group(n)] as text; the groups of the patterns below always take
    part in a match. *)
Definition group_text (g : groups) (n : nat) : chars :=
  match group g n with
  | Some s => s
  | None => []
  end.

Section Matcher.
Variable R : Type.

Fixpoint star_greedy (c : cclass) (k : chars -> option R) (s : chars) : option R :=
  match s with
  | a :: s' =>
      if in_class c a then
        match star_greedy c k s' with
        | Some x => Some x
        | None => k s
        end
      else k s
  | [] => k s
  end.

Fixpoint star_lazy (c : cclass) (k : chars -> option R) (s : chars) : option R :=
  match k s with
  | Some x => Some x
  | None =>
      match s with
      | a :: s' => if in_class c a then star_lazy c k s' else None
      | [] => None
      end
  end.

Fixpoint rmatch (r : regex) (s : chars) (g : groups)
    (k : chars -> groups -> option R) : option R :=
  match r with
  | Eps => k s g
  | Chr c =>
      match s with
      | a :: s' => if in_class c a then k s' g else None
      | [] => None
      end
  | Star c => star_greedy c (fun s' => k s' g) s
  | Lazy c => star_lazy c (fun s' => k s' g) s
  | Opt r1 =>
      match rmatch r1 s g k with
      | Some x => Some x
      | None => k s g
      end
  | Seq r1 r2 => rmatch r1 s g (fun s' g' => rmatch r2 s' g' k)
  | Group n r1 =>
      rmatch r1 s g
        (fun s' g' => k s' ((n, firstn (List.length s - List.length s') s) :: g'))
  end.

End Matcher.

(** [re.match]: the pattern anchored at the start of [s]. *)
Definition match_here (r : regex) (s : chars) : option groups :=
  rmatch r s [] (fun _ g => Some g).

(** [re.search]: the first start position, left to right, with a match. *)
Fixpoint search (r : regex) (s : chars) : option groups :=
  match match_here r s with
  | Some g => Some g
  | None =>
      match s with
      | [] => None
      | _ :: s' => search r s'
      end
  end.

(** What it means for [r] to match exactly [u], taking groups [g] to [g']. *)
Inductive matches : regex -> chars -> groups -> groups -> Prop :=
| m_eps g : matches Eps [] g g
| m_chr c a g : in_class c a = true -> matches (Chr c) [a] g g
| m_star c u g : forallb (in_class c) u = true -> matches (Star c) u g g
| m_lazy c u g : forallb (in_class c) u = true -> matches (Lazy c) u g g
| m_opt_some r u g g' : matches r u g g' -> matches (Opt r) u g g'
| m_opt_none r g : matches (Opt r) [] g g
| m_seq r1 r2 u1 u2 g g' g'' :
    matches r1 u1 g g' -> matches r2 u2 g' g'' ->
    matches (Seq r1 r2) (u1 ++ u2) g g''
| m_group n r u g g' :
    matches r u g g' -> matches (Group n r) u g ((n, u) :: g').

End Re.

(* ================================================================== *)
(** ** Python values, exceptions and results *)

Module Py.
Import Text.

(** The values [json.loads] and [request.json] produce.  A finite [float]
    is given by the decimal Python prints for it. *)
Inductive value : Type :=
| VNone
| VBool (b : bool)
| VInt (n : Z)
| VFloat (q : Q)
| VStr (s : string)
| VList (l : list value)
| VDict (d : list (string * value))
| VNonFinite (f : nonfinite).

Definition value_of_float (f : float) : value :=
  match f with
  | Finite q => VFloat q
  | NonFinite n => VNonFinite n
  end.

Definition type_name (v : value) : string :=
  match v with
  | VNone => "NoneType"
  | VBool _ => "bool"
  | VInt _ => "int"
  | VFloat _ => "float"
  | VStr _ => "str"
  | VList _ => "list"
  | VDict _ => "dict"
  | VNonFinite _ => "float"
  end.

(** Truth value testing ([if v], [not v]). *)
Definition truthy (v : value) : bool :=
  match v with
  | VNone => false
  | VBool b => b
  | VInt n => negb (n =? 0)%Z
  | VFloat q => negb (Qeq_bool q 0)
  | VStr s => negb (s =? "")
  | VList l => match l with [] => false | _ => true end
  | VDict d => match d with [] => false | _ => true end
  | VNonFinite _ => true
  end.

(** [v == "text"] for a string literal. *)
Definition eq_str (v : value) (t : string) : bool :=
  match v with
  | VStr s => (s =? t)
  | _ => false
  end.

Inductive exn_class : Type :=
| AttributeError
| TypeError
| ValueError
| KeyError
| JSONDecodeError       (* json.JSONDecodeError *)
| DatabaseError         (* psycopg2.Error and its subclasses *)
| ModelError.           (* whatever the generative-model client raises *)

Record exn : Type := Exn { exn_kind : exn_class; exn_str : string }.

Inductive result (A : Type) : Type :=
| Ok (a : A)
| Raise (e : exn).
Arguments Ok {A} a.
Arguments Raise {A} e.

(** [v.attr] fails on a value whose type lacks the attribute. *)
Definition no_attribute (v : value) (attr : string) : exn :=
  Exn AttributeError
      ("'" ++ type_name v ++ "' object has no attribute '" ++ attr ++ "'").

Fixpoint lookup {A : Type} (d : list (string * A)) (k : string) : option A :=
  match d with
  | [] => None
  | (k', v) :: d' => if (k' =? k) then Some v else lookup d' k
  end.

(** [d.get(k, default)] *)
Definition get_default (v : value) (k : string) (default : value) : result value :=
  match v with
  | VDict d => Ok (match lookup d k with Some x => x | None => default end)
  | _ => Raise (no_attribute v "get")
  end.

(** [d.get(k)] *)
Definition get (v : value) (k : string) : result value := get_default v k VNone.

End Py.

(* ================================================================== *)
(** ** The ledger store *)

Module Store.
Import Text Py.

(** [datetime]: a count of microseconds on the server's time line, so that
    comparison is the order of [Z] and the hour is always one of 0..23. *)
Definition datetime := Z.

Definition hour (t : datetime) : nat := Z.to_nat ((t / 3600000000) mod 24).
Definition minute (t : datetime) : nat := Z.to_nat ((t / 60000000) mod 60).

(** The instant [h]:[m] of the first day. *)
Definition clock (h m : Z) : datetime := ((h * 3600 + m * 60) * 1000000)%Z.

(** A row of the [sales] table. *)
Record sale : Type := Sale {
  id : Z;
  item_name : string;
  quantity : Z;
  price : Q;
  created_at : datetime
}.

(** The services outside the process. *)
Inductive service : Type := LanguageModel | Datastore.

(** Everything outside the process a request can observe or change: the rows
    of [sales], the id sequence, the datastore clock, whether the datastore
    currently fails ([Some e]: every connection attempt raises [e]), and the
    external services contacted so far, latest first.  The datastore is up or
    down for a whole request; one that goes down between two connections of
    the same request is not modelled. *)
Record world : Type := World {
  ledger : list sale;
  next_id : Z;
  now : datetime;
  db_fault : option exn;
  contacted : list service
}.

Definition with_ledger (l : list sale) (w : world) : world :=
  World l (next_id w) (now w) (db_fault w) (contacted w).

Definition contact (s : service) (w : world) : world :=
  World (ledger w) (next_id w) (now w) (db_fault w) (s :: contacted w).

(** Computations that read and change the world and may raise. *)
Definition M (A : Type) : Type := world -> result A * world.

Definition ret {A : Type} (a : A) : M A := fun w => (Ok a, w).
Definition raise {A : Type} (e : exn) : M A := fun w => (Raise e, w).
Definition bind {A B : Type} (m : M A) (k : A -> M B) : M B :=
  fun w =>
    match m w with
    | (Ok a, w') => k a w'
    | (Raise e, w') => (Raise e, w')
    end.
Definition lift {A : Type} (r : result A) : M A := fun w => (r, w).

(** [try: body  except Exception as e: handler(e)] *)
Definition try_except {A : Type} (body : M A) (handler : exn -> M A) : M A :=
  fun w =>
    match body w with
    | (Ok a, w') => (Ok a, w')
    | (Raise e, w') => handler e w'
    end.

(** [psycopg2.connect(...)] *)
Definition get_db_connection : M unit :=
  fun w =>
    match db_fault w with
    | Some e => (Raise e, contact Datastore w)
    | None => (Ok tt, contact Datastore w)
    end.

(** [with get_db_connection() as conn: with conn.cursor() as cur: body]:
    the transaction commits when [body] returns and rolls the rows back when
    it raises. *)
Definition with_connection {A : Type} (body : M A) : M A :=
  fun w =>
    match get_db_connection w with
    | (Raise e, w1) => (Raise e, w1)
    | (Ok _, w1) =>
        match body w1 with
        | (Ok a, w2) => (Ok a, w2)
        | (Raise e, w2) => (Raise e, with_ledger (ledger w1) w2)
        end
    end.

(** [ORDER BY id DESC] *)
Fixpoint insert_desc (r : sale) (l : list sale) : list sale :=
  match l with
  | [] => [r]
  | x :: l' => if (id x <=? id r)%Z then r :: l else x :: insert_desc r l'
  end.

Definition order_by_id_desc (l : list sale) : list sale :=
  fold_right insert_desc [] l.

(** [fetch_sales()] *)
Definition fetch_sales : M (list sale) :=
  with_connection (fun w => (Ok (order_by_id_desc (ledger w)), w)).

(** Modelled from the spec: the column types of the [sales] table, whose
    schema is not part of the sources ("no validation beyond what the
    datastore itself enforces by column type; out-of-range or wrong-typed
    input is an error surfaced to the caller, not silently coerced").
    [item_name] is text, [quantity] an integer, [price] a decimal; a float
    reaches the statement as the decimal Python prints for it, and one that
    is not finite is no decimal. *)
Definition column_values (item_name quantity price : value)
  : option (string * Z * Q) :=
  match item_name, quantity, price with
  | VStr s, VInt n, VInt p => Some (s, n, inject_Z p)
  | VStr s, VInt n, VFloat p => Some (s, n, p)
  | _, _, _ => None
  end.

Definition wrong_type : exn :=
  Exn DatabaseError "invalid input for a column of table sales".

(** [insert_sale(item_name, quantity, price)].
    Modelled from the spec: the store assigns [id] from a sequence that only
    grows and [created_at] from its clock. *)
Definition insert_sale (item_name quantity price : value) : M sale :=
  with_connection (fun w =>
    match column_values item_name quantity price with
    | None => (Raise wrong_type, w)
    | Some (s, n, p) =>
        let row := Sale (next_id w) s n p (now w) in
        (Ok row,
         World (ledger w ++ [row]) (next_id w + 1) (now w) (db_fault w)
               (contacted w))
    end).

(** What [delete_sale] returns: one of three dictionaries. *)
Inductive deletion : Type :=
| DeletedAll (message : string) (deleted_count : nat)
| DeletedOne (message : string) (deleted_sale : sale)
| NotFound (error : string).

(** ["error" in result] *)
Definition has_error (r : deletion) : bool :=
  match r with
  | NotFound _ => true
  | _ => false
  end.

(** The invariant of the id sequence: every stored id was handed out
    before, so the next one is larger than all of them. *)
Definition ids_below (w : world) : Prop :=
  Forall (fun r => (id r < next_id w)%Z) (ledger w).

(** [a] has an id no smaller than [b]'s. *)
Definition id_no_smaller (a b : sale) : Prop := (id b <= id a)%Z.

(** One datastore, with an [id] column of type integer: the text parameter
    is read as a decimal numeral, with blanks around it and a sign allowed,
    and has to lie in the range of the type; any other text is an error of
    the statement. *)
Definition sql_space (a : ascii) : bool :=
  between 9 13 (code a) || (code a =? 32)%nat.

Fixpoint skip_spaces (s : chars) : chars :=
  match s with
  | a :: s' => if sql_space a then skip_spaces s' else s
  | [] => []
  end.

Definition integer_literal (s : chars) : option Z :=
  let body := rev (skip_spaces (rev (skip_spaces s))) in
  let unsigned (d : chars) : option Z :=
    match d with
    | [] => None
    | _ => if forallb is_digit d then Some (digits_value d) else None
    end in
  match body with
  | "-"%char :: d => option_map Z.opp (unsigned d)
  | "+"%char :: d => unsigned d
  | d => unsigned d
  end.

Definition decimal_id (s : string) : result (Z -> bool) :=
  match integer_literal (list_ascii_of_string s) with
  | Some m =>
      if ((- 2 ^ 31 <=? m) && (m <? 2 ^ 31))%Z then Ok (Z.eqb m)
      else Raise (Exn DatabaseError
                      ("value " ++ String (ascii_of_nat 34) s
                       ++ String (ascii_of_nat 34) " is out of range for type integer"))
  | None =>
      Raise (Exn DatabaseError
                 ("invalid input syntax for type integer: "
                  ++ String (ascii_of_nat 34) s ++ String (ascii_of_nat 34) ""))
  end.

Section Delete.

(** How the datastore reads the text parameter of [WHERE id = %s]: as a
    test on the [id] column, or not at all, in which case the statement
    raises.  The schema is not part of the sources. *)
Variable id_matches : string -> result (Z -> bool).

(** [delete_sale(sale_id)], the second definition in the source, which
    replaces the first one of the same name. *)
Definition delete_sale (sale_id : value) : M deletion :=
  with_connection
    (match sale_id with
     | VStr s =>
         if (lower s =? "all") then
           fun w =>
             (Ok (DeletedAll "All sales have been deleted"
                             (List.length (ledger w))),
              with_ledger [] w)
         else
           fun w =>
             match id_matches s with
             | Raise e => (Raise e, w)
             | Ok matches =>
                 let deleted := filter (fun r => matches (id r)) (ledger w) in
                 let kept := filter (fun r => negb (matches (id r))) (ledger w) in
                 match deleted with
                 | row :: _ =>
                     (Ok (DeletedOne ("Sale #" ++ s ++ " has been deleted") row),
                      with_ledger kept w)
                 | [] =>
                     (Ok (NotFound ("No sale found with ID " ++ s)),
                      with_ledger kept w)
                 end
             end
     | _ => raise (no_attribute sale_id "lower")
     end).

End Delete.

End Store.

(* ================================================================== *)
(** ** The text parser *)

Module Parser.
Import Text Re Py.

(** The pattern of [parse_sales_input], shown with blanks between its
    items:  (\d+)  \s+  (\w+)  .*?  \$?  (\d+  \.?  \d* ) *)
Definition sale_pattern : regex :=
  Seq (Group 1 (Plus Digit))
 (Seq (Plus Space)
 (Seq (Group 2 (Plus Word))
 (Seq (Lazy Dot)
 (Seq (Opt (Chr (Lit "$"%char)))
      (Group 3 (Seq (Plus Digit) (Seq (Opt (Chr (Lit "."%char))) (Star Digit)))))))).

(** What follows the item in the pattern. *)
Definition after_item : regex :=
  Seq (Lazy Dot)
 (Seq (Opt (Chr (Lit "$"%char)))
      (Group 3 (Seq (Plus Digit) (Seq (Opt (Chr (Lit "."%char))) (Star Digit))))).

Definition bad_literal (f : string) (s : chars) : exn :=
  Exn ValueError ("invalid literal for " ++ f ++ ": " ++ string_of_list_ascii s).

(** What [int(s)] raises on a run of digits [s]. *)
Definition too_many_digits (s : chars) : exn :=
  Exn ValueError
      ("Exceeds the limit (" ++ decimal_numeral int_max_str_digits
       ++ " digits) for integer string conversion: value has "
       ++ decimal_numeral (List.length s)
       ++ " digits; use sys.set_int_max_str_digits() to increase the limit").

Definition int_error (s : chars) : exn :=
  if (List.length s <=? int_max_str_digits)%nat then bad_literal "int()" s
  else too_many_digits s.

(** [parse_sales_input(text)] *)
Definition parse_sales_input (text : value) : result (value * value * value) :=
  match text with
  | VStr t =>
      match search sale_pattern (list_ascii_of_string (lower t)) with
      | Some g =>
          match py_int (group_text g 1) with
          | None => Raise (int_error (group_text g 1))
          | Some quantity =>
              let item_name := string_of_list_ascii (group_text g 2) in
              match py_float (group_text g 3) with
              | None => Raise (bad_literal "float()" (group_text g 3))
              | Some price =>
                  Ok (VStr item_name, VInt quantity, value_of_float price)
              end
          end
      | None => Ok (VNone, VNone, VNone)
      end
  | _ => Raise (no_attribute text "lower")
  end.

(** The shape the pattern describes.  A token is a non-empty run of
    characters of one class. *)
Definition run (c : cclass) (u : chars) : Prop := forallb (in_class c) u = true.

Definition token (c : cclass) (u : chars) : Prop := u <> [] /\ run c u.

(** Digits, optionally followed by a point and further digits. *)
Definition decimal_token (p : chars) : Prop :=
  exists i f, token Digit i /\ run Digit f /\
              (p = i ++ f \/ p = i ++ ["."%char] ++ f).

(** [s] holds, after [pre], an integer token [qty], then whitespace, then a
    word token [item], then any text without a newline, then optionally a
    dollar sign, then a decimal token [prc]. *)
Definition sale_shape_at (s pre qty item prc : chars) : Prop :=
  exists ws mid cur post,
    s = pre ++ qty ++ ws ++ item ++ mid ++ cur ++ prc ++ post /\
    token Digit qty /\ token Space ws /\ token Word item /\ run Dot mid /\
    (cur = [] \/ cur = ["$"%char]) /\ decimal_token prc.

Definition sale_shape (s qty item prc : chars) : Prop :=
  exists pre, sale_shape_at s pre qty item prc.

(** The same tokens in the same order, with any text allowed between the
    integer token and the word token. *)
Definition loosely_sale_shaped (s : chars) : Prop :=
  exists pre qty gap item mid cur prc post,
    s = pre ++ qty ++ gap ++ item ++ mid ++ cur ++ prc ++ post /\
    token Digit qty /\ token Word item /\
    (cur = [] \/ cur = ["$"%char]) /\ decimal_token prc.

End Parser.

(* ================================================================== *)
(** ** The analytics engine *)

Module Analytics.
Import Text Py Store.

(** An entry of [recent_sales]; price and total are [float]s. *)
Record recent : Type := Recent {
  recent_item_name : string;
  recent_quantity : Z;
  recent_price : float;
  recent_total : float;
  recent_time : string
}.

(** The dictionary [compute_summary] returns.  The two insertion-ordered
    dictionaries are association lists in iteration order.  Modelled from the
    spec: [price] is a decimal column, which the driver hands over as
    [Decimal]; revenue and average are [Decimal]s (the integer 0 on an empty
    collection). *)
Record summary : Type := Summary {
  total_revenue : Q;
  total_sales_count : Z;
  avg_order_value : Q;
  best_selling_item : option string;
  best_selling_quantity : Z;
  items_sold : list (string * Z);
  hourly_sales : list (nat * Z);
  recent_sales : list recent
}.

(** [sum(f(sale) for sale in sales)]: a left fold from 0, each addition
    that of [Decimal]. *)
Definition sum_Q (f : sale -> Q) (sales : list sale) : Q :=
  fold_left (fun acc s => decimal_add acc (f s)) sales (inject_Z 0).

Definition sum_Z (f : sale -> Z) (sales : list sale) : Z :=
  fold_left (fun acc s => (acc + f s)%Z) sales 0%Z.

(** [d[k] = v] on an insertion-ordered dictionary: an existing key keeps its
    place, a new key goes last. *)
Fixpoint dict_set (d : list (string * Z)) (k : string) (v : Z) : list (string * Z) :=
  match d with
  | [] => [(k, v)]
  | (k', v') :: d' =>
      if (k' =? k) then (k, v) :: d' else (k', v') :: dict_set d' k v
  end.

(** [d.get(k, 0)] *)
Definition dict_get (d : list (string * Z)) (k : string) : Z :=
  match lookup d k with
  | Some v => v
  | None => 0%Z
  end.

Definition count_items (sales : list sale) : list (string * Z) :=
  fold_left
    (fun items s =>
       dict_set items (item_name s) (dict_get items (item_name s) + quantity s)%Z)
    sales [].

(** [max(x :: l, key=...)]: the first of the largest elements. *)
Fixpoint max_by {A : Type} (key : A -> Z) (x : A) (l : list A) : A :=
  match l with
  | [] => x
  | y :: l' => max_by key (if (key x <? key y)%Z then y else x) l'
  end.

Definition best_item (items : list (string * Z)) : option string * Z :=
  match items with
  | [] => (None, 0%Z)
  | x :: l => let b := max_by snd x l in (Some (fst b), snd b)
  end.

(** [{hour: 0 for hour in range(24)}] *)
Definition empty_hours : list (nat * Z) := map (fun h => (h, 0%Z)) (seq 0 24).

(** [d[h] += q]; [None] stands for [KeyError]. *)
Fixpoint hour_add (d : list (nat * Z)) (h : nat) (q : Z) : option (list (nat * Z)) :=
  match d with
  | [] => None
  | (h', v) :: d' =>
      if (h' =? h)%nat then Some ((h', (v + q)%Z) :: d')
      else match hour_add d' h q with
           | Some d'' => Some ((h', v) :: d'')
           | None => None
           end
  end.

Fixpoint count_hours (d : list (nat * Z)) (sales : list sale)
  : result (list (nat * Z)) :=
  match sales with
  | [] => Ok d
  | s :: rest =>
      match hour_add d (hour (created_at s)) (quantity s) with
      | Some d' => count_hours d' rest
      | None => Raise (Exn KeyError "hour")
      end
  end.

(** [sorted(sales, key=lambda x: x['created_at'], reverse=True)]: stable,
    records created at the same instant keep their order. *)
Fixpoint insert_newest (r : sale) (l : list sale) : list sale :=
  match l with
  | [] => [r]
  | x :: l' =>
      if (created_at x <=? created_at r)%Z then r :: l
      else x :: insert_newest r l'
  end.

Definition newest_first (sales : list sale) : list sale :=
  fold_right insert_newest [] sales.

Definition two_digits (n : nat) : string :=
  String (ascii_of_nat (48 + n / 10)) (String (ascii_of_nat (48 + n mod 10)) "").

(** [t.strftime('%H:%M')] *)
Definition strftime_HM (t : datetime) : string :=
  two_digits (hour t) ++ ":" ++ two_digits (minute t).

Definition recent_of (s : sale) : recent :=
  Recent (item_name s) (quantity s) (float_nearest (price s))
         (float_nearest (decimal_mul (quantity s) (price s)))
         (strftime_HM (created_at s)).

(** [compute_summary(sales)] *)
Definition compute_summary (sales : list sale) : result summary :=
  match sales with
  | [] => Ok (Summary (inject_Z 0) 0 (inject_Z 0) None 0 [] empty_hours [])
  | _ =>
      let total_revenue :=
        sum_Q (fun s => decimal_mul (quantity s) (price s)) sales in
      let total_sales_count := sum_Z quantity sales in
      let avg_order_value :=
        decimal_div total_revenue (Z.of_nat (List.length sales)) in
      let items_sold := count_items sales in
      let best_selling_item := best_item items_sold in
      match count_hours empty_hours sales with
      | Raise e => Raise e
      | Ok hourly_sales =>
          let recent_sales := firstn 5 (newest_first sales) in
          Ok (Summary total_revenue total_sales_count avg_order_value
                      (fst best_selling_item) (snd best_selling_item)
                      items_sold hourly_sales (map recent_of recent_sales))
      end
  end.

(** [d[h]] *)
Fixpoint hour_get (d : list (nat * Z)) (h : nat) : option Z :=
  match d with
  | [] => None
  | (h', v) :: d' => if (h' =? h)%nat then Some v else hour_get d' h
  end.

(** The sum of the quantities. *)
Definition units_of (sales : list sale) : Z :=
  fold_right (fun s acc => (quantity s + acc)%Z) 0%Z sales.

Definition sold_as (name : string) (sales : list sale) : list sale :=
  filter (fun s => (item_name s =? name)%string) sales.

Definition sold_at (h : nat) (sales : list sale) : list sale :=
  filter (fun s => (hour (created_at s) =? h)%nat) sales.

(** [a] was created no earlier than [b]. *)
Definition no_older (a b : sale) : Prop := (created_at b <= created_at a)%Z.

End Analytics.

(* ================================================================== *)
(** ** Routes *)

Module Api.
Import Text Re Py Store Parser Analytics.

Notation "x <- m ;; k" := (bind m (fun x => k))
  (at level 61, m at next level, right associativity).

(** What a response body holds under a key. *)
Inductive json : Type :=
| JText (s : string)
| JValue (v : value)
| JBool (b : bool)
| JSale (s : sale)
| JSummary (s : summary)
| JDeletion (r : deletion).

(** [jsonify(body), status].  A route that ends in [Raise] lets the
    exception reach the framework. *)
Record response : Type := Response {
  body : list (string * json);
  status : nat
}.

Definition has_key (r : response) (k : string) : bool :=
  match lookup (body r) k with
  | Some _ => true
  | None => false
  end.

(** The glyphs that open the messages, byte for byte as in the source. *)
Definition glyph_warning : string := "‚ö†Ô∏è".
Definition glyph_done : string := "‚úÖ".
Definition glyph_chart : string := "üìä".
Definition glyph_failed : string := "‚ùå".

Section Routes.

Variable id_matches : string -> result (Z -> bool).

(** [delete_sale_route(sale_id)] *)
Definition delete_sale_route (sale_id : string) : M response :=
  try_except
    (result <- delete_sale id_matches (VStr sale_id) ;;
     match result with
     | NotFound error =>
         ret (Response [("status", JText "error"); ("message", JText error)] 404)
     | DeletedAll message _ | DeletedOne message _ =>
         ret (Response [("status", JText "success"); ("message", JText message)] 200)
     end)
    (fun e =>
       ret (Response [("status", JText "error"); ("message", JText (exn_str e))] 500)).

(** [add_sale()]; [data] is the JSON object of the request. *)
Definition add_sale (data : list (string * value)) : M response :=
  let record item_name quantity price :=
    try_except
      (sale <- insert_sale item_name quantity price ;;
       sales <- fetch_sales ;;
       summary <- lift (compute_summary sales) ;;
       ret (Response [("sale", JSale sale); ("summary", JSummary summary);
                      ("message", JText "Sale recorded successfully!")] 201))
      (fun e => ret (Response [("error", JText (exn_str e))] 500)) in
  match lookup data "item_name", lookup data "quantity", lookup data "price" with
  | Some item_name, Some quantity, Some price => record item_name quantity price
  | _, _, _ =>
      match lookup data "text" with
      | Some text =>
          parsed <- lift (parse_sales_input text) ;;
          let '(item_name, quantity, price) := parsed in
          if negb (truthy item_name)
          then ret (Response [("error", JText "Cannot parse sale input.")] 400)
          else record item_name quantity price
      | None =>
          ret (Response
                 [("error",
                   JText "Invalid request format. Provide either text or item details.")]
                 400)
      end
  end.

(** [get_analytics()] *)
Definition get_analytics : M response :=
  try_except
    (sales <- fetch_sales ;;
     analytics <- lift (compute_summary sales) ;;
     ret (Response [("success", JBool true); ("analytics", JSummary analytics)] 200))
    (fun e =>
       ret (Response [("success", JBool false); ("error", JText (exn_str e))] 500)).

End Routes.

End Api.

(* ================================================================== *)
(** ** The command interpreter *)

Module Interpreter.
Import Text Re Py Store Parser Analytics Api.
Local Open Scope string_scope.

Definition newline : string := String (ascii_of_nat 10) "".
Definition fence : string := "```".

(** The pattern of the fenced block, matched under [re.DOTALL]: the fence,
    an optional "json" and newline, group 1 lazy, a newline and the fence. *)
Definition fence_pattern : regex :=
  Seq (Str (list_ascii_of_string fence))
 (Seq (Opt (Str (list_ascii_of_string ("json" ++ newline))))
 (Seq (Group 1 (Lazy DotAll))
      (Str (list_ascii_of_string (newline ++ fence))))).

(** The envelope [{"ai_response": ..., "action": ..., ...}], status 200. *)
Definition envelope (ai_response : json) (action : string)
    (payload : list (string * json)) : response :=
  Response (("ai_response", ai_response) :: ("action", JText action) :: payload) 200.

(** [x is not None] *)
Definition is_not_none (v : value) : bool :=
  match v with
  | VNone => false
  | _ => true
  end.

(** [literal + v]: only a string can be appended to a string. *)
Definition concat_str (literal : string) (v : value) : result string :=
  match v with
  | VStr s => Ok (literal ++ s)
  | _ =>
      let quote := String (ascii_of_nat 34) "" in
      Raise (Exn TypeError
               ("can only concatenate str (not " ++ quote ++ type_name v
                ++ quote ++ ") to str"))
  end.

(** [try: body  except json.JSONDecodeError as e: handler(e)] *)
Definition try_except_json {A : Type} (body : M A) (handler : exn -> M A) : M A :=
  fun w =>
    match body w with
    | (Raise (Exn JSONDecodeError msg), w') => handler (Exn JSONDecodeError msg) w'
    | other => other
    end.

Section Assistant.

Variable id_matches : string -> result (Z -> bool).

(** [os.getenv("GEMINI_API_KEY")] *)
Variable GEMINI_API_KEY : option string.

(** The fixed text of [system_prompt] that precedes the user's message. *)
Variable persona : string.

(** [model.generate_content(prompt).text]: the hosted model's reply, or the
    exception the client raises. *)
Variable generate_content : string -> result string.

(** [json.loads]; it raises [JSONDecodeError] with its diagnostic. *)
Variable json_loads : string -> result value.

Definition key_configured : bool :=
  match GEMINI_API_KEY with
  | Some k => negb (k =? "")
  | None => false
  end.

Definition ask_model (prompt : string) : M string :=
  fun w => (generate_content prompt, contact LanguageModel w).

(** The body of the inner [try] of [ai_assistant] once the reply's block has
    been decoded: dispatch on [action]. *)
Definition run_command (response_data : value) : M response :=
  action <- lift (get response_data "action") ;;
  let chat : M response :=
    message <- lift (get_default response_data "message"
                       (VStr "I'm not sure how to respond to that.")) ;;
    ret (envelope (JValue message) "chat" []) in
  if eq_str action "add_sale" then
    item_name <- lift (get response_data "item_name") ;;
    quantity <- lift (get response_data "quantity") ;;
    price <- lift (get response_data "price") ;;
    if truthy item_name && is_not_none quantity && is_not_none price then
      sale <- insert_sale item_name quantity price ;;
      (* [if sale:] a returned row is a non-empty mapping *)
      message <- lift (get_default response_data "message"
                         (VStr (glyph_done ++ " Sale added successfully!"))) ;;
      ret (envelope (JValue message) "sale_added" [])
    else chat
  else if eq_str action "get_summary" then
    sales <- fetch_sales ;;
    summary <- lift (compute_summary sales) ;;
    message <- lift (get_default response_data "message"
                       (VStr (glyph_chart ++ " Sales Summary"))) ;;
    ret (envelope (JValue message) "summary" [("summary", JSummary summary)])
  else if eq_str action "remove_sale" then
    sale_id <- lift (get response_data "sale_id") ;;
    if negb (truthy sale_id) then
      ret (envelope
             (JText (glyph_warning
                     ++ " Please specify a sale ID or 'all' to remove sales"))
             "error" [])
    else
      confirmed <- lift (get response_data "confirmed") ;;
      if eq_str sale_id "all" && negb (truthy confirmed) then
        ret (envelope
               (JText (glyph_warning
                       ++ " Are you sure you want to delete ALL sales? This cannot be undone! Type 'yes, delete all' to confirm."))
               "confirm_delete_all" [])
      else
        result <- delete_sale id_matches sale_id ;;
        match result with
        | NotFound error =>
            ret (envelope (JText (glyph_failed ++ " " ++ error)) "error" [])
        | DeletedAll message _ | DeletedOne message _ =>
            ret (envelope (JText (glyph_done ++ " " ++ message)) "sale_deleted"
                          [("result", JDeletion result)])
        end
  else if eq_str action "convert_currency" then
    amount <- lift (get response_data "amount") ;;
    from_currency <- lift (get response_data "from_currency") ;;
    to_currency <- lift (get response_data "to_currency") ;;
    message <- lift (get_default response_data "message"
                       (VStr (glyph_chart ++ " Currency Conversion"))) ;;
    ret (envelope (JValue message) "convert_currency"
                  [("amount", JValue amount);
                   ("from_currency", JValue from_currency);
                   ("to_currency", JValue to_currency)])
  else chat.

(** [ai_assistant()]; [request_json] is [request.json]. *)
Definition ai_assistant (request_json : value) : M response :=
  user_text <- lift (get request_json "user_text") ;;
  if negb (truthy user_text) then
    ret (Response [("error", JText "No input")] 400)
  else if negb key_configured then
    ret (Response
           [("ai_response",
             JText (glyph_warning ++ " Gemini unavailable. Enter sales manually."))]
           200)
  else
    prompt <- lift (concat_str persona user_text) ;;
    let system_prompt := prompt ++ newline in
    try_except
      (reply <- ask_model system_prompt ;;
       let ai_response := strip reply in
       match search fence_pattern (list_ascii_of_string ai_response) with
       | Some json_match =>
           try_except_json
             (response_data <-
                lift (json_loads
                        (strip (string_of_list_ascii (group_text json_match 1)))) ;;
              run_command response_data)
             (fun e =>
                ret (envelope
                       (JText (glyph_warning
                               ++ " I had trouble processing that request. "
                               ++ exn_str e))
                       "error" []))
       | None => ret (envelope (JText ai_response) "chat" [])
       end)
      (fun e =>
         ret (envelope
                (JText (glyph_warning ++ " An error occurred: " ++ exn_str e))
                "error" [])).

(** The model's reply to [user_text] holds a fenced block that decodes to
    [response_data]. *)
Definition commands (user_text : string) (response_data : value) : Prop :=
  exists reply json_match,
    generate_content ((persona ++ user_text) ++ newline) = Ok reply /\
    search fence_pattern (list_ascii_of_string (strip reply)) = Some json_match /\
    json_loads (strip (string_of_list_ascii (group_text json_match 1)))
      = Ok response_data.

End Assistant.

(** The envelopes the properties below name. *)
Definition action_tags : list string :=
  ["sale_added"; "summary"; "error"; "confirm_delete_all"; "sale_deleted";
   "convert_currency"; "chat"].

Definition fallback_response : response :=
  Response
    [("ai_response",
      JText (glyph_warning ++ " Gemini unavailable. Enter sales manually."))]
    200.

Definition no_input_response : response :=
  Response [("error", JText "No input")] 400.

Definition confirmation_request : response :=
  envelope
    (JText (glyph_warning
            ++ " Are you sure you want to delete ALL sales? This cannot be undone! Type 'yes, delete all' to confirm."))
    "confirm_delete_all" [].

Definition missing_id_response : response :=
  envelope
    (JText (glyph_warning ++ " Please specify a sale ID or 'all' to remove sales"))
    "error" [].

Definition error_response (e : exn) : response :=
  envelope (JText (glyph_warning ++ " An error occurred: " ++ exn_str e)) "error" [].

Definition parse_failure (diagnostic : string) : response :=
  envelope
    (JText (glyph_warning ++ " I had trouble processing that request. "
            ++ diagnostic))
    "error" [].

Definition deleted_all_response (count : nat) : response :=
  envelope (JText (glyph_done ++ " All sales have been deleted")) "sale_deleted"
    [("result", JDeletion (DeletedAll "All sales have been deleted" count))].

Definition is_str (v : value) : bool :=
  match v with
  | VStr _ => true
  | _ => false
  end.

Definition action_of (r : response) : option json := lookup (body r) "action".

(** A uniform envelope: status 200, an [ai_response] and an [action] that is
    one of the interpreter's tags. *)
Definition is_envelope (r : response) : Prop :=
  status r = 200%nat /\ has_key r "ai_response" = true /\
  exists tag, action_of r = Some (JText tag) /\ In tag action_tags.

End Interpreter.

(* ================================================================== *)
(** ** Sample data *)

Module Sample.
Import Text Py Store Interpreter.
Local Open Scope string_scope.

Definition two_sales : world :=
  World [Sale 1 "eggs" 3 (2 # 1) (clock 10 0);
         Sale 2 "milk" 1 (3 # 1) (clock 14 0)]
        3 (clock 15 0) None [].

Definition quoted (s : string) : string :=
  String (ascii_of_nat 34) s ++ String (ascii_of_nat 34) "".

(** A JSON object with text fields only. *)
Fixpoint object_fields (fields : list (string * string)) : string :=
  match fields with
  | [] => ""
  | [(k, v)] => quoted k ++ ": " ++ quoted v
  | (k, v) :: rest => quoted k ++ ": " ++ quoted v ++ ", " ++ object_fields rest
  end.

Definition object_text (fields : list (string * string)) : string :=
  "{" ++ object_fields fields ++ "}".

(** A reply that holds [block] in a fenced block. *)
Definition fenced (block : string) : string :=
  "Sure! " ++ fence ++ "json" ++ newline ++ block ++ newline ++ fence.

(** A model that always answers with [reply]. *)
Definition model_saying (reply : string) : string -> result string :=
  fun _ => Ok reply.

(** A decoder that knows one text. *)
Definition decoding (text : string) (v : value) : string -> result value :=
  fun s =>
    if (s =? text) then Ok v
    else Raise (Exn JSONDecodeError "Expecting value: line 1 column 1 (char 0)").

Definition remove_command (sale_id : value) : value :=
  VDict [("action", VStr "remove_sale"); ("sale_id", sale_id)].

Definition request (user_text : string) : value :=
  VDict [("user_text", VStr user_text)].

(** Replies of the model used in the examples. *)
Definition delete_all_text : string :=
  object_text [("action", "remove_sale"); ("sale_id", "ALL")].

Definition delete_zero_text : string :=
  "{" ++ quoted "action" ++ ": " ++ quoted "remove_sale" ++ ", "
      ++ quoted "sale_id" ++ ": 0}".

Definition delete_number_text : string :=
  "{" ++ quoted "action" ++ ": " ++ quoted "remove_sale" ++ ", "
      ++ quoted "sale_id" ++ ": 123}".

End Sample.

(* ================================================================== *)
(** ** The listing route and the measures of the further properties *)

Module Further.
Import Text Re Py Store Parser Analytics Api Interpreter Sample.
Local Open Scope string_scope.

(** What [get_sales] answers: the bare array [jsonify(sales)] with status
    200, or the error object with status 500. *)
Inductive listing : Type :=
| Rows (sales : list sale) (status : nat)
| Failed (error : string) (status : nat).

(** [get_sales()]; the summary it computes is not part of the answer. *)
Definition get_sales : M listing :=
  try_except
    (sales <- fetch_sales ;;
     summary <- lift (compute_summary sales) ;;
     ret (Rows sales 200))
    (fun e => ret (Failed (exn_str e) 500)).

(** The sum of the values of a dictionary. *)
Definition values_total {K : Type} (d : list (K * Z)) : Z :=
  fold_right (fun entry acc => (snd entry + acc)%Z) 0%Z d.

(** Every stored id was handed out before, and no two records share one. *)
Definition store_ok (w : world) : Prop :=
  ids_below w /\ NoDup (map id (ledger w)).

(** The distinct elements of a list in the order of their first
    occurrence. *)
Definition first_seen (names : list string) : list string :=
  fold_left
    (fun seen name =>
       if existsb (String.eqb name) seen then seen else (seen ++ [name])%list)
    names [].

(** [needle] occurs in [hay]. *)
Definition occurs_in (needle hay : chars) : Prop :=
  exists pre post : chars, hay = (pre ++ needle ++ post)%list.

Definition backtick : ascii := ascii_of_nat 96.


(** What a request may do to the outside world: it keeps [store_ok], never
    lowers the id sequence, and touches neither the clock nor the state of
    the datastore connection. *)
Definition store_step (w w' : world) : Prop :=
  (store_ok w -> store_ok w') /\ (next_id w <= next_id w')%Z /\
  db_fault w' = db_fault w /\ now w' = now w.

(** Whatever [m] returns or raises, the world it leaves is related by [R]
    to the world it started in. *)
Definition always {A : Type} (R : world -> world -> Prop) (m : M A) : Prop :=
  forall w out w', m w = (out, w') -> R w w'.

Definition keeps_store {A : Type} (m : M A) : Prop := always store_step m.


(** Neither the rows nor the id sequence changed between [w] and [w']. *)
Definition same_rows (w w' : world) : Prop :=
  ledger w' = ledger w /\ next_id w' = next_id w.

(** A ledger behind a datastore that refuses connections. *)
Definition unreachable (w : world) : world :=
  World (ledger w) (next_id w) (now w)
        (Some (Exn DatabaseError "could not connect to server"))
        (contacted w).

(** Commands and replies used in the examples of the further properties. *)
Definition add_command (item_name quantity price : value) : value :=
  VDict [("action", VStr "add_sale"); ("item_name", item_name);
         ("quantity", quantity); ("price", price)].

Definition add_nameless_text : string :=
  "{" ++ quoted "action" ++ ": " ++ quoted "add_sale" ++ ", "
      ++ quoted "item_name" ++ ": " ++ quoted "" ++ ", "
      ++ quoted "quantity" ++ ": 2, " ++ quoted "price" ++ ": 1.5}".

Definition confirmed_delete_text : string :=
  "{" ++ quoted "action" ++ ": " ++ quoted "remove_sale" ++ ", "
      ++ quoted "sale_id" ++ ": " ++ quoted "all" ++ ", "
      ++ quoted "confirmed" ++ ": " ++ quoted "no" ++ "}".

Definition confirmed_delete_command : value :=
  VDict [("action", VStr "remove_sale"); ("sale_id", VStr "all");
         ("confirmed", VStr "no")].

(** The fences as the pattern of the interpreter spells them. *)
Definition opening : chars := list_ascii_of_string (fence ++ "json" ++ newline).
Definition closing : chars := list_ascii_of_string (newline ++ fence).

(** A reply that holds [block] between the fences, after [lead] and before
    [tail]. *)
Definition fenced_reply (lead block tail : chars) : string :=
  string_of_list_ascii (lead ++ opening ++ block ++ closing ++ tail)%list.

(** [a] does not occur in [s]. *)
Definition free_of (a : ascii) (s : chars) : Prop := ~ In a s.

(** A run of class [c] cannot go on into [v]: [v] is empty or begins with a
    character outside [c]. *)
Definition stops (c : cclass) (v : chars) : Prop :=
  match v with
  | [] => True
  | a :: _ => in_class c a = false
  end.

(** What may follow the integer part of a price: nothing, when no point
    comes next, or a point and a run of digits. *)
Definition fraction (frac post : chars) : Prop :=
  (frac = [] /\ stops (Lit "."%char) post) \/
  (exists f, frac = "."%char :: f /\ run Digit f).

(** A character of the text between the item and the price that the
    pattern can only skip. *)
Definition filler (a : ascii) : Prop :=
  in_class Dot a = true /\ is_digit a = false /\ a <> "$"%char.


End Further.

(* ================================================================== *)
(** * Properties *)

(** ** The matcher agrees with [matches] *)

Module ReFacts.
Import Text Re.

Section Engine.
Variable R : Type.

Lemma star_greedy_sound (c : cclass) (k : chars -> option R) :
  forall s x, star_greedy c k s = Some x ->
  exists u v, s = u ++ v /\ forallb (in_class c) u = true /\ k v = Some x.
Proof.
  induction s as [|a s IH]; simpl; intros x H.
  - exists [], []. auto.
  - destruct (in_class c a) eqn:Ha.
    + destruct (star_greedy c k s) as [y|] eqn:Hs.
      * inversion H; subst y.
        destruct (IH x eq_refl) as (u & v & -> & Hu & Hk).
        exists (a :: u), v. simpl. rewrite Ha, Hu. auto.
      * exists [], (a :: s). auto.
    + exists [], (a :: s). auto.
Qed.

Lemma star_greedy_complete (c : cclass) (k : chars -> option R) :
  forall s, star_greedy c k s = None ->
  forall u v, s = u ++ v -> forallb (in_class c) u = true -> k v = None.
Proof.
  induction s as [|a s IH]; simpl; intros H u v E Hu.
  - destruct u; [simpl in E; subst v; exact H | discriminate].
  - destruct u as [|b u]; simpl in E.
    + subst v. destruct (in_class c a); [destruct (star_greedy c k s)|];
        congruence.
    + inversion E; subst b s. simpl in Hu.
      apply andb_prop in Hu as [Hb Hu]. rewrite Hb in H.
      destruct (star_greedy c k (u ++ v)) eqn:Hs; [discriminate|].
      eapply IH; eauto.
Qed.

Lemma star_lazy_sound (c : cclass) (k : chars -> option R) :
  forall s x, star_lazy c k s = Some x ->
  exists u v, s = u ++ v /\ forallb (in_class c) u = true /\ k v = Some x.
Proof.
  induction s as [|a s IH]; simpl; intros x H.
  - destruct (k []) eqn:Hk; [|discriminate].
    exists [], []. inversion H; subst; auto.
  - destruct (k (a :: s)) eqn:Hk.
    + exists [], (a :: s). inversion H; subst; auto.
    + destruct (in_class c a) eqn:Ha; [|discriminate].
      destruct (IH x H) as (u & v & -> & Hu & Hv).
      exists (a :: u), v. simpl. rewrite Ha, Hu. auto.
Qed.

Lemma star_lazy_complete (c : cclass) (k : chars -> option R) :
  forall s, star_lazy c k s = None ->
  forall u v, s = u ++ v -> forallb (in_class c) u = true -> k v = None.
Proof.
  induction s as [|a s IH]; simpl; intros H u v E Hu.
  - destruct u; [simpl in E; subst v|discriminate].
    destruct (k []); congruence.
  - destruct (k (a :: s)) eqn:Hk; [discriminate|].
    destruct u as [|b u]; simpl in E.
    + subst v. exact Hk.
    + inversion E; subst b s. simpl in Hu.
      apply andb_prop in Hu as [Hb Hu]. rewrite Hb in H.
      eapply IH; eauto.
Qed.

Lemma firstn_consumed (u v : chars) :
  firstn (List.length (u ++ v) - List.length v) (u ++ v) = u.
Proof.
  rewrite length_app.
  replace (List.length u + List.length v - List.length v)%nat
    with (List.length u + 0)%nat by lia.
  rewrite firstn_app_2. simpl. apply app_nil_r.
Qed.

Lemma rmatch_sound :
  forall r s g (k : chars -> groups -> option R) x,
  rmatch r s g k = Some x ->
  exists u v g', s = u ++ v /\ matches r u g g' /\ k v g' = Some x.
Proof.
  induction r as [|c|c|c|r IH|r1 IH1 r2 IH2|n r IH]; simpl; intros s g k x H.
  - exists [], s, g. split; [reflexivity|]. split; [constructor|exact H].
  - destruct s as [|a s]; [discriminate|].
    destruct (in_class c a) eqn:Ha; [|discriminate].
    exists [a], s, g. split; [reflexivity|]. split; [constructor; exact Ha|exact H].
  - apply star_greedy_sound in H as (u & v & -> & Hu & Hk).
    exists u, v, g. split; [reflexivity|]. split; [constructor; exact Hu|exact Hk].
  - apply star_lazy_sound in H as (u & v & -> & Hu & Hk).
    exists u, v, g. split; [reflexivity|]. split; [constructor; exact Hu|exact Hk].
  - destruct (rmatch r s g k) as [y|] eqn:Hr.
    + inversion H; subst y.
      apply IH in Hr as (u & v & g' & -> & Hm & Hk).
      exists u, v, g'. split; [reflexivity|]. split; [constructor; exact Hm|exact Hk].
    + exists [], s, g. split; [reflexivity|]. split; [apply m_opt_none|exact H].
  - apply IH1 in H as (u1 & v1 & g1 & -> & Hm1 & H).
    apply IH2 in H as (u2 & v2 & g2 & -> & Hm2 & H).
    exists (u1 ++ u2), v2, g2. split; [apply app_assoc|].
    split; [econstructor; eauto|exact H].
  - apply IH in H as (u & v & g' & -> & Hm & H).
    rewrite firstn_consumed in H.
    exists u, v, ((n, u) :: g'). split; [reflexivity|].
    split; [constructor; exact Hm|exact H].
Qed.

Lemma rmatch_complete :
  forall r s g (k : chars -> groups -> option R),
  rmatch r s g k = None ->
  forall u v g', s = u ++ v -> matches r u g g' -> k v g' = None.
Proof.
  induction r as [|c|c|c|r IH|r1 IH1 r2 IH2|n r IH]; simpl;
    intros s g k H u v g' E Hm; inversion Hm; subst; simpl in *.
  - exact H.
  - rewrite H1 in H. exact H.
  - eapply star_greedy_complete with (k := fun s' => k s' g') in H; eauto.
  - eapply star_lazy_complete with (k := fun s' => k s' g') in H; eauto.
  - destruct (rmatch r (u ++ v) g k) eqn:Hr; [discriminate|].
    eapply IH; eauto.
  - destruct (rmatch r v g' k); [discriminate|exact H].
  - rewrite <- app_assoc in H.
    eapply IH1 in H; [|reflexivity|eassumption].
    eapply IH2; eauto.
  - eapply IH in H; [|reflexivity|eassumption].
    simpl in H. rewrite firstn_consumed in H. exact H.
Qed.

End Engine.

(** [search] finds a match exactly when some substring matches, and the
    groups it returns are those of a match of a substring. *)
Lemma search_sound (r : regex) :
  forall s g, search r s = Some g ->
  exists pre u post, s = pre ++ u ++ post /\ matches r u [] g.
Proof.
  induction s as [|a s IH]; simpl; intros g H.
  - unfold match_here in H.
    destruct (rmatch r [] [] (fun _ g0 => Some g0)) as [g0|] eqn:Hr; [|discriminate].
    inversion H; subst g0.
    apply rmatch_sound in Hr as (u & v & g' & E & Hm & Hk).
    inversion Hk; subst g'. exists [], u, v. auto.
  - unfold match_here in H.
    destruct (rmatch r (a :: s) [] (fun _ g0 => Some g0)) as [g0|] eqn:Hr.
    + inversion H; subst g0.
      apply rmatch_sound in Hr as (u & v & g' & E & Hm & Hk).
      inversion Hk; subst g'. exists [], u, v. auto.
    + destruct (IH g H) as (pre & u & post & -> & Hm).
      exists (a :: pre), u, post. auto.
Qed.

Lemma search_complete (r : regex) :
  forall s, search r s = None ->
  forall pre u post g, s = pre ++ u ++ post -> ~ matches r u [] g.
Proof.
  induction s as [|a s IH]; simpl; intros H pre u post g E Hm;
    unfold match_here in H;
    destruct (rmatch r _ [] (fun _ g0 => Some g0)) eqn:Hr; try discriminate.
  - destruct pre; [|discriminate]. simpl in E.
    eapply rmatch_complete in Hr; eauto. discriminate.
  - destruct pre as [|b pre]; simpl in E.
    + eapply rmatch_complete in Hr; eauto. discriminate.
    + inversion E; subst. eapply IH; eauto.
Qed.

(** The match [search] returns starts at the leftmost position where the
    pattern matches at all. *)
Lemma search_leftmost (r : regex) :
  forall s g, search r s = Some g ->
  exists pre u post,
    s = pre ++ u ++ post /\ matches r u [] g /\
    forall pre' u' post' g',
      s = pre' ++ u' ++ post' -> matches r u' [] g' ->
      (List.length pre <= List.length pre')%nat.
Proof.
  induction s as [|a s IH]; simpl; intros g H; unfold match_here in H;
    destruct (rmatch r _ [] (fun _ g0 => Some g0)) as [g0|] eqn:Hr;
    try discriminate.
  - inversion H; subst g0.
    apply rmatch_sound in Hr as (u & v & g' & E & Hm & Hk).
    inversion Hk; subst g'. exists [], u, v.
    split; [exact E|]. split; [exact Hm|]. intros. simpl. lia.
  - inversion H; subst g0.
    apply rmatch_sound in Hr as (u & v & g' & E & Hm & Hk).
    inversion Hk; subst g'. exists [], u, v.
    split; [exact E|]. split; [exact Hm|]. intros. simpl. lia.
  - destruct (IH g H) as (pre & u & post & -> & Hm & Hleft).
    exists (a :: pre), u, post.
    split; [reflexivity|]. split; [exact Hm|].
    intros pre' u' post' g' E Hm'.
    destruct pre' as [|b pre']; simpl in E.
    + eapply rmatch_complete in Hr; eauto. discriminate.
    + inversion E; subst b. simpl.
      apply le_n_S. eapply Hleft; eauto.
Qed.

End ReFacts.

(** ** Which match is found *)

Module ReMore.
Import Text Re ReFacts.

Section First.
Variable R : Type.

(** The greedy star returns the result of the longest run after which the
    rest of the pattern matches. *)
Lemma star_greedy_first (c : cclass) (k : chars -> option R) :
  forall s x, star_greedy c k s = Some x ->
  exists u v,
    s = u ++ v /\ forallb (in_class c) u = true /\ k v = Some x /\
    forall u' v', s = u' ++ v' -> forallb (in_class c) u' = true ->
                  (List.length u < List.length u')%nat -> k v' = None.
Proof.
  induction s as [|a s IH]; simpl; intros x H.
  - exists [], []. split; [reflexivity|]. split; [reflexivity|]. split; [exact H|].
    intros u' v' E _ Hlen. destruct u'; [simpl in Hlen; lia|discriminate].
  - destruct (in_class c a) eqn:Ha.
    + destruct (star_greedy c k s) as [y|] eqn:Hs.
      * inversion H; subst y.
        destruct (IH x eq_refl) as (u & v & -> & Hu & Hk & Hlong).
        exists (a :: u), v. split; [reflexivity|].
        split; [simpl; rewrite Ha, Hu; reflexivity|]. split; [exact Hk|].
        intros u' v' E Hu' Hlen. destruct u' as [|b u']; [simpl in Hlen; lia|].
        simpl in E. inversion E; subst b. simpl in Hu'.
        apply andb_prop in Hu' as [_ Hu'].
        apply (Hlong u' v'); [assumption|exact Hu'|simpl in Hlen; lia].
      * exists [], (a :: s). split; [reflexivity|]. split; [reflexivity|].
        split; [exact H|].
        intros u' v' E Hu' Hlen. destruct u' as [|b u']; [simpl in Hlen; lia|].
        simpl in E. inversion E; subst b. simpl in Hu'.
        apply andb_prop in Hu' as [_ Hu'].
        apply (@star_greedy_complete R c k s Hs u' v'); [assumption|exact Hu'].
    + exists [], (a :: s). split; [reflexivity|]. split; [reflexivity|].
      split; [exact H|].
      intros u' v' E Hu' Hlen. destruct u' as [|b u']; [simpl in Hlen; lia|].
      simpl in E. inversion E; subst b. simpl in Hu'.
      rewrite Ha in Hu'. discriminate.
Qed.

End First.

(** Where the match that [search] returns starts: at the first position
    from which the pattern matches. *)
Lemma search_position (r : regex) :
  forall s g, search r s = Some g ->
  exists pre rest,
    s = pre ++ rest /\ match_here r rest = Some g /\
    forall pre' rest', s = pre' ++ rest' ->
                       (List.length pre' < List.length pre)%nat ->
                       match_here r rest' = None.
Proof.
  induction s as [|a s IH]; intros g H.
  - simpl in H. destruct (match_here r []) as [g0|] eqn:Hm; [|discriminate].
    exists [], []. split; [reflexivity|]. split; [congruence|].
    intros pre' rest' _ Hlen. simpl in Hlen. lia.
  - cbn [search] in H. destruct (match_here r (a :: s)) as [g0|] eqn:Hm.
    + exists [], (a :: s). split; [reflexivity|]. split; [congruence|].
      intros pre' rest' _ Hlen. simpl in Hlen. lia.
    + destruct (IH g H) as (pre & rest & -> & Hrest & Hleft).
      exists (a :: pre), rest. split; [reflexivity|]. split; [exact Hrest|].
      intros pre' rest' E Hlen. destruct pre' as [|b pre'].
      * simpl in E. subst rest'. exact Hm.
      * simpl in E. inversion E; subst b.
        apply (Hleft pre' rest'); [assumption|simpl in Hlen; lia].
Qed.

End ReMore.

(** ** The text parser *)

Module ParserFacts.
Import Text Re Py Parser ReFacts ReMore.

Ltac inv H := inversion H; subst; clear H.

Ltac inv_matches :=
  repeat match goal with
  | H : matches Eps _ _ _ |- _ => inv H
  | H : matches (Chr _) _ _ _ |- _ => inv H
  | H : matches (Star _) _ _ _ |- _ => inv H
  | H : matches (Lazy _) _ _ _ |- _ => inv H
  | H : matches (Seq _ _) _ _ _ |- _ => inv H
  | H : matches (Group _ _) _ _ _ |- _ => inv H
  | H : matches (Plus _) _ _ _ |- _ => unfold Plus in H
  end.

Lemma matches_plus (c : cclass) (u : chars) (g g' : groups) :
  matches (Plus c) u g g' <-> token c u /\ g' = g.
Proof.
  unfold token, run. split.
  - intros H. inv_matches. simpl.
    match goal with Ha : in_class _ _ = true, Hu : forallb _ _ = true |- _ =>
      rewrite Ha, Hu end.
    repeat split; congruence.
  - intros [[Hne Hu] ->]. destruct u as [|a u]; [congruence|].
    simpl in Hu. apply andb_prop in Hu as [Ha Hu].
    change (a :: u) with ([a] ++ u). econstructor; constructor; assumption.
Qed.

Lemma matches_opt_char (a : ascii) (u : chars) (g g' : groups) :
  matches (Opt (Chr (Lit a))) u g g' <-> (u = [] \/ u = [a]) /\ g' = g.
Proof.
  split.
  - intros H. inv H; [|auto]. inv_matches.
    match goal with Ha : in_class _ _ = true |- _ =>
      simpl in Ha; apply Nat.eqb_eq in Ha; unfold code in Ha;
      apply (f_equal ascii_of_nat) in Ha; rewrite !ascii_nat_embedding in Ha
    end.
    subst. auto.
  - intros [[->| ->] ->]; [apply m_opt_none|].
    apply m_opt_some. constructor. simpl. apply Nat.eqb_refl.
Qed.

Lemma sale_pattern_shape (u : chars) (g : groups) :
  matches sale_pattern u [] g <->
  exists qty ws item mid cur prc,
    u = qty ++ ws ++ item ++ mid ++ cur ++ prc /\
    g = [(3, prc); (2, item); (1, qty)]%nat /\
    token Digit qty /\ token Space ws /\ token Word item /\ run Dot mid /\
    (cur = [] \/ cur = ["$"%char]) /\ decimal_token prc.
Proof.
  unfold sale_pattern. split.
  - intros H.
    repeat match goal with
    | H : matches (Seq (Plus _) _) _ _ _ |- _ => inv H
    | H : matches (Seq (Group _ _) _) _ _ _ |- _ => inv H
    | H : matches (Seq (Lazy _) _) _ _ _ |- _ => inv H
    | H : matches (Seq (Opt _) _) _ _ _ |- _ => inv H
    | H : matches (Group _ _) _ _ _ |- _ => inv H
    | H : matches (Lazy _) _ _ _ |- _ => inv H
    | H : matches (Star _) _ _ _ |- _ => inv H
    | H : matches (Plus _) _ _ _ |- _ => apply matches_plus in H; destruct H as [? ?]; subst
    | H : matches (Opt (Chr (Lit _))) _ _ _ |- _ =>
        apply matches_opt_char in H; destruct H as [? ?]; subst
    end.
    exists u1, u0, u2, u3, u4, (u5 ++ u6 ++ u8).
    repeat (split; [first [reflexivity | assumption]|]).
    exists u5, u8. repeat (split; [assumption|]).
    destruct H6 as [->| ->]; auto.
  - intros (qty & ws & item & mid & cur & prc & -> & -> & Hq & Hw & Hi & Hm & Hc
            & (i & f & Hint & Hf & Hp)).
    econstructor; [constructor; apply matches_plus; split; [exact Hq|reflexivity]|].
    econstructor; [apply matches_plus; split; [exact Hw|reflexivity]|].
    econstructor; [constructor; apply matches_plus; split; [exact Hi|reflexivity]|].
    econstructor; [constructor; exact Hm|].
    econstructor; [apply matches_opt_char; split; [exact Hc|reflexivity]|].
    assert (E : exists dot, prc = i ++ dot ++ f /\ (dot = [] \/ dot = ["."%char])).
    { destruct Hp as [->| ->]; [exists []|exists ["."%char]]; auto. }
    destruct E as (dot & -> & Hdot).
    constructor.
    econstructor; [apply matches_plus; split; [exact Hint|reflexivity]|].
    econstructor; [apply matches_opt_char; split; [exact Hdot|reflexivity]|].
    constructor. exact Hf.
Qed.

Lemma digits_no_dot (s : chars) :
  run Digit s -> split_dot s = (s, None).
Proof.
  unfold run. induction s as [|a s IH]; simpl; intros H; [reflexivity|].
  apply andb_prop in H as [Ha H].
  unfold is_digit, between in Ha. apply andb_prop in Ha as [Hlo Hhi].
  apply Nat.leb_le in Hlo, Hhi.
  destruct (code a =? 46)%nat eqn:E; [apply Nat.eqb_eq in E; lia|].
  rewrite (IH H). reflexivity.
Qed.

Lemma split_dot_point (i f : chars) :
  run Digit i -> split_dot (i ++ "."%char :: f) = (i, Some f).
Proof.
  unfold run. induction i as [|a i IH]; simpl; intros H; [reflexivity|].
  apply andb_prop in H as [Ha H].
  unfold is_digit, between in Ha. apply andb_prop in Ha as [Hlo Hhi].
  apply Nat.leb_le in Hlo, Hhi.
  destruct (code a =? 46)%nat eqn:E; [apply Nat.eqb_eq in E; lia|].
  rewrite (IH H). reflexivity.
Qed.

Lemma py_int_token (s : chars) :
  token Digit s -> (List.length s <= int_max_str_digits)%nat ->
  py_int s = Some (digits_value s).
Proof.
  intros [Hne H] Hlen. unfold py_int. unfold run in H.
  change (forallb is_digit s = true) in H.
  destruct s; [congruence|]. rewrite H.
  apply Nat.leb_le in Hlen. rewrite Hlen. reflexivity.
Qed.

Lemma py_int_long (s : chars) :
  token Digit s -> (int_max_str_digits < List.length s)%nat ->
  py_int s = None /\ int_error s = too_many_digits s.
Proof.
  intros [Hne H] Hlen. unfold py_int, int_error.
  apply Nat.leb_gt in Hlen. rewrite Hlen, andb_false_r.
  destruct s; [congruence|]. split; reflexivity.
Qed.

Lemma run_app (c : cclass) (u v : chars) :
  run c u -> run c v -> run c (u ++ v).
Proof. unfold run. intros. rewrite forallb_app. apply andb_true_intro; auto. Qed.

Lemma digits_value_from (s : chars) :
  forall acc, (0 <= acc)%Z ->
  (0 <= fold_left (fun acc a => (10 * acc + digit_value a)%Z) s acc)%Z.
Proof.
  induction s as [|a s IH]; cbn [fold_left]; intros acc Hacc; [exact Hacc|].
  apply IH. unfold digit_value. lia.
Qed.

Lemma digits_value_nonneg (s : chars) : (0 <= digits_value s)%Z.
Proof. apply digits_value_from. lia. Qed.

(** A decimal token denotes a number that is not negative. *)
Lemma decimal_value_token (p : chars) :
  decimal_token p -> exists x, decimal_value p = Some x /\ 0 <= x.
Proof.
  intros (i & f & Hi & Hf & [->| ->]); unfold decimal_value.
  - assert (Hrun : run Digit (i ++ f)) by (apply run_app; [apply Hi|exact Hf]).
    rewrite (digits_no_dot Hrun).
    unfold run in Hrun. change (forallb is_digit (i ++ f) = true) in Hrun.
    rewrite Hrun.
    destruct Hi as [Hne _].
    destruct (i ++ f) eqn:E; [destruct i; [congruence|discriminate]|].
    eexists. split; [reflexivity|].
    unfold Qle. cbn [Qnum Qden inject_Z].
    pose proof (digits_value_nonneg (a :: l)). lia.
  - simpl. rewrite split_dot_point by apply Hi.
    destruct Hi as [Hne Hi]. unfold run in Hi, Hf.
    change (forallb is_digit i = true) in Hi.
    change (forallb is_digit f = true) in Hf.
    rewrite Hi, Hf. destruct i; [congruence|].
    eexists. split; [reflexivity|].
    unfold Qle. cbn [Qnum Qden inject_Z].
    pose proof (digits_value_nonneg (a :: i)). pose proof (digits_value_nonneg f).
    assert (0 < 10 ^ Z.of_nat (List.length f))%Z by (apply Z.pow_pos_nonneg; lia).
    nia.
Qed.

Lemma py_float_decimal (p : chars) :
  decimal_token p ->
  exists x, decimal_value p = Some x /\ 0 <= x /\
            py_float p = Some (float_nearest x).
Proof.
  intros H. destruct (decimal_value_token H) as (x & Hx & Hpos).
  exists x. split; [exact Hx|]. split; [exact Hpos|].
  unfold py_float. rewrite Hx. reflexivity.
Qed.

Lemma sale_shape_at_matches (s pre qty item prc : chars) :
  sale_shape_at s pre qty item prc <->
  exists u post,
    s = pre ++ u ++ post /\
    matches sale_pattern u [] [(3, prc); (2, item); (1, qty)]%nat.
Proof.
  split.
  - intros (ws & mid & cur & post & -> & H).
    exists (qty ++ ws ++ item ++ mid ++ cur ++ prc), post.
    split; [now rewrite <- !app_assoc|].
    apply sale_pattern_shape. exists qty, ws, item, mid, cur, prc. auto.
  - intros (u & post & -> & H).
    apply sale_pattern_shape in H
      as (qty' & ws & item' & mid & cur & prc' & -> & E & H).
    inversion E; subst. exists ws, mid, cur, post.
    split; [now rewrite <- !app_assoc|exact H].
Qed.

Ltac by_code :=
  cbv [in_class is_space is_word is_digit is_upper is_lower between];
  change (code "$"%char) with 36%nat;
  match goal with |- context [code ?a] => generalize (code a) end;
  intros n;
  repeat match goal with
         | |- context [(?x <=? ?y)%nat] => destruct (Nat.leb_spec x y)
         | |- context [(?x =? ?y)%nat] => destruct (Nat.eqb_spec x y)
         end;
  simpl; intros; try reflexivity; try discriminate; lia.

Lemma space_not_digit (a : ascii) : is_space a = true -> is_digit a = false.
Proof. by_code. Qed.

Lemma word_not_space (a : ascii) : is_word a = true -> is_space a = false.
Proof. by_code. Qed.

Lemma digit_not_dollar (a : ascii) :
  is_digit a = true -> in_class (Lit "$"%char) a = false.
Proof. by_code. Qed.

Lemma token_head (c : cclass) (u : chars) :
  token c u -> exists a u', u = a :: u' /\ in_class c a = true /\ run c u'.
Proof.
  intros [Hne Hrun]. destruct u as [|a u]; [congruence|].
  unfold run in Hrun. simpl in Hrun. apply andb_true_iff in Hrun as [Ha Hu].
  exists a, u. auto.
Qed.

(** A run that ends before a character outside its class ends at one place
    only. *)
Lemma run_ends_once (c : cclass) :
  forall (u u' : chars) (a a' : ascii) (r r' : chars),
  u ++ a :: r = u' ++ a' :: r' ->
  run c u -> run c u' -> in_class c a = false -> in_class c a' = false ->
  u = u' /\ a :: r = a' :: r'.
Proof.
  unfold run. induction u as [|x u IH]; intros u' a a' r r' E Hu Hu' Ha Ha'.
  - destruct u' as [|y u']; [auto|].
    simpl in E. inversion E; subst. simpl in Hu'.
    rewrite Ha in Hu'. discriminate.
  - destruct u' as [|y u'].
    + simpl in E. inversion E; subst. simpl in Hu. rewrite Ha' in Hu. discriminate.
    + simpl in E. inversion E; subst y. simpl in Hu, Hu'.
      apply andb_prop in Hu as [_ Hu]. apply andb_prop in Hu' as [_ Hu'].
      destruct (IH u' a a' r r' H1 Hu Hu' Ha Ha') as [-> E']. auto.
Qed.

Section Longest.
Variable R : Type.

Lemma rmatch_plus_first (c : cclass) (s : chars) (g : groups)
    (k : chars -> groups -> option R) (x : R) :
  rmatch (Plus c) s g k = Some x ->
  exists u v,
    s = u ++ v /\ token c u /\ k v g = Some x /\
    forall u' v', s = u' ++ v' -> token c u' ->
                  (List.length u < List.length u')%nat -> k v' g = None.
Proof.
  unfold Plus. simpl. destruct s as [|a s]; [discriminate|].
  destruct (in_class c a) eqn:Ha; [|discriminate]. intros H.
  apply star_greedy_first in H as (u & v & -> & Hu & Hk & Hlong).
  exists (a :: u), v. split; [reflexivity|].
  split; [split; [discriminate|unfold run; simpl; rewrite Ha, Hu; reflexivity]|].
  split; [exact Hk|].
  intros u' v' E [Hne Hu'] Hlen. destruct u' as [|b u']; [congruence|].
  simpl in E. inversion E; subst b. unfold run in Hu'. simpl in Hu'.
  apply andb_prop in Hu' as [_ Hu'].
  apply (Hlong u' v'); [assumption|exact Hu'|simpl in Hlen; lia].
Qed.

End Longest.

Lemma after_item_shape (u : chars) (g g' : groups) :
  matches after_item u g g' <->
  exists mid cur prc,
    u = mid ++ cur ++ prc /\ g' = (3%nat, prc) :: g /\
    run Dot mid /\ (cur = [] \/ cur = ["$"%char]) /\ decimal_token prc.
Proof.
  unfold after_item. split.
  - intros H.
    repeat match goal with
    | H : matches (Seq (Plus _) _) _ _ _ |- _ => inv H
    | H : matches (Seq (Lazy _) _) _ _ _ |- _ => inv H
    | H : matches (Seq (Opt _) _) _ _ _ |- _ => inv H
    | H : matches (Group _ _) _ _ _ |- _ => inv H
    | H : matches (Lazy _) _ _ _ |- _ => inv H
    | H : matches (Star _) _ _ _ |- _ => inv H
    | H : matches (Plus _) _ _ _ |- _ => apply matches_plus in H; destruct H as [? ?]; subst
    | H : matches (Opt (Chr (Lit _))) _ _ _ |- _ =>
        apply matches_opt_char in H; destruct H as [? ?]; subst
    end.
    match goal with
    | Hc : _ = [] \/ _ = ["$"%char], Hd : _ = [] \/ _ = ["."%char],
      Hm : forallb (in_class Dot) ?mid = true,
      Hi : token Digit ?i, Hf : forallb (in_class Digit) ?f = true
      |- exists _ _ _, ?mid ++ ?cur ++ ?i ++ ?dot ++ ?f = _ /\ _ =>
        exists mid, cur, (i ++ dot ++ f);
        split; [reflexivity|]; split; [reflexivity|];
        split; [exact Hm|]; split; [exact Hc|];
        exists i, f; split; [exact Hi|]; split; [exact Hf|];
        destruct Hd as [->| ->]; auto
    end.
  - intros (mid & cur & prc & -> & -> & Hm & Hc & (i & f & Hint & Hf & Hp)).
    econstructor; [constructor; exact Hm|].
    econstructor; [apply matches_opt_char; split; [exact Hc|reflexivity]|].
    assert (E : exists dot, prc = i ++ dot ++ f /\ (dot = [] \/ dot = ["."%char])).
    { destruct Hp as [->| ->]; [exists []|exists ["."%char]]; auto. }
    destruct E as (dot & -> & Hdot).
    constructor.
    econstructor; [apply matches_plus; split; [exact Hint|reflexivity]|].
    econstructor; [apply matches_opt_char; split; [exact Hdot|reflexivity]|].
    constructor. exact Hf.
Qed.

(** What a match of the pattern from the start of [s] tells: the integer, the
    whitespace and the item it takes, and that after no longer item the rest
    of the pattern would match. *)
Lemma match_here_sale (s : chars) (g : groups) :
  match_here sale_pattern s = Some g ->
  exists qty ws item tail prc,
    s = qty ++ ws ++ item ++ tail /\
    token Digit qty /\ token Space ws /\ token Word item /\
    g = [(3, prc); (2, item); (1, qty)]%nat /\
    (exists mid cur post,
       tail = mid ++ cur ++ prc ++ post /\
       run Dot mid /\ (cur = [] \/ cur = ["$"%char]) /\ decimal_token prc) /\
    (forall item' tail',
       item ++ tail = item' ++ tail' -> token Word item' ->
       (List.length item < List.length item')%nat ->
       rmatch after_item tail' [(2, item'); (1, qty)]%nat
              (fun _ g' => Some g') = None).
Proof.
  unfold match_here, sale_pattern. fold after_item. cbn [rmatch]. intros H.
  apply rmatch_plus_first in H as (qty & v1 & -> & Hq & H1 & _).
  cbv beta in H1. rewrite firstn_consumed in H1.
  apply rmatch_plus_first in H1 as (ws & v2 & -> & Hw & H2 & _).
  apply rmatch_plus_first in H2 as (item & v3 & -> & Hi & H3 & Hlong).
  cbv beta in H3. rewrite firstn_consumed in H3.
  pose proof H3 as Hm.
  apply rmatch_sound in Hm as (u & post & g' & -> & Hm & Hg).
  inversion Hg; subst g'.
  apply after_item_shape in Hm as (mid & cur & prc & -> & -> & Hmid & Hcur & Hprc).
  exists qty, ws, item, ((mid ++ cur ++ prc) ++ post), prc.
  split; [reflexivity|]. split; [exact Hq|]. split; [exact Hw|].
  split; [exact Hi|]. split; [reflexivity|].
  split.
  { exists mid, cur, post. split; [rewrite <- !app_assoc; reflexivity|auto]. }
  intros item' tail' E Hi' Hlen.
  specialize (Hlong item' tail' E Hi' Hlen). cbv beta in Hlong.
  rewrite E, firstn_consumed in Hlong. exact Hlong.
Qed.

(** What [parse_sales_input] returns on a string: nothing at all, or the
    components of the leftmost occurrence of the shape, with the longest
    item that occurrence allows; [int] refuses a quantity of too many
    digits. *)
Lemma parse_sales_input_cases (text : string) :
  let s := list_ascii_of_string (lower text) in
  (parse_sales_input (VStr text) = Ok (VNone, VNone, VNone) /\
   forall qty item prc, ~ sale_shape s qty item prc)
  \/
  (exists pre qty item prc price,
     sale_shape_at s pre qty item prc /\
     (forall pre' qty' item' prc',
        sale_shape_at s pre' qty' item' prc' ->
        (List.length pre <= List.length pre')%nat) /\
     (forall qty' item' prc',
        sale_shape_at s pre qty' item' prc' ->
        qty' = qty /\ (List.length item' <= List.length item)%nat) /\
     decimal_value prc = Some price /\ 0 <= price /\
     parse_sales_input (VStr text)
       = if (List.length qty <=? int_max_str_digits)%nat
         then Ok (VStr (string_of_list_ascii item), VInt (digits_value qty),
                  value_of_float (float_nearest price))
         else Raise (too_many_digits qty)).
Proof.
  intros s. unfold parse_sales_input. fold s.
  destruct (search sale_pattern s) as [g|] eqn:Hs.
  - right.
    pose proof Hs as Hpos.
    apply search_position in Hpos as (pre & rest & Es & Hhere & Hfirst).
    apply match_here_sale in Hhere
      as (qty & ws & item & tail & prc & -> & Hq & Hw & Hi & -> &
          (mid & cur & post & -> & Hmid & Hcur & Hprc) & Hlong).
    destruct (py_float_decimal Hprc) as (price & Hvalue & Hpos & Hfloat).
    exists pre, qty, item, prc, price.
    split.
    { exists ws, mid, cur, post. split; [exact Es|].
      repeat (split; [assumption|]). assumption. }
    split.
    { intros pre' qty' item' prc' H'.
      apply sale_shape_at_matches in H' as (u' & post' & E' & Hm').
      destruct (Nat.le_gt_cases (List.length pre) (List.length pre')) as [|Hlt];
        [assumption|].
      specialize (Hfirst pre' (u' ++ post') E' Hlt).
      unfold match_here in Hfirst.
      pose proof (@rmatch_complete _ sale_pattern (u' ++ post') []
                    (fun _ g0 => Some g0) Hfirst u' post' _ eq_refl Hm') as Hc.
      discriminate Hc. }
    split.
    { intros qty' item' prc' (ws' & mid' & cur' & post' & E' & Hq' & Hw' & Hi' &
                               Hmid' & Hcur' & Hprc').
      rewrite Es in E'. apply app_inv_head in E'.
      destruct (@token_head Space ws Hw) as (a & ws1 & Ea & Ha & _).
      destruct (@token_head Space ws' Hw') as (a' & ws1' & Ea' & Ha' & _).
      assert (Eq : qty = qty' /\ ws ++ item ++ mid ++ cur ++ prc ++ post
                                 = ws' ++ item' ++ mid' ++ cur' ++ prc' ++ post').
      { rewrite Ea, Ea'. rewrite Ea, Ea' in E'.
        apply (@run_ends_once Digit qty qty' a a'
                 (ws1 ++ item ++ mid ++ cur ++ prc ++ post)
                 (ws1' ++ item' ++ mid' ++ cur' ++ prc' ++ post'));
          [exact E'|apply Hq|apply Hq'| |];
          apply space_not_digit; assumption. }
      destruct Eq as [Eqty E2]. split; [symmetry; exact Eqty|].
      destruct (@token_head Word item Hi) as (b & it1 & Eb & Hb & _).
      destruct (@token_head Word item' Hi') as (b' & it1' & Eb' & Hb' & _).
      assert (Ew : ws = ws' /\ item ++ mid ++ cur ++ prc ++ post
                               = item' ++ mid' ++ cur' ++ prc' ++ post').
      { rewrite Eb, Eb'. rewrite Eb, Eb' in E2.
        apply (@run_ends_once Space ws ws' b b'
                 (it1 ++ mid ++ cur ++ prc ++ post)
                 (it1' ++ mid' ++ cur' ++ prc' ++ post'));
          [exact E2|apply Hw|apply Hw'| |];
          apply word_not_space; assumption. }
      destruct Ew as [_ E3].
      destruct (Nat.le_gt_cases (List.length item') (List.length item)) as [|Hlt];
        [assumption|].
      assert (Hnone := Hlong item' (mid' ++ cur' ++ prc' ++ post') E3 Hi' Hlt).
      assert (Hm : matches after_item (mid' ++ cur' ++ prc')
                     [(2, item'); (1, qty)]%nat
                     ((3%nat, prc') :: [(2, item'); (1, qty)]%nat)).
      { apply after_item_shape. exists mid', cur', prc'. auto. }
      assert (Esplit : mid' ++ cur' ++ prc' ++ post'
                       = (mid' ++ cur' ++ prc') ++ post')
        by (rewrite <- !app_assoc; reflexivity).
      pose proof (@rmatch_complete _ after_item (mid' ++ cur' ++ prc' ++ post')
                    [(2, item'); (1, qty)]%nat (fun _ g0 => Some g0) Hnone
                    (mid' ++ cur' ++ prc') post' _ Esplit Hm) as Hc.
      discriminate Hc. }
    split; [exact Hvalue|]. split; [exact Hpos|].
    unfold group_text. cbn [group Nat.eqb].
    destruct (Nat.leb_spec (List.length qty) int_max_str_digits) as [Hlen|Hlen].
    + rewrite (py_int_token Hq Hlen), Hfloat. reflexivity.
    + destruct (py_int_long Hq Hlen) as [-> ->]. reflexivity.
  - left. split; [reflexivity|].
    intros qty item prc [pre H].
    apply sale_shape_at_matches in H as (u & post & E & Hm).
    eapply search_complete; eauto.
Qed.

Lemma string_of_list_ascii_app (a b : chars) :
  string_of_list_ascii (a ++ b)
  = (string_of_list_ascii a ++ string_of_list_ascii b)%string.
Proof.
  induction a as [|x a IH]; simpl; [reflexivity|]. rewrite IH. reflexivity.
Qed.

(** The same on lists of characters, with the pieces of the submitted text
    in place. *)
Lemma lower_split (text : string) (before piece after : chars) :
  list_ascii_of_string (lower text) = before ++ piece ++ after ->
  exists before' token after',
    list_ascii_of_string text = before' ++ token ++ after' /\
    map lower_char before' = before /\ map lower_char token = piece /\
    map lower_char after' = after.
Proof.
  unfold lower. rewrite list_ascii_of_string_of_list_ascii. intros H.
  apply map_eq_app in H as (b' & rest & Et & Hb & Hrest).
  apply map_eq_app in Hrest as (p' & a' & -> & Hp & Ha).
  exists b', p', a'. auto.
Qed.

Lemma code_ascii_of_nat (n : nat) : (n < 256)%nat -> code (ascii_of_nat n) = n.
Proof. intros H. unfold code. apply nat_ascii_embedding. exact H. Qed.

(** Lower-casing leaves no upper-case letter, and is idempotent. *)
Lemma lower_char_not_upper (a : ascii) : is_upper (lower_char a) = false.
Proof.
  unfold lower_char. destruct (is_upper a) eqn:E; [|exact E].
  unfold is_upper, between in *. apply andb_prop in E as [Hlo Hhi].
  apply Nat.leb_le in Hlo, Hhi.
  rewrite code_ascii_of_nat by lia.
  apply andb_false_intro2. apply Nat.leb_gt. lia.
Qed.

Lemma lower_char_idempotent (a : ascii) : lower_char (lower_char a) = lower_char a.
Proof.
  unfold lower_char at 1. rewrite lower_char_not_upper. reflexivity.
Qed.

Lemma lower_idempotent (s : string) : lower (lower s) = lower s.
Proof.
  unfold lower. rewrite list_ascii_of_string_of_list_ascii, map_map.
  f_equal. apply map_ext. intros a. apply lower_char_idempotent.
Qed.

Lemma token_text_truthy (c : cclass) (u : chars) :
  token c u -> truthy (VStr (string_of_list_ascii u)) = true.
Proof.
  intros [Hne _]. destruct u; [congruence|reflexivity].
Qed.

End ParserFacts.

(** ** The analytics engine *)

Module AnalyticsFacts.
Import Text Py Store Analytics.

Lemma sum_Z_from (f : sale -> Z) (sales : list sale) :
  forall acc,
  fold_left (fun a s => (a + f s)%Z) sales acc
  = (acc + fold_right (fun s a => (f s + a)%Z) 0%Z sales)%Z.
Proof.
  induction sales as [|s sales IH]; simpl; intros acc; [lia|].
  rewrite IH. lia.
Qed.

Lemma sum_Z_units (sales : list sale) : sum_Z quantity sales = units_of sales.
Proof. unfold sum_Z, units_of. rewrite sum_Z_from. lia. Qed.

Lemma lookup_dict_set (d : list (string * Z)) (k k' : string) (v : Z) :
  lookup (dict_set d k v) k'
  = if (k =? k')%string then Some v else lookup d k'.
Proof.
  induction d as [|[k0 v0] d IH]; simpl.
  - reflexivity.
  - destruct (k0 =? k)%string eqn:E0; simpl.
    + apply String.eqb_eq in E0; subst k0.
      destruct (k =? k')%string; reflexivity.
    + destruct (k0 =? k')%string eqn:E1.
      * apply String.eqb_eq in E1; subst k0.
        rewrite String.eqb_sym in E0. rewrite E0. reflexivity.
      * exact IH.
Qed.

Lemma count_items_from (sales : list sale) :
  forall items name,
  lookup
    (fold_left
       (fun items s =>
          dict_set items (item_name s)
                   (dict_get items (item_name s) + quantity s)%Z)
       sales items) name
  = match lookup items name, sold_as name sales with
    | None, [] => None
    | o, l => Some ((match o with Some v => v | None => 0 end)
                    + units_of l)%Z
    end.
Proof.
  induction sales as [|s sales IH]; simpl; intros items name.
  - destruct (lookup items name); [f_equal; lia|reflexivity].
  - rewrite IH, lookup_dict_set. unfold sold_as at 2. simpl.
    fold (sold_as name sales).
    destruct (item_name s =? name)%string eqn:E.
    + apply String.eqb_eq in E; subst name. unfold dict_get.
      destruct (lookup items (item_name s)); simpl;
        destruct (sold_as (item_name s) sales); simpl; f_equal; lia.
    + reflexivity.
Qed.

Lemma count_items_lookup (sales : list sale) (name : string) :
  lookup (count_items sales) name
  = match sold_as name sales with
    | [] => None
    | l => Some (units_of l)
    end.
Proof.
  unfold count_items. rewrite count_items_from. simpl.
  destruct (sold_as name sales); reflexivity.
Qed.

Lemma max_by_first (A : Type) (key : A -> Z) (l : list A) :
  forall x,
  exists before after,
    x :: l = before ++ max_by key x l :: after /\
    (forall y, In y before -> (key y < key (max_by key x l))%Z) /\
    (forall y, In y after -> (key y <= key (max_by key x l))%Z).
Proof.
  induction l as [|y l IH]; simpl; intros x.
  - exists [], []. repeat split; simpl; intros; tauto.
  - destruct (key x <? key y)%Z eqn:E.
    + apply Z.ltb_lt in E.
      destruct (IH y) as (before & after & Eq & Hb & Ha).
      remember (max_by key y l) as b eqn:Eb. clear Eb IH.
      exists (x :: before), after.
      split; [simpl; f_equal; exact Eq|]. split; [|exact Ha].
      intros z [<-|Hz]; [|auto].
      destruct before as [|c before]; simpl in Eq; inversion Eq; subst.
      * exact E.
      * specialize (Hb c (or_introl eq_refl)). lia.
    + apply Z.ltb_ge in E.
      destruct (IH x) as (before & after & Eq & Hb & Ha).
      remember (max_by key x l) as b eqn:Eb. clear Eb IH.
      destruct before as [|c before]; simpl in Eq; inversion Eq; subst.
      * exists [], (y :: after).
        split; [reflexivity|]. split; [simpl; tauto|].
        intros z [<-|Hz]; [exact E|]. apply Ha. exact Hz.
      * exists (c :: y :: before), after.
        split; [reflexivity|]. split; [|exact Ha].
        intros z [Hz|[Hz|Hz]].
        -- apply Hb. left; exact Hz.
        -- subst z. specialize (Hb c (or_introl eq_refl)). lia.
        -- apply Hb. right; exact Hz.
Qed.

Lemma hour_lt_24 (t : datetime) : (hour t < 24)%nat.
Proof.
  unfold hour.
  pose proof (Z.mod_pos_bound (t / 3600000000) 24 ltac:(lia)). lia.
Qed.

Lemma hour_add_present (d : list (nat * Z)) (h : nat) (q : Z) :
  In h (map fst d) ->
  exists d',
    hour_add d h q = Some d' /\ map fst d' = map fst d /\
    forall h', hour_get d' h'
               = if (h =? h')%nat then option_map (fun v => (v + q)%Z) (hour_get d h)
                 else hour_get d h'.
Proof.
  induction d as [|[h0 v] d IH]; simpl; intros Hin; [tauto|].
  destruct (h0 =? h)%nat eqn:E.
  - apply Nat.eqb_eq in E; subst h0.
    eexists. split; [reflexivity|]. split; [reflexivity|].
    intros h'. simpl. destruct (h =? h')%nat; reflexivity.
  - destruct Hin as [Hin|Hin]; [apply Nat.eqb_neq in E; congruence|].
    destruct (IH Hin) as (d' & -> & Hk & Hg).
    eexists. split; [reflexivity|]. split; [simpl; f_equal; exact Hk|].
    intros h'. simpl. rewrite Hg.
    destruct (h0 =? h')%nat eqn:E'; [|reflexivity].
    apply Nat.eqb_eq in E'; subst h'.
    rewrite Nat.eqb_sym, E. reflexivity.
Qed.

Lemma count_hours_from (sales : list sale) :
  forall d,
  map fst d = seq 0 24 ->
  exists d',
    count_hours d sales = Ok d' /\ map fst d' = seq 0 24 /\
    forall h, hour_get d' h
              = option_map (fun v => (v + units_of (sold_at h sales))%Z)
                           (hour_get d h).
Proof.
  induction sales as [|s sales IH]; intros d Hd; cbn [count_hours].
  - exists d. split; [reflexivity|]. split; [exact Hd|].
    intros h. destruct (hour_get d h); simpl; [f_equal; lia|reflexivity].
  - destruct (@hour_add_present d (hour (created_at s)) (quantity s))
      as (d1 & -> & Hk & Hg).
    { rewrite Hd. apply in_seq. pose proof (hour_lt_24 (created_at s)). lia. }
    destruct (IH d1) as (d' & -> & Hk' & Hg'); [congruence|].
    exists d'. split; [reflexivity|]. split; [exact Hk'|].
    intros h. rewrite Hg', Hg. unfold sold_at at 2. simpl.
    fold (sold_at h sales).
    destruct (hour (created_at s) =? h)%nat eqn:E.
    + apply Nat.eqb_eq in E; subst h.
      destruct (hour_get d (hour (created_at s))); simpl; [f_equal; lia|reflexivity].
    + reflexivity.
Qed.

Lemma empty_hours_get (h : nat) :
  (h < 24)%nat -> hour_get empty_hours h = Some 0%Z.
Proof.
  intros H. do 24 (destruct h as [|h]; [reflexivity|]). lia.
Qed.

Lemma count_hours_ok (sales : list sale) :
  exists d,
    count_hours empty_hours sales = Ok d /\ map fst d = seq 0 24 /\
    forall h, (h < 24)%nat -> hour_get d h = Some (units_of (sold_at h sales)).
Proof.
  destruct (@count_hours_from sales empty_hours eq_refl) as (d & E & Hk & Hg).
  exists d. split; [exact E|]. split; [exact Hk|].
  intros h Hh. rewrite Hg, (empty_hours_get Hh). reflexivity.
Qed.

Lemma insert_newest_perm (r : sale) (l : list sale) :
  Permutation (insert_newest r l) (r :: l).
Proof.
  induction l as [|x l IH]; simpl; [reflexivity|].
  destruct (created_at x <=? created_at r)%Z; [reflexivity|].
  rewrite IH. apply perm_swap.
Qed.

Lemma newest_first_perm (sales : list sale) :
  Permutation (newest_first sales) sales.
Proof.
  induction sales as [|s sales IH]; simpl; [constructor|].
  rewrite insert_newest_perm. constructor. exact IH.
Qed.

Lemma insert_newest_sorted (r : sale) (l : list sale) :
  StronglySorted no_older l -> StronglySorted no_older (insert_newest r l).
Proof.
  induction 1 as [|x l Hs IH Hx]; simpl.
  - repeat constructor.
  - destruct (created_at x <=? created_at r)%Z eqn:E.
    + apply Z.leb_le in E. constructor; [constructor; assumption|].
      constructor; [exact E|].
      rewrite Forall_forall in *. intros y Hy. specialize (Hx y Hy).
      unfold no_older in *. lia.
    + apply Z.leb_gt in E. constructor; [exact IH|].
      rewrite Forall_forall in *. intros y Hy.
      apply (Permutation_in _ (insert_newest_perm r l)) in Hy.
      destruct Hy as [<-|Hy]; [unfold no_older; lia|auto].
Qed.

Lemma newest_first_sorted (sales : list sale) :
  StronglySorted no_older (newest_first sales).
Proof.
  induction sales as [|s sales IH]; simpl; [constructor|].
  apply insert_newest_sorted. exact IH.
Qed.

Lemma count_items_nonempty (s0 : sale) (rest : list sale) :
  count_items (s0 :: rest) <> [].
Proof.
  intros E.
  pose proof (count_items_lookup (s0 :: rest) (item_name s0)) as H.
  rewrite E in H. unfold sold_as in H. simpl in H.
  rewrite String.eqb_refl in H. discriminate.
Qed.

End AnalyticsFacts.

(** ** The ledger store *)

Module StoreFacts.
Import Text Py Store.

Lemma with_connection_up (A : Type) (body : M A) (w : world) :
  db_fault w = None ->
  with_connection body w
  = match body (contact Datastore w) with
    | (Ok a, w2) => (Ok a, w2)
    | (Raise e, w2) => (Raise e, with_ledger (ledger w) w2)
    end.
Proof.
  intros H. unfold with_connection, get_db_connection. rewrite H. reflexivity.
Qed.

Lemma with_connection_down (A : Type) (body : M A) (w : world) (e : exn) :
  db_fault w = Some e ->
  with_connection body w = (Raise e, contact Datastore w).
Proof.
  intros H. unfold with_connection, get_db_connection. rewrite H. reflexivity.
Qed.

Lemma insert_desc_perm (r : sale) (l : list sale) :
  Permutation (insert_desc r l) (r :: l).
Proof.
  induction l as [|x l IH]; simpl; [reflexivity|].
  destruct (id x <=? id r)%Z; [reflexivity|].
  rewrite IH. apply perm_swap.
Qed.

Lemma order_by_id_desc_perm (l : list sale) :
  Permutation (order_by_id_desc l) l.
Proof.
  induction l as [|x l IH]; simpl; [constructor|].
  rewrite insert_desc_perm. constructor. exact IH.
Qed.

Lemma insert_desc_sorted (r : sale) (l : list sale) :
  StronglySorted id_no_smaller l -> StronglySorted id_no_smaller (insert_desc r l).
Proof.
  induction 1 as [|x l Hs IH Hx]; simpl.
  - repeat constructor.
  - destruct (id x <=? id r)%Z eqn:E.
    + apply Z.leb_le in E. constructor; [constructor; assumption|].
      constructor; [exact E|].
      rewrite Forall_forall in *. intros y Hy. specialize (Hx y Hy).
      unfold id_no_smaller in *. lia.
    + apply Z.leb_gt in E. constructor; [exact IH|].
      rewrite Forall_forall in *. intros y Hy.
      apply (Permutation_in _ (insert_desc_perm r l)) in Hy.
      destruct Hy as [<-|Hy]; [unfold id_no_smaller; lia|auto].
Qed.

Lemma order_by_id_desc_sorted (l : list sale) :
  StronglySorted id_no_smaller (order_by_id_desc l).
Proof.
  induction l as [|x l IH]; simpl; [constructor|].
  apply insert_desc_sorted. exact IH.
Qed.

(** A row whose id exceeds all others comes first. *)
Lemma order_by_id_desc_newest (r : sale) (l : list sale) :
  Forall (fun x => (id x < id r)%Z) l ->
  order_by_id_desc (l ++ [r]) = r :: order_by_id_desc l.
Proof.
  induction 1 as [|x l Hx Hl IH]; [reflexivity|].
  change (order_by_id_desc ((x :: l) ++ [r]))
    with (insert_desc x (order_by_id_desc (l ++ [r]))).
  rewrite IH. simpl.
  destruct (id r <=? id x)%Z eqn:E; [apply Z.leb_le in E; lia|reflexivity].
Qed.

Lemma filter_no_match (A : Type) (f : A -> bool) (l : list A) :
  (forall x, In x l -> f x = false) ->
  filter f l = [] /\ filter (fun x => negb (f x)) l = l.
Proof.
  induction l as [|x l IH]; simpl; intros H; [auto|].
  rewrite (H x (or_introl eq_refl)). simpl.
  destruct IH as [-> ->]; auto.
Qed.

(** The operations keep [ids_below]. *)
Lemma insert_sale_keeps_ids_below (i q p : value) (w w' : world) (out : result sale) :
  ids_below w -> insert_sale i q p w = (out, w') -> ids_below w'.
Proof.
  unfold insert_sale, with_connection, get_db_connection, ids_below.
  intros Hw H.
  destruct (db_fault w); [inversion H; subst; exact Hw|].
  destruct (column_values i q p) as [[[s n] x]|]; inversion H; subst; simpl.
  - apply Forall_app. split.
    + eapply Forall_impl; [|exact Hw]. simpl. intros; lia.
    + repeat constructor. simpl. lia.
  - exact Hw.
Qed.

Lemma delete_sale_keeps_ids_below (id_matches : string -> result (Z -> bool))
    (v : value) (w w' : world) (out : result deletion) :
  ids_below w -> delete_sale id_matches v w = (out, w') -> ids_below w'.
Proof.
  unfold delete_sale, with_connection, get_db_connection, ids_below.
  intros Hw H.
  destruct (db_fault w); [inversion H; subst; exact Hw|].
  destruct v; try (inversion H; subst; exact Hw).
  destruct (lower s =? "all")%string.
  - inversion H; subst. constructor.
  - destruct (id_matches s) as [matches|e]; [|inversion H; subst; exact Hw].
    destruct (filter (fun r => matches (id r)) (ledger (contact Datastore w)));
      inversion H; subst; simpl; clear H;
      (apply Forall_forall; intros r Hr; apply filter_In in Hr as [Hr _];
       rewrite Forall_forall in Hw; apply Hw; exact Hr).
Qed.

(** [delete_sale] on a string while the datastore answers. *)
Lemma delete_sale_up (id_matches : string -> result (Z -> bool))
    (s : string) (w : world) :
  db_fault w = None ->
  delete_sale id_matches (VStr s) w
  = if (lower s =? "all")%string then
      (Ok (DeletedAll "All sales have been deleted" (List.length (ledger w))),
       with_ledger [] (contact Datastore w))
    else
      match id_matches s with
      | Raise e => (Raise e, contact Datastore w)
      | Ok matches =>
          let kept := filter (fun r => negb (matches (id r))) (ledger w) in
          match filter (fun r => matches (id r)) (ledger w) with
          | row :: _ =>
              (Ok (DeletedOne ("Sale #" ++ s ++ " has been deleted") row),
               with_ledger kept (contact Datastore w))
          | [] =>
              (Ok (NotFound ("No sale found with ID " ++ s)),
               with_ledger kept (contact Datastore w))
          end
      end.
Proof.
  intros Hup. unfold delete_sale. rewrite (@with_connection_up _ _ _ Hup).
  destruct (lower s =? "all")%string; [reflexivity|].
  destruct (id_matches s) as [matches|e]; [|reflexivity].
  cbv zeta. change (ledger (contact Datastore w)) with (ledger w).
  destruct (filter (fun r => matches (id r)) (ledger w)); reflexivity.
Qed.

End StoreFacts.

(** ** The command interpreter *)

Module InterpreterFacts.
Import Text Re Py Store Parser Analytics Api Interpreter StoreFacts AnalyticsFacts.
Local Open Scope string_scope.
Local Open Scope list_scope.

Lemma compute_summary_ok (sales : list sale) :
  exists sm, compute_summary sales = Ok sm.
Proof.
  destruct sales as [|s sales]; [eexists; reflexivity|].
  destruct (count_hours_ok (s :: sales)) as (d & E & _).
  unfold compute_summary. rewrite E. eexists; reflexivity.
Qed.

Section AssistantFacts.

Variable id_matches : string -> result (Z -> bool).
Variable GEMINI_API_KEY : option string.
Variable persona : string.
Variable generate_content : string -> result string.
Variable json_loads : string -> result value.

Let run := run_command id_matches.
Let assistant :=
  ai_assistant id_matches GEMINI_API_KEY persona generate_content json_loads.

Ltac dispatch H :=
  repeat match type of H with
  | (if ?c then _ else _) _ = _ => destruct c eqn:?
  | (let (_, _) := ?x in _) = _ => destruct x as [[?|?] ?] eqn:?
  | match ?x with _ => _ end = _ => destruct x eqn:?
  | (match ?x with _ => _ end) _ = _ => destruct x eqn:?
  end.

Lemma envelope_is_envelope (x : json) (tag : string) (rest : list (string * json)) :
  In tag action_tags -> is_envelope (envelope x tag rest).
Proof.
  intros H. split; [reflexivity|]. split; [reflexivity|].
  exists tag. split; [reflexivity|exact H].
Qed.

Lemma run_command_envelope (response_data : value) (w w' : world) (r : response) :
  run response_data w = (Ok r, w') -> is_envelope r.
Proof.
  unfold run, run_command. intros H.
  destruct response_data; try discriminate.
  cbv [bind lift ret get get_default] in H. cbv beta iota in H.
  dispatch H; inversion H; subst;
    apply envelope_is_envelope; simpl; tauto.
Qed.

Lemma nonempty_truthy (text : string) :
  text <> "" -> negb (truthy (VStr text)) = false.
Proof.
  intros H. simpl. apply String.eqb_neq in H. rewrite H. reflexivity.
Qed.

(** With a credential and a non-empty text, the endpoint is the model call
    and the dispatch inside the two handlers. *)
Lemma ai_assistant_asks (request_json : value) (text : string) (w : world) :
  key_configured GEMINI_API_KEY = true ->
  get request_json "user_text" = Ok (VStr text) -> text <> "" ->
  assistant request_json w
  = try_except
      (reply <- ask_model generate_content ((persona ++ text) ++ newline) ;;
       match search fence_pattern (list_ascii_of_string (strip reply)) with
       | Some json_match =>
           try_except_json
             (response_data <-
                lift (json_loads
                        (strip (string_of_list_ascii (group_text json_match 1)))) ;;
              run response_data)
             (fun e => ret (parse_failure (exn_str e)))
       | None => ret (envelope (JText (strip reply)) "chat" [])
       end)
      (fun e => ret (error_response e)) w.
Proof.
  intros Hkey Hget Htext. unfold assistant, ai_assistant.
  unfold bind at 1. unfold lift at 1. rewrite Hget.
  rewrite (nonempty_truthy Htext), Hkey. reflexivity.
Qed.

Lemma insert_sale_down (i q p : value) (w : world) (e : exn) :
  db_fault w = Some e -> insert_sale i q p w = (Raise e, contact Datastore w).
Proof. intros H. unfold insert_sale. apply with_connection_down. exact H. Qed.

Lemma fetch_sales_down (w : world) (e : exn) :
  db_fault w = Some e -> fetch_sales w = (Raise e, contact Datastore w).
Proof. intros H. unfold fetch_sales. apply with_connection_down. exact H. Qed.

Lemma delete_sale_down (v : value) (w : world) (e : exn) :
  db_fault w = Some e ->
  delete_sale id_matches v w = (Raise e, contact Datastore w).
Proof. intros H. unfold delete_sale. apply with_connection_down. exact H. Qed.

(** While the datastore fails, a command either leaves it alone or ends in
    the datastore's exception. *)
Lemma run_command_down (response_data : value) (w w' : world) (e : exn)
    (out : result response) :
  db_fault w = Some e ->
  run response_data w = (out, w') ->
  w' = w \/ (out = Raise e /\ w' = contact Datastore w).
Proof.
  unfold run, run_command. intros Hdown H.
  destruct response_data; try (inversion H; subst; auto; fail).
  cbv [bind lift ret get get_default] in H. cbv beta iota in H.
  repeat match type of H with
  | (if ?c then _ else _) _ = _ => destruct c eqn:?
  | context [insert_sale ?i ?q ?p w] =>
      rewrite (@insert_sale_down i q p w e Hdown) in H
  | context [fetch_sales w] => rewrite (@fetch_sales_down w e Hdown) in H
  | context [delete_sale id_matches ?v w] =>
      rewrite (@delete_sale_down v w e Hdown) in H
  end; inversion H; subst; auto.
Qed.

Lemma ai_assistant_runs (request_json : value) (text : string)
    (response_data : value) (w : world) :
  key_configured GEMINI_API_KEY = true ->
  get request_json "user_text" = Ok (VStr text) -> text <> "" ->
  commands persona generate_content json_loads text response_data ->
  assistant request_json w
  = try_except
      (try_except_json (run response_data)
                       (fun e => ret (parse_failure (exn_str e))))
      (fun e => ret (error_response e))
      (contact LanguageModel w).
Proof.
  intros Hkey Hget Htext (reply & g & Hgen & Hsearch & Hjl).
  rewrite (@ai_assistant_asks request_json text w Hkey Hget Htext).
  unfold try_except, bind at 1, ask_model. rewrite Hgen, Hsearch.
  unfold try_except_json, bind, lift. rewrite Hjl. reflexivity.
Qed.

(** The [remove_sale] branch of the dispatch. *)
Lemma run_command_remove (response_data sale_id confirmed : value) (w : world) :
  get response_data "action" = Ok (VStr "remove_sale") ->
  get response_data "sale_id" = Ok sale_id ->
  get response_data "confirmed" = Ok confirmed ->
  run response_data w
  = (if negb (truthy sale_id) then ret missing_id_response
     else if eq_str sale_id "all" && negb (truthy confirmed)
          then ret confirmation_request
          else
            result <- delete_sale id_matches sale_id ;;
            match result with
            | NotFound error =>
                ret (envelope (JText (glyph_failed ++ " " ++ error)%string)
                              "error" [])
            | DeletedAll message _ | DeletedOne message _ =>
                ret (envelope (JText (glyph_done ++ " " ++ message)%string)
                              "sale_deleted" [("result", JDeletion result)])
            end) w.
Proof.
  intros Ha Hs Hc. unfold run, run_command.
  unfold bind at 1. unfold lift at 1. rewrite Ha.
  change (eq_str (VStr "remove_sale") "add_sale") with false.
  change (eq_str (VStr "remove_sale") "get_summary") with false.
  change (eq_str (VStr "remove_sale") "remove_sale") with true.
  cbv beta iota.
  unfold bind at 1. unfold lift at 1. rewrite Hs.
  destruct (negb (truthy sale_id)); [reflexivity|].
  unfold bind at 1. unfold lift at 1. rewrite Hc.
  reflexivity.
Qed.

End AssistantFacts.
Lemma get_total (v x : value) (k k' : string) :
  get v k = Ok x -> exists y, get v k' = Ok y.
Proof.
  destruct v; try discriminate. intros _. eexists. reflexivity.
Qed.

(** On anything but a string [delete_sale] raises, whatever the datastore
    does, and removes nothing. *)
Lemma delete_sale_not_str (id_matches : string -> result (Z -> bool)) (v : value) (w : world) :
  is_str v = false ->
  exists e w',
    delete_sale id_matches v w = (Raise e, w') /\
    ledger w' = ledger w /\
    contacted w' = Datastore :: contacted w /\
    db_fault w' = db_fault w /\
    (db_fault w = None -> e = no_attribute v "lower").
Proof.
  intros Hv.
  assert (E : delete_sale id_matches v
              = with_connection (raise (no_attribute v "lower"))).
  { destruct v; try reflexivity. discriminate. }
  rewrite E. unfold with_connection, get_db_connection, raise.
  destruct (db_fault w) as [e|] eqn:Hf.
  - exists e, (contact Datastore w). simpl. repeat split; auto. discriminate.
  - eexists. eexists. split; [reflexivity|]. simpl. repeat split; auto.
Qed.

End InterpreterFacts.

(* ================================================================== *)
(** * The claims *)

Import Text Re Py Store Parser Analytics Api Interpreter Sample.
Import ReFacts ReMore ParserFacts AnalyticsFacts StoreFacts InterpreterFacts.

(** C1.  A [remove_sale] command whose [sale_id] spells "all" in any mix of
    cases, with [confirmed] not truthy.  The gate compares [sale_id] with the
    exact string "all": for that spelling nothing is deleted and the
    confirmation request is returned (the datastore is not even contacted, so
    repeating the command gives the same answer).  For every other spelling
    ("ALL", "All", ...) the gate is passed, [delete_sale] lower-cases the
    identifier and removes every record, and the answer is [sale_deleted]. *)
Theorem unconfirmed_delete_all_gate :
  forall (id_matches : string -> result (Z -> bool)) (GEMINI_API_KEY : option string)
         (persona : string) (generate_content : string -> result string)
         (json_loads : string -> result value)
         (request_json : value) (text : string)
         (response_data confirmed : value) (sale_id : string) (w : world),
  key_configured GEMINI_API_KEY = true ->
  get request_json "user_text" = Ok (VStr text) ->
  text <> "" ->
  commands persona generate_content json_loads text response_data ->
  get response_data "action" = Ok (VStr "remove_sale") ->
  get response_data "sale_id" = Ok (VStr sale_id) ->
  get response_data "confirmed" = Ok confirmed ->
  truthy confirmed = false ->
  lower sale_id = "all" ->
  let answer :=
    ai_assistant id_matches GEMINI_API_KEY persona generate_content json_loads
                 request_json w in
  (sale_id = "all" ->
   answer = (Ok confirmation_request, contact LanguageModel w)) /\
  (sale_id <> "all" -> db_fault w = None ->
   exists w',
     answer = (Ok (deleted_all_response (List.length (ledger w))), w') /\
     ledger w' = []).
Proof.
  intros idm key persona gen jl req text cmd confirmed sid w
         Hkey Hget Htext Hcmd Haction Hsid Hconf Hfalsy Hall answer.
  assert (Hne : sid <> "").
  { intros ->. vm_compute in Hall. discriminate. }
  unfold answer.
  rewrite (@ai_assistant_runs idm key persona gen jl req text cmd w
             Hkey Hget Htext Hcmd).
  unfold try_except, try_except_json.
  rewrite (@run_command_remove idm cmd (VStr sid) confirmed _ Haction Hsid Hconf).
  rewrite (nonempty_truthy Hne), Hfalsy. simpl negb. rewrite andb_true_r.
  split.
  - intros ->. reflexivity.
  - intros Hcase Hup. apply String.eqb_neq in Hcase.
    unfold eq_str. rewrite Hcase.
    unfold bind, delete_sale.
    rewrite with_connection_up by exact Hup.
    rewrite Hall. simpl. eexists. split; reflexivity.
Qed.

(** The unconfirmed command with [sale_id] "ALL" empties a two-record ledger. *)
Lemma unconfirmed_delete_all_gate_witness :
  exists w',
    ai_assistant decimal_id (Some "key") "You are Laku. User: "
                 (model_saying (fenced delete_all_text))
                 (decoding delete_all_text (remove_command (VStr "ALL")))
                 (request "delete everything") two_sales
      = (Ok (deleted_all_response 2), w') /\
    ledger w' = [].
Proof.
  refine (proj2 (@unconfirmed_delete_all_gate decimal_id (Some "key")
                   "You are Laku. User: "
                   (model_saying (fenced delete_all_text))
                   (decoding delete_all_text (remove_command (VStr "ALL")))
                   (request "delete everything") "delete everything"
                   (remove_command (VStr "ALL")) VNone "ALL" two_sales
                   _ _ _ _ _ _ _ _ _) _ _).
  - reflexivity.
  - reflexivity.
  - discriminate.
  - eexists. eexists. split; [reflexivity|].
    split; [vm_compute; reflexivity|vm_compute; reflexivity].
  - reflexivity.
  - reflexivity.
  - reflexivity.
  - reflexivity.
  - reflexivity.
  - discriminate.
  - reflexivity.
Defined.

(** C2 (amended).  A request whose text is missing, empty or otherwise falsy
    is answered with status 400 and the body [{"error": "No input"}],
    whether or not a credential is configured; a truthy text without a
    credential is answered with the fallback body, which holds an
    [ai_response] and no [action].  With a credential configured and a
    non-empty text message, the endpoint always returns, with status 200, an
    envelope that holds an [ai_response] and an [action] tag, whatever the
    model replies, the decoder returns and the datastore does: no exception
    reaches the boundary.  An exception of the model gives the [error]
    envelope with its message, malformed JSON in a fenced block gives the
    [error] envelope with the decoder's diagnostic, a reply without a fenced
    block is passed through as [chat], and a command that reaches a failing
    datastore gives an [error] envelope. *)
Theorem ai_assistant_uniform_envelope :
  forall (id_matches : string -> result (Z -> bool)) (GEMINI_API_KEY : option string)
         (persona : string) (generate_content : string -> result string)
         (json_loads : string -> result value)
         (request_json user_text : value) (w : world),
  get request_json "user_text" = Ok user_text ->
  (truthy user_text = false ->
   ai_assistant id_matches GEMINI_API_KEY persona generate_content json_loads
                request_json w = (Ok no_input_response, w)) /\
  (truthy user_text = true -> key_configured GEMINI_API_KEY = false ->
   ai_assistant id_matches GEMINI_API_KEY persona generate_content json_loads
                request_json w = (Ok fallback_response, w)) /\
  (forall text : string,
   user_text = VStr text -> text <> "" -> key_configured GEMINI_API_KEY = true ->
   exists r w',
    ai_assistant id_matches GEMINI_API_KEY persona generate_content json_loads
                 request_json w = (Ok r, w') /\
    is_envelope r /\
    (forall e,
       generate_content ((persona ++ text) ++ newline)%string = Raise e ->
       r = error_response e /\ w' = contact LanguageModel w) /\
    (forall reply json_match diagnostic,
       generate_content ((persona ++ text) ++ newline)%string = Ok reply ->
       search fence_pattern (list_ascii_of_string (strip reply)) = Some json_match ->
       json_loads (strip (string_of_list_ascii (group_text json_match 1)))
         = Raise (Exn JSONDecodeError diagnostic) ->
       r = parse_failure diagnostic /\ w' = contact LanguageModel w) /\
    (forall reply,
       generate_content ((persona ++ text) ++ newline)%string = Ok reply ->
       search fence_pattern (list_ascii_of_string (strip reply)) = None ->
       r = envelope (JText (strip reply)) "chat" [] /\
       w' = contact LanguageModel w) /\
    (forall e,
       db_fault w = Some e -> hd_error (contacted w') = Some Datastore ->
       action_of r = Some (JText "error"))).
Proof.
  intros id_matches key persona gen jl req user_text w Hget0.
  split.
  { intros Hfalsy. unfold ai_assistant, bind, lift. rewrite Hget0, Hfalsy.
    reflexivity. }
  split.
  { intros Htruthy Hkey. unfold ai_assistant, bind, lift.
    rewrite Hget0, Htruthy, Hkey. reflexivity. }
  intros text Etext Htext Hkey.
  assert (Hget : get req "user_text" = Ok (VStr text)) by (rewrite Hget0, Etext; reflexivity).
  clear Hget0 Etext user_text.
  rewrite (@ai_assistant_asks id_matches key persona gen jl req text w Hkey Hget Htext).
  unfold try_except, bind at 1, ask_model.
  destruct (gen ((persona ++ text) ++ newline)%string) as [reply|e0] eqn:Hgen.
  2:{ exists (error_response e0), (contact LanguageModel w).
      split; [reflexivity|].
      split; [apply envelope_is_envelope; simpl; tauto|].
      split; [intros e He; inversion He; subst; auto|].
      split; [intros; discriminate|].
      split; [intros; discriminate|].
      intros; reflexivity. }
  destruct (search fence_pattern (list_ascii_of_string (strip reply)))
    as [g|] eqn:Hsearch.
  2:{ exists (envelope (JText (strip reply)) "chat" []), (contact LanguageModel w).
      split; [reflexivity|].
      split; [apply envelope_is_envelope; simpl; tauto|].
      split; [intros; discriminate|].
      split; [intros reply0 g0 diag H1 H2 H3; inversion H1; subst; congruence|].
      split; [intros r0 Hr0; inversion Hr0; subst; auto|].
      intros e _ Hhd. simpl in Hhd. discriminate. }
  unfold try_except_json, bind, lift.
  destruct (jl (strip (string_of_list_ascii (group_text g 1)))) as [d|e1] eqn:Hjl.
  - destruct (run_command id_matches d (contact LanguageModel w))
      as [[r|e2] w2] eqn:Hrun.
    + exists r, w2. split; [reflexivity|].
      split; [eapply run_command_envelope; exact Hrun|].
      split; [intros; discriminate|].
      split; [intros reply0 g0 diag H1 H2 H3; inversion H1; subst;
              rewrite H2 in Hsearch; inversion Hsearch; subst; congruence|].
      split; [intros reply0 H1 H2; inversion H1; subst; congruence|].
      intros e Hdown Hhd.
      destruct (@run_command_down id_matches d (contact LanguageModel w) w2 e
                  (Ok r) Hdown Hrun) as [->|[Hr _]]; [|discriminate].
      simpl in Hhd. discriminate.
    + assert (Hcases :
        exists r,
          (let (r0, w0) :=
             match e2 with
             | Exn JSONDecodeError msg =>
                 ret (parse_failure (exn_str (Exn JSONDecodeError msg))) w2
             | _ => (Raise e2, w2)
             end in
           match r0 with
           | Ok a => (Ok a, w0)
           | Raise e => ret (error_response e) w0
           end) = (Ok r, w2) /\
          is_envelope r /\ action_of r = Some (JText "error")).
      { destruct e2 as [[] msg]; eexists;
          (split; [reflexivity|]);
          (split; [apply envelope_is_envelope; simpl; tauto|reflexivity]). }
      destruct Hcases as (r & Hr & Henv & Hact).
      exists r, w2. split; [destruct e2 as [[] msg]; exact Hr|].
      split; [exact Henv|].
      split; [intros; discriminate|].
      split; [intros reply0 g0 diag H1 H2 H3; inversion H1; subst;
              rewrite H2 in Hsearch; inversion Hsearch; subst; congruence|].
      split; [intros reply0 H1 H2; inversion H1; subst; congruence|].
      intros; exact Hact.
  - assert (Hcases :
      exists r,
        (let (r0, w0) :=
           match e1 with
           | Exn JSONDecodeError msg =>
               ret (parse_failure (exn_str (Exn JSONDecodeError msg)))
                   (contact LanguageModel w)
           | _ => (Raise e1, contact LanguageModel w)
           end in
         match r0 with
         | Ok a => (Ok a, w0)
         | Raise e => ret (error_response e) w0
         end) = (Ok r, contact LanguageModel w) /\
        is_envelope r /\
        (forall diag, e1 = Exn JSONDecodeError diag -> r = parse_failure diag)).
    { destruct e1 as [[] msg]; eexists;
        (split; [reflexivity|]);
        (split; [apply envelope_is_envelope; simpl; tauto|]);
        intros diag Hd; inversion Hd; subst; reflexivity. }
    destruct Hcases as (r & Hr & Henv & Hdiag).
    exists r, (contact LanguageModel w).
    split; [destruct e1 as [[] msg]; exact Hr|].
    split; [exact Henv|].
    split; [intros; discriminate|].
    split.
    { intros reply0 g0 diag H1 H2 H3. inversion H1; subst.
      rewrite H2 in Hsearch. inversion Hsearch; subst.
      rewrite H3 in Hjl. inversion Hjl; subst. split; [apply Hdiag|]; reflexivity. }
    split; [intros reply0 H1 H2; inversion H1; subst; congruence|].
    intros e _ Hhd. simpl in Hhd. discriminate.
Qed.

(** A reply whose fenced block is not JSON. *)
Lemma ai_assistant_uniform_envelope_witness :
  exists r w',
    ai_assistant decimal_id (Some "key") "You are Laku. User: "
                 (model_saying (fenced "{oops"))
                 (decoding delete_all_text (remove_command (VStr "ALL")))
                 (request "hello") two_sales = (Ok r, w') /\
    is_envelope r /\
    r = parse_failure "Expecting value: line 1 column 1 (char 0)".
Proof.
  destruct (@ai_assistant_uniform_envelope decimal_id (Some "key")
              "You are Laku. User: " (model_saying (fenced "{oops"))
              (decoding delete_all_text (remove_command (VStr "ALL")))
              (request "hello") (VStr "hello") two_sales eq_refl)
    as (_ & _ & Hrun).
  destruct (Hrun "hello" eq_refl ltac:(discriminate) eq_refl)
    as (r & w' & Hr & Henv & _ & Hparse & _).
  exists r, w'. split; [exact Hr|]. split; [exact Henv|].
  eapply Hparse; [reflexivity|vm_compute; reflexivity|reflexivity].
Defined.

(** C2 as stated fails on the fallback without a credential: its body holds
    an [ai_response] and no [action]. *)
Lemma fallback_envelope_lacks_action :
  ai_assistant decimal_id None "You are Laku. User: "
               (model_saying (fenced delete_all_text))
               (decoding delete_all_text (remove_command (VStr "ALL")))
               (request "hello") two_sales
  = (Ok fallback_response, two_sales) /\
  has_key fallback_response "ai_response" = true /\
  has_key fallback_response "action" = false.
Proof.
  split; [reflexivity|]. split; reflexivity.
Qed.

(** C3 (amended).  [parse_sales_input] lower-cases the text and searches it
    once for an integer token, whitespace, a word token, any text without a
    newline, an optional dollar sign and a decimal token.  On
    "Sold 3 eggs for $5" it returns ("eggs", 3, 5.0); on "no numbers here" it
    returns three [None].  On every ASCII text it returns three [None],
    exactly when the text has no such shape, or else it reads the leftmost
    occurrence of the shape, with the longest item that occurrence allows,
    and returns the item, the value of the integer and the [float] nearest to
    the decimal, all three, unless the integer has more digits than [int]
    converts, in which case [ValueError] is raised: never some components
    only.  A text without the tokens in that order, with anything at all
    between the integer and the word, gives three [None]. *)
Theorem parse_sales_input_scan :
  parse_sales_input (VStr "Sold 3 eggs for $5")
    = Ok (VStr "eggs", VInt 3, VFloat (inject_Z 5)) /\
  parse_sales_input (VStr "no numbers here") = Ok (VNone, VNone, VNone) /\
  (forall text : string,
     ascii_text text ->
     let s := list_ascii_of_string (lower text) in
     (parse_sales_input (VStr text) = Ok (VNone, VNone, VNone) /\
      forall qty item prc, ~ sale_shape s qty item prc)
     \/
     (exists pre qty item prc price,
        sale_shape_at s pre qty item prc /\
        (forall pre' qty' item' prc',
           sale_shape_at s pre' qty' item' prc' ->
           (List.length pre <= List.length pre')%nat) /\
        (forall qty' item' prc',
           sale_shape_at s pre qty' item' prc' ->
           qty' = qty /\ (List.length item' <= List.length item)%nat) /\
        decimal_value prc = Some price /\
        ((List.length qty <= int_max_str_digits)%nat /\
         parse_sales_input (VStr text)
           = Ok (VStr (string_of_list_ascii item), VInt (digits_value qty),
                 value_of_float (float_nearest price))
         \/
         (int_max_str_digits < List.length qty)%nat /\
         parse_sales_input (VStr text) = Raise (too_many_digits qty)))) /\
  (forall text : string,
     ascii_text text ->
     ~ loosely_sale_shaped (list_ascii_of_string (lower text)) ->
     parse_sales_input (VStr text) = Ok (VNone, VNone, VNone)).
Proof.
  split; [vm_compute; reflexivity|]. split; [vm_compute; reflexivity|].
  split.
  - intros text _ s.
    destruct (parse_sales_input_cases text)
      as [H|(pre & qty & item & prc & price & Hshape & Hleft & Hlong & Hval & _ & Hrun)];
      [left; exact H|right].
    exists pre, qty, item, prc, price.
    split; [exact Hshape|]. split; [exact Hleft|]. split; [exact Hlong|].
    split; [exact Hval|].
    destruct (Nat.leb_spec (List.length qty) int_max_str_digits) as [Hlen|Hlen];
      [left|right]; (split; [exact Hlen|exact Hrun]).
  - intros text _ Hloose.
    destruct (parse_sales_input_cases text)
      as [[Hparse _]|(pre & qty & item & prc & price & Hshape & _)];
      [exact Hparse|].
    exfalso. apply Hloose.
    destruct Hshape as (ws & mid & cur & post & E & Hq & Hw & Hi & Hm & Hc & Hp).
    exists pre, qty, ws, item, mid, cur, prc, post. auto.
Qed.

(** C3 as stated fails where the integer and the word are not separated by
    whitespace alone: "3, eggs for $5" holds an integer token, later a word
    token and later a price, and is not parsed; and in "5kg 3 eggs $4" it is
    not the first integer token that is read. *)
Lemma integer_then_comma_is_not_a_sale :
  loosely_sale_shaped (list_ascii_of_string (lower "3, eggs for $5")) /\
  parse_sales_input (VStr "3, eggs for $5") = Ok (VNone, VNone, VNone) /\
  parse_sales_input (VStr "5kg 3 eggs $4")
    = Ok (VStr "eggs", VInt 3, VFloat (inject_Z 4)).
Proof.
  split.
  { exists [], (list_ascii_of_string "3"), (list_ascii_of_string ", "),
           (list_ascii_of_string "eggs"), (list_ascii_of_string " for "),
           (list_ascii_of_string "$"), (list_ascii_of_string "5"), [].
    split; [reflexivity|].
    split; [split; [discriminate|reflexivity]|].
    split; [split; [discriminate|reflexivity]|].
    split; [right; reflexivity|].
    exists (list_ascii_of_string "5"), [].
    split; [split; [discriminate|reflexivity]|].
    split; [reflexivity|left; reflexivity]. }
  split; vm_compute; reflexivity.
Qed.

(** C4.  On the empty collection [compute_summary] returns revenue 0, count 0,
    average 0 (no division takes place), no best-selling item with quantity
    0, empty [items_sold] and [recent_sales], and [hourly_sales] with exactly
    the keys 0..23, each mapped to 0. *)
Theorem compute_summary_empty :
  compute_summary []
    = Ok (Summary (inject_Z 0) 0 (inject_Z 0) None 0 []
                  (map (fun h => (h, 0%Z)) (seq 0 24)) []) /\
  exists sm,
    compute_summary [] = Ok sm /\
    total_revenue sm == 0 /\ total_sales_count sm = 0%Z /\
    avg_order_value sm == 0 /\
    best_selling_item sm = None /\ best_selling_quantity sm = 0%Z /\
    items_sold sm = [] /\ recent_sales sm = [] /\
    map fst (hourly_sales sm) = seq 0 24 /\
    Forall (fun entry => snd entry = 0%Z) (hourly_sales sm).
Proof.
  split; [reflexivity|].
  eexists. split; [reflexivity|]. simpl.
  repeat split; try reflexivity.
  repeat constructor.
Qed.

(** C5 (amended).  On a non-empty collection [compute_summary] returns the
    sum of quantity times price, accumulated from the left in [Decimal]
    arithmetic (every product and every partial sum rounded to 28 significant
    digits), the sum of quantities (exact), the revenue divided by the number
    of records in [Decimal] arithmetic (the quotient rounded to 28
    significant digits), per item name the sum of its quantities, as best
    seller the first entry of [items_sold] with the largest quantity, per
    hour 0..23 the sum of the quantities of the records created in that
    hour, and the five newest records, newest first.  On the three-record
    example: revenue 13, count 6, average 4.333333333333333333333333333,
    best seller "eggs" with 5, 5 units at hour 10 and 1 at hour 14, and the
    recent sales in the order 14:00, 10:30, 10:00. *)
Theorem compute_summary_aggregates :
  (forall (first : sale) (rest : list sale),
     let sales := first :: rest in
     exists sm,
       compute_summary sales = Ok sm /\
       total_revenue sm
         = fold_left
             (fun acc s => decimal (acc + decimal (inject_Z (quantity s) * price s)))
             sales (inject_Z 0) /\
       total_sales_count sm = units_of sales /\
       avg_order_value sm
         = decimal (total_revenue sm / inject_Z (Z.of_nat (List.length sales))) /\
       (forall name,
          lookup (items_sold sm) name
          = match sold_as name sales with
            | [] => None
            | l => Some (units_of l)
            end) /\
       (exists best before after,
          best_selling_item sm = Some best /\
          items_sold sm = before ++ (best, best_selling_quantity sm) :: after /\
          (forall e, In e before -> (snd e < best_selling_quantity sm)%Z) /\
          (forall e, In e after -> (snd e <= best_selling_quantity sm)%Z)) /\
       map fst (hourly_sales sm) = seq 0 24 /\
       (forall h, (h < 24)%nat ->
          hour_get (hourly_sales sm) h = Some (units_of (sold_at h sales))) /\
       (exists sorted,
          Permutation sorted sales /\ StronglySorted no_older sorted /\
          recent_sales sm = map recent_of (firstn 5 sorted)) /\
       (List.length (recent_sales sm) <= 5)%nat) /\
  (forall id1 id2 id3 : Z,
     exists sm,
       compute_summary
         [Sale id1 "eggs" 3 (2 # 1) (clock 10 0);
          Sale id2 "eggs" 2 (2 # 1) (clock 10 30);
          Sale id3 "milk" 1 (3 # 1) (clock 14 0)] = Ok sm /\
       total_revenue sm = 13 # 1 /\ total_sales_count sm = 6%Z /\
       avg_order_value sm
         = 4333333333333333333333333333 # 1000000000000000000000000000 /\
       best_selling_item sm = Some "eggs"%string /\
       best_selling_quantity sm = 5%Z /\
       hour_get (hourly_sales sm) 10 = Some 5%Z /\
       hour_get (hourly_sales sm) 14 = Some 1%Z /\
       map recent_time (recent_sales sm) = ["14:00"; "10:30"; "10:00"]%string).
Proof.
  split.
  - intros first rest sales.
    destruct (count_hours_ok sales) as (hours & Eh & Hkeys & Hget).
    unfold compute_summary. fold sales.
    change (match sales with [] => ?a | _ :: _ => ?b end) with b.
    rewrite Eh. eexists. split; [reflexivity|]. cbn [total_revenue
      total_sales_count avg_order_value items_sold best_selling_item
      best_selling_quantity hourly_sales recent_sales].
    split; [reflexivity|].
    split; [apply sum_Z_units|].
    split; [reflexivity|].
    split; [apply count_items_lookup|].
    split.
    { pose proof (@count_items_nonempty first rest) as Hne. fold sales in Hne.
      unfold best_item. destruct (count_items sales) as [|x l]; [congruence|].
      destruct (max_by_first snd l x) as (before & after & E & Hb & Ha).
      cbn [fst snd].
      exists (fst (max_by snd x l)), before, after.
      split; [reflexivity|].
      rewrite <- surjective_pairing. auto. }
    split; [exact Hkeys|].
    split; [exact Hget|].
    split.
    { exists (newest_first sales).
      split; [apply newest_first_perm|].
      split; [apply newest_first_sorted|reflexivity]. }
    rewrite length_map, length_firstn. lia.
  - intros id1 id2 id3. eexists. split; [reflexivity|].
    repeat split; vm_compute; reflexivity.
Qed.

(** C5 as stated fails on its own example: the average is the quotient
    rounded to 28 significant digits, which is not 13/3. *)
Lemma average_is_rounded :
  exists sm,
    compute_summary
      [Sale 1 "eggs" 3 (2 # 1) (clock 10 0);
       Sale 2 "eggs" 2 (2 # 1) (clock 10 30);
       Sale 3 "milk" 1 (3 # 1) (clock 14 0)] = Ok sm /\
    total_revenue sm = 13 # 1 /\
    avg_order_value sm
      = 4333333333333333333333333333 # 1000000000000000000000000000 /\
    ~ avg_order_value sm == (13 # 1) / inject_Z 3.
Proof.
  eexists. split; [reflexivity|].
  split; [vm_compute; reflexivity|]. split; [vm_compute; reflexivity|].
  vm_compute. discriminate.
Qed.

(** C6 (amended).  While the datastore answers, [delete_sale] on an
    identifier that is not "all" in any spelling.  When the datastore reads
    the identifier as an id and it matches no record's id, the not-found
    result is returned without raising, the ledger is as it was, and the
    route answers with status 404 and an error body.  When the datastore
    cannot read the identifier as an id, the statement raises: [delete_sale]
    raises that exception, the ledger is as it was, and the route answers
    with status 500 and the text of the exception. *)
Theorem delete_unknown_id_not_found :
  forall (id_matches : string -> result (Z -> bool)) (sale_id : string) (w : world),
  lower sale_id <> "all" ->
  db_fault w = None ->
  (forall matches : Z -> bool,
     id_matches sale_id = Ok matches ->
     (forall r, In r (ledger w) -> matches (id r) = false) ->
     (exists w',
        delete_sale id_matches (VStr sale_id) w
          = (Ok (NotFound ("No sale found with ID " ++ sale_id)%string), w') /\
        ledger w' = ledger w) /\
     (exists w',
        delete_sale_route id_matches sale_id w
          = (Ok (Response [("status", JText "error");
                           ("message",
                            JText ("No sale found with ID " ++ sale_id)%string)]
                          404), w') /\
        ledger w' = ledger w)) /\
  (forall e : exn,
     id_matches sale_id = Raise e ->
     (exists w',
        delete_sale id_matches (VStr sale_id) w = (Raise e, w') /\
        ledger w' = ledger w) /\
     (exists w',
        delete_sale_route id_matches sale_id w
          = (Ok (Response [("status", JText "error");
                           ("message", JText (exn_str e))] 500), w') /\
        ledger w' = ledger w)).
Proof.
  intros id_matches sale_id w Hall Hup.
  apply String.eqb_neq in Hall.
  assert (E := @delete_sale_up id_matches sale_id w Hup). rewrite Hall in E.
  split.
  - intros matches Hread Hnone. rewrite Hread in E. cbv zeta in E.
    destruct (@filter_no_match _ (fun r => matches (id r)) (ledger w) Hnone)
      as [E1 E2].
    rewrite E1, E2 in E.
    split.
    + eexists. split; [exact E|reflexivity].
    + unfold delete_sale_route, try_except, bind. rewrite E.
      eexists. split; reflexivity.
  - intros e Hread. rewrite Hread in E.
    split.
    + eexists. split; [exact E|reflexivity].
    + unfold delete_sale_route, try_except, bind. rewrite E.
      eexists. split; reflexivity.
Qed.

(** Identifier "7" on a ledger that holds ids 1 and 2. *)
Lemma delete_unknown_id_not_found_witness :
  (exists w',
     delete_sale decimal_id (VStr "7") two_sales
       = (Ok (NotFound "No sale found with ID 7"), w') /\
     ledger w' = ledger two_sales) /\
  (exists w',
     delete_sale_route decimal_id "7" two_sales
       = (Ok (Response [("status", JText "error");
                        ("message", JText "No sale found with ID 7")] 404), w') /\
     ledger w' = ledger two_sales).
Proof.
  apply (proj1 (@delete_unknown_id_not_found decimal_id "7" two_sales
                  ltac:(vm_compute; discriminate) eq_refl)
               (Z.eqb 7) eq_refl).
  intros r [<-|[<-|[]]]; reflexivity.
Defined.

(** C6 as stated fails on an identifier that is no number: it matches no
    record's id, and a datastore with an integer [id] column refuses it, so
    that [delete_sale] raises and the route answers with status 500. *)
Lemma text_id_is_a_datastore_error :
  lower "abc" <> "all" /\
  fst (delete_sale decimal_id (VStr "abc") two_sales)
    = Raise (Exn DatabaseError
                 ("invalid input syntax for type integer: "
                  ++ String (ascii_of_nat 34) "abc" ++ String (ascii_of_nat 34) "")) /\
  delete_sale_route decimal_id "abc" two_sales
    = (Ok (Response
             [("status", JText "error");
              ("message",
               JText ("invalid input syntax for type integer: "
                      ++ String (ascii_of_nat 34) "abc"
                      ++ String (ascii_of_nat 34) ""))] 500),
       contact Datastore two_sales) /\
  ledger (contact Datastore two_sales) = ledger two_sales.
Proof.
  split; [vm_compute; discriminate|].
  split; [vm_compute; reflexivity|].
  split; [vm_compute; reflexivity|reflexivity].
Qed.

(** C7 (amended).  Without a credential, every request whose text is truthy
    is answered with the fixed fallback response, and every request whose
    text is missing, empty or otherwise falsy with the 400 "No input" error,
    the check that comes first; either way the outside world is left exactly
    as it was: neither the model nor the datastore is contacted, whatever
    they would have answered. *)
Theorem ai_assistant_without_credential :
  forall (id_matches : string -> result (Z -> bool)) (GEMINI_API_KEY : option string)
         (persona : string) (generate_content : string -> result string)
         (json_loads : string -> result value)
         (request_json user_text : value) (w : world),
  key_configured GEMINI_API_KEY = false ->
  get request_json "user_text" = Ok user_text ->
  ai_assistant id_matches GEMINI_API_KEY persona generate_content json_loads
               request_json w
  = (Ok (if truthy user_text then fallback_response else no_input_response), w).
Proof.
  intros idm key persona gen jl req user_text w Hkey Hget.
  unfold ai_assistant, bind, lift. rewrite Hget.
  destruct (truthy user_text); [rewrite Hkey|]; reflexivity.
Qed.

(** A request that would otherwise delete everything. *)
Lemma ai_assistant_without_credential_witness :
  ai_assistant decimal_id None "You are Laku. User: "
               (model_saying (fenced delete_all_text))
               (decoding delete_all_text (remove_command (VStr "ALL")))
               (request "delete everything") two_sales
  = (Ok fallback_response, two_sales).
Proof.
  apply (@ai_assistant_without_credential decimal_id None "You are Laku. User: "
           (model_saying (fenced delete_all_text))
           (decoding delete_all_text (remove_command (VStr "ALL")))
           (request "delete everything") (VStr "delete everything") two_sales).
  - reflexivity.
  - reflexivity.
Defined.

(** C7 as stated fails on the empty text: the check for a missing input comes
    before the check for the credential and answers with status 400. *)
Lemma empty_text_without_credential :
  ai_assistant decimal_id None "You are Laku. User: "
               (model_saying (fenced delete_all_text))
               (decoding delete_all_text (remove_command (VStr "ALL")))
               (request "") two_sales
  = (Ok no_input_response, two_sales) /\
  no_input_response <> fallback_response /\
  status no_input_response = 400%nat.
Proof.
  split; [reflexivity|]. split; [discriminate|reflexivity].
Qed.

(** C8 (amended).  A structured request is stored under the item name it
    carries, unchanged.  A free-text request in ASCII is rejected with status
    400 when the text does not parse; otherwise the parser reads the
    leftmost occurrence of the shape with the longest item it allows, and
    the item it hands on is the word at that place of the submitted text
    converted to lower case, without any upper-case letter.  The request is
    then handled as the structured request for that lower-cased name, the
    value of the integer and the [float] nearest to the decimal: when that
    [float] is finite the record is stored under the lower-cased name.  A
    quantity of more digits than [int] converts makes the parser raise. *)
Theorem add_sale_item_name_case :
  (forall (data : list (string * value)) (item : string) (qty prc : value)
          (n : Z) (p : Q) (w : world),
     lookup data "item_name" = Some (VStr item) ->
     lookup data "quantity" = Some qty ->
     lookup data "price" = Some prc ->
     column_values (VStr item) qty prc = Some (item, n, p) ->
     db_fault w = None ->
     exists row r w',
       add_sale data w = (Ok r, w') /\ status r = 201%nat /\
       ledger w' = ledger w ++ [row] /\
       item_name row = item) /\
  (forall (data : list (string * value)) (text : string) (w : world),
     ascii_text text ->
     lookup data "item_name" = None ->
     lookup data "text" = Some (VStr text) ->
     db_fault w = None ->
     let s := list_ascii_of_string (lower text) in
     (parse_sales_input (VStr text) = Ok (VNone, VNone, VNone) /\
      add_sale data w
        = (Ok (Response [("error", JText "Cannot parse sale input.")] 400), w))
     \/
     (exists pre qty ws item mid cur prc post price before word after,
        s = pre ++ qty ++ ws ++ item ++ mid ++ cur ++ prc ++ post /\
        token Digit qty /\ token Space ws /\ token Word item /\ run Dot mid /\
        (cur = [] \/ cur = ["$"%char]) /\ decimal_token prc /\
        (forall pre' qty' item' prc',
           sale_shape_at s pre' qty' item' prc' ->
           (List.length pre <= List.length pre')%nat) /\
        (forall qty' item' prc',
           sale_shape_at s pre qty' item' prc' ->
           qty' = qty /\ (List.length item' <= List.length item)%nat) /\
        list_ascii_of_string text = before ++ word ++ after /\
        map lower_char before = pre ++ qty ++ ws /\
        map lower_char word = item /\
        Forall (fun a => is_upper a = false) item /\
        decimal_value prc = Some price /\
        ((int_max_str_digits < List.length qty)%nat ->
         add_sale data w = (Raise (too_many_digits qty), w)) /\
        ((List.length qty <= int_max_str_digits)%nat ->
         add_sale data w
         = add_sale [("item_name", VStr (string_of_list_ascii item));
                     ("quantity", VInt (digits_value qty));
                     ("price", value_of_float (float_nearest price))] w /\
         forall p, float_nearest price = Finite p ->
           exists r w',
             add_sale data w = (Ok r, w') /\ status r = 201%nat /\
             ledger w'
             = ledger w ++ [Sale (next_id w) (string_of_list_ascii item)
                                 (digits_value qty) p (now w)]))).
Proof.
  assert (Hrecord :
    forall item n p w, db_fault w = None ->
    exists r w',
      try_except
        (sale <- insert_sale (VStr item) (VInt n) (VFloat p) ;;
         sales <- fetch_sales ;;
         summary <- lift (compute_summary sales) ;;
         ret (Response [("sale", JSale sale); ("summary", JSummary summary);
                        ("message", JText "Sale recorded successfully!")] 201))
        (fun e => ret (Response [("error", JText (exn_str e))] 500)) w
      = (Ok r, w') /\ status r = 201%nat /\
      ledger w' = ledger w ++ [Sale (next_id w) item n p (now w)]).
  { intros item n p w Hup.
    unfold try_except, bind at 1, insert_sale.
    rewrite with_connection_up by exact Hup. simpl.
    unfold bind at 1, fetch_sales.
    rewrite with_connection_up by (simpl; exact Hup). simpl.
    unfold bind, lift, ret.
    match goal with |- context [compute_summary ?l] =>
      destruct (compute_summary_ok l) as [sm ->] end.
    do 2 eexists. split; [reflexivity|]. simpl. auto. }
  split.
  - intros data item qty prc n p w Hi Hq Hp Hcol Hup.
    unfold add_sale. rewrite Hi, Hq, Hp.
    unfold column_values in Hcol.
    destruct qty; try discriminate.
    destruct prc; try discriminate; inversion Hcol; subst.
    + unfold try_except, bind at 1, insert_sale.
      rewrite with_connection_up by exact Hup. simpl.
      unfold bind at 1, fetch_sales.
      rewrite with_connection_up by (simpl; exact Hup). simpl.
      unfold bind, lift, ret.
      match goal with |- context [compute_summary ?l] =>
        destruct (compute_summary_ok l) as [sm ->] end.
      do 3 eexists. split; [reflexivity|]. simpl. auto.
    + destruct (Hrecord item n p w Hup) as (r & w' & Hrun & Hst & Hled).
      do 3 eexists. split; [exact Hrun|]. split; [exact Hst|].
      split; [exact Hled|reflexivity].
  - intros data text w _ Hnone Htext Hup s.
    assert (Hadd :
      add_sale data w
      = match parse_sales_input (VStr text) with
        | Ok (item_name, quantity, price) =>
            if negb (truthy item_name)
            then (Ok (Response [("error", JText "Cannot parse sale input.")] 400), w)
            else
              try_except
                (sale <- insert_sale item_name quantity price ;;
                 sales <- fetch_sales ;;
                 summary <- lift (compute_summary sales) ;;
                 ret (Response [("sale", JSale sale); ("summary", JSummary summary);
                                ("message", JText "Sale recorded successfully!")]
                               201))
                (fun e => ret (Response [("error", JText (exn_str e))] 500)) w
        | Raise e => (Raise e, w)
        end).
    { unfold add_sale. rewrite Hnone, Htext. unfold bind at 1, lift at 1.
      destruct (parse_sales_input (VStr text)) as [[[i q] p]|e]; [|reflexivity].
      destruct (negb (truthy i)); reflexivity. }
    destruct (parse_sales_input_cases text)
      as [[Hparse _]|(pre & qty & item & prc & price & Hshape & Hleft & Hlong &
                      Hval & _ & Hparse)].
    + left. split; [exact Hparse|]. rewrite Hadd, Hparse. reflexivity.
    + right. fold s in Hshape, Hleft, Hlong.
      pose proof Hshape as (ws & mid & cur & post & Es & Hq & Hw & Hitem & Hmid &
                            Hcur & Hprc).
      assert (Es' : s = (pre ++ qty ++ ws) ++ item ++ (mid ++ cur ++ prc ++ post))
        by (rewrite Es, <- !app_assoc; reflexivity).
      apply lower_split in Es' as (before & word & after & Et & Hb & Ht & _).
      exists pre, qty, ws, item, mid, cur, prc, post, price, before, word, after.
      split; [exact Es|]. split; [exact Hq|]. split; [exact Hw|].
      split; [exact Hitem|]. split; [exact Hmid|]. split; [exact Hcur|].
      split; [exact Hprc|]. split; [exact Hleft|]. split; [exact Hlong|].
      split; [exact Et|]. split; [exact Hb|]. split; [exact Ht|].
      split.
      { rewrite <- Ht. apply Forall_forall. intros a Ha.
        apply in_map_iff in Ha as (b & <- & _). apply lower_char_not_upper. }
      split; [exact Hval|].
      split.
      * intros Hlen. apply Nat.leb_gt in Hlen. rewrite Hlen in Hparse.
        rewrite Hadd, Hparse. reflexivity.
      * intros Hlen. apply Nat.leb_le in Hlen. rewrite Hlen in Hparse.
        rewrite Hadd, Hparse. rewrite (token_text_truthy Hitem).
        simpl negb. cbv iota.
        split; [reflexivity|].
        intros p ->. cbn [value_of_float]. apply Hrecord. exact Hup.
Qed.

(** A structured request for "Nasi Katok" and the text "Sold 3 Eggs for $5". *)
Lemma add_sale_item_name_case_witness :
  (exists row r w',
     add_sale [("item_name", VStr "Nasi Katok"); ("quantity", VInt 3);
               ("price", VFloat (3 # 2))] two_sales = (Ok r, w') /\
     status r = 201%nat /\
     ledger w' = ledger two_sales ++ [row] /\
     item_name row = "Nasi Katok") /\
  (exists item : chars,
     Forall (fun a => is_upper a = false) item /\
     ledger (snd (add_sale [("text", VStr "Sold 3 Eggs for $5")] two_sales))
     = ledger two_sales
       ++ [Sale 3 (string_of_list_ascii item) 3 (inject_Z 5) (clock 15 0)]).
Proof.
  split.
  - apply (proj1 add_sale_item_name_case
             [("item_name", VStr "Nasi Katok"); ("quantity", VInt 3);
              ("price", VFloat (3 # 2))]
             "Nasi Katok" (VInt 3) (VFloat (3 # 2)) 3%Z (3 # 2) two_sales);
      reflexivity.
  - assert (C : ledger (snd (add_sale [("text", VStr "Sold 3 Eggs for $5")] two_sales))
                = ledger two_sales ++ [Sale 3 "eggs" 3 (inject_Z 5) (clock 15 0)])
      by (vm_compute; reflexivity).
    destruct (proj2 add_sale_item_name_case
                [("text", VStr "Sold 3 Eggs for $5")] "Sold 3 Eggs for $5"
                two_sales
                ltac:(unfold ascii_text, ascii_chars; simpl; repeat constructor)
                eq_refl eq_refl eq_refl)
      as [(Hparse & _)|H].
    + vm_compute in Hparse. discriminate.
    + destruct H as (pre & qty & ws & item & mid & cur & prc & post & price &
                     before & word & after & _ & _ & _ & _ & _ & _ & _ & _ & _ &
                     _ & _ & _ & Hupper & _ & Hlong & Hshort).
      exists item. split; [exact Hupper|].
      destruct (Nat.le_gt_cases (List.length qty) int_max_str_digits) as [Hlen|Hlen].
      * destruct (Hshort Hlen) as [Hsame Hstored].
        destruct (float_nearest price) as [p|f].
        -- destruct (Hstored p eq_refl) as (r & w' & Hrun & _ & Hled).
           rewrite Hrun in C. cbn [snd] in C. rewrite Hled in C.
           apply app_inv_head in C. rewrite Hrun. cbn [snd]. rewrite Hled.
           change (next_id two_sales) with 3%Z in *.
           change (now two_sales) with (clock 15 0) in *.
           inversion C. congruence.
        -- rewrite Hsame in C. vm_compute in C. discriminate.
      * rewrite (Hlong Hlen) in C. vm_compute in C. discriminate.
Defined.

(** C8 as stated fails on the free-text path: the text "Sold 3 Eggs for $5"
    is stored under the item name "eggs". *)
Lemma free_text_item_is_lowercased :
  ledger (snd (add_sale [("text", VStr "Sold 3 Eggs for $5")] two_sales))
  = ledger two_sales ++ [Sale 3 "eggs" 3 (inject_Z 5) (clock 15 0)] /\
  "eggs" <> "Eggs".
Proof.
  split; [vm_compute; reflexivity|discriminate].
Qed.

(** C9.  While the datastore answers and every stored id lies below the next
    id of the sequence, inserting a sale returns a record with the next id
    and the current time of the store; fetching all records afterwards
    returns exactly the old records and the new one, ordered by id from
    largest to smallest, with the new record, whose id exceeds every older
    id, first. *)
Theorem insert_then_fetch :
  forall (item : string) (qty : Z) (prc : Q) (w : world),
  db_fault w = None -> ids_below w ->
  exists row w1 sales w2,
    insert_sale (VStr item) (VInt qty) (VFloat prc) w = (Ok row, w1) /\
    row = Sale (next_id w) item qty prc (now w) /\
    fetch_sales w1 = (Ok sales, w2) /\
    In row sales /\
    Permutation sales (row :: ledger w) /\
    hd_error sales = Some row /\
    (forall r, In r (ledger w) -> (id r < id row)%Z) /\
    StronglySorted id_no_smaller sales.
Proof.
  intros item qty prc w Hup Hids.
  set (row := Sale (next_id w) item qty prc (now w)).
  assert (Hnew : Forall (fun x => (id x < id row)%Z) (ledger w)) by exact Hids.
  unfold insert_sale. rewrite (@with_connection_up _ _ _ Hup). simpl.
  do 4 eexists. split; [reflexivity|]. split; [reflexivity|]. fold row.
  unfold fetch_sales. rewrite with_connection_up by (simpl; exact Hup). simpl.
  split; [reflexivity|].
  rewrite (@order_by_id_desc_newest _ _ Hnew).
  split; [left; reflexivity|].
  split; [constructor; apply order_by_id_desc_perm|].
  split; [reflexivity|].
  split; [apply Forall_forall; exact Hnew|].
  rewrite <- (@order_by_id_desc_newest _ _ Hnew). apply order_by_id_desc_sorted.
Qed.

(** Inserting into a ledger that holds ids 1 and 2. *)
Lemma insert_then_fetch_witness :
  exists row w1 sales w2,
    insert_sale (VStr "kuih") (VInt 4) (VFloat (1 # 2)) two_sales = (Ok row, w1) /\
    row = Sale 3 "kuih" 4 (1 # 2) (clock 15 0) /\
    fetch_sales w1 = (Ok sales, w2) /\
    In row sales /\
    Permutation sales (row :: ledger two_sales) /\
    hd_error sales = Some row /\
    (forall r, In r (ledger two_sales) -> (id r < id row)%Z) /\
    StronglySorted id_no_smaller sales.
Proof.
  apply (@insert_then_fetch "kuih" 4 (1 # 2) two_sales).
  - reflexivity.
  - repeat constructor.
Defined.

(** C10 (amended).  A [remove_sale] command whose [sale_id] is not a string.
    [delete_sale] raises on such an identifier (the missing [lower] attribute
    when the datastore answers) and removes nothing.  When the identifier is
    truthy (123, a non-empty list, ...) the endpoint reaches [delete_sale],
    the outer handler turns the exception into the [error] envelope, and no
    record is deleted.  When it is falsy (0, false, an empty list or object)
    the endpoint answers with the missing-identifier [error] envelope
    before [delete_sale] is called. *)
Theorem remove_sale_non_string_id :
  forall (id_matches : string -> result (Z -> bool)) (GEMINI_API_KEY : option string)
         (persona : string) (generate_content : string -> result string)
         (json_loads : string -> result value)
         (request_json : value) (text : string)
         (response_data sale_id : value) (w : world),
  key_configured GEMINI_API_KEY = true ->
  get request_json "user_text" = Ok (VStr text) ->
  text <> "" ->
  commands persona generate_content json_loads text response_data ->
  get response_data "action" = Ok (VStr "remove_sale") ->
  get response_data "sale_id" = Ok sale_id ->
  is_str sale_id = false ->
  (exists e w1,
     delete_sale id_matches sale_id w = (Raise e, w1) /\
     ledger w1 = ledger w /\
     (db_fault w = None -> e = no_attribute sale_id "lower")) /\
  (exists r w',
     ai_assistant id_matches GEMINI_API_KEY persona generate_content json_loads
                  request_json w = (Ok r, w') /\
     ledger w' = ledger w /\
     status r = 200%nat /\
     action_of r = Some (JText "error") /\
     (truthy sale_id = false ->
      r = missing_id_response /\ contacted w' = LanguageModel :: contacted w) /\
     (truthy sale_id = true ->
      contacted w' = Datastore :: LanguageModel :: contacted w /\
      (db_fault w = None -> r = error_response (no_attribute sale_id "lower")))).
Proof.
  intros idm key persona gen jl req text cmd sid w
         Hkey Hget Htext Hcmd Haction Hsid Hstr.
  split.
  { destruct (@delete_sale_not_str idm sid w Hstr) as (e & w1 & H & Hl & _ & _ & He).
    exists e, w1. auto. }
  destruct (@get_total cmd _ "action" "confirmed" Haction) as [confirmed Hconf].
  rewrite (@ai_assistant_runs idm key persona gen jl req text cmd w
             Hkey Hget Htext Hcmd).
  unfold try_except, try_except_json.
  rewrite (@run_command_remove idm cmd sid confirmed _ Haction Hsid Hconf).
  destruct (truthy sid) eqn:Htruthy; cbv [negb]; cbv beta iota.
  - assert (Hgate : eq_str sid "all" = false) by (destruct sid; try reflexivity; discriminate).
    rewrite Hgate. cbv [andb]; cbv beta iota. unfold bind.
    destruct (@delete_sale_not_str idm sid (contact LanguageModel w) Hstr)
      as (e & w1 & -> & Hl & Hc & Hf & He).
    assert (Hcases :
      exists r,
        (let (r0, w0) :=
           match e with
           | Exn JSONDecodeError msg =>
               ret (parse_failure (exn_str (Exn JSONDecodeError msg))) w1
           | _ => (Raise e, w1)
           end in
         match r0 with
         | Ok a => (Ok a, w0)
         | Raise e0 => ret (error_response e0) w0
         end) = (Ok r, w1) /\
        status r = 200%nat /\ action_of r = Some (JText "error") /\
        (e = no_attribute sid "lower" -> r = error_response e)).
    { destruct e as [[] msg]; eexists; (split; [reflexivity|]);
        (split; [reflexivity|]); (split; [reflexivity|]);
        intros E; try reflexivity; inversion E. }
    destruct Hcases as (r & Hr & Hst & Hact & Hattr).
    exists r, w1. split; [destruct e as [[] msg]; exact Hr|].
    split; [rewrite Hl; reflexivity|]. split; [exact Hst|]. split; [exact Hact|].
    split; [discriminate|]. intros _.
    split; [rewrite Hc; reflexivity|].
    intros Hup. rewrite (Hattr (He Hup)), (He Hup). reflexivity.
  - exists missing_id_response, (contact LanguageModel w).
    split; [reflexivity|]. split; [reflexivity|]. split; [reflexivity|].
    split; [reflexivity|]. split; [auto|discriminate].
Qed.

(** The JSON number 123 as identifier. *)
Lemma remove_sale_non_string_id_witness :
  exists w',
    ai_assistant decimal_id (Some "key") "You are Laku. User: "
                 (model_saying (fenced delete_number_text))
                 (decoding delete_number_text (remove_command (VInt 123)))
                 (request "delete sale 123") two_sales
      = (Ok (error_response (no_attribute (VInt 123) "lower")), w') /\
    ledger w' = ledger two_sales.
Proof.
  destruct (@remove_sale_non_string_id decimal_id (Some "key")
              "You are Laku. User: "
              (model_saying (fenced delete_number_text))
              (decoding delete_number_text (remove_command (VInt 123)))
              (request "delete sale 123") "delete sale 123"
              (remove_command (VInt 123)) (VInt 123) two_sales
              eq_refl eq_refl ltac:(discriminate)
              ltac:(eexists; eexists; split; [reflexivity|];
                    split; vm_compute; reflexivity)
              eq_refl eq_refl eq_refl)
    as (_ & r & w' & Hrun & Hledger & _ & _ & _ & Htruthy).
  destruct (Htruthy eq_refl) as [_ Hr].
  exists w'. rewrite <- (Hr eq_refl). split; [exact Hrun|exact Hledger].
Defined.

(** C10 as stated fails on the JSON number 0: the guard for a missing
    identifier answers, the datastore is never contacted, and the answer is
    not the outer handler's. *)
Lemma zero_sale_id_never_reaches_delete :
  ai_assistant decimal_id (Some "key") "You are Laku. User: "
               (model_saying (fenced delete_zero_text))
               (decoding delete_zero_text (remove_command (VInt 0)))
               (request "delete sale 0") two_sales
  = (Ok missing_id_response, contact LanguageModel two_sales) /\
  contacted (contact LanguageModel two_sales) = [LanguageModel] /\
  missing_id_response <> error_response (no_attribute (VInt 0) "lower").
Proof.
  split; [vm_compute; reflexivity|]. split; [reflexivity|].
  vm_compute. discriminate.
Qed.

(* ================================================================== *)
(** * Further properties *)

Import Further.

(** ** Lemmas *)

Module Priority.


Lemma code_inj (a b : ascii) : code a = code b -> a = b.
Proof.
  unfold code. intros H.
  rewrite <- (ascii_nat_embedding a), <- (ascii_nat_embedding b), H. reflexivity.
Qed.

Lemma in_lit (a b : ascii) : in_class (Lit b) a = true <-> a = b.
Proof.
  simpl. rewrite Nat.eqb_eq. split; [apply code_inj|intros ->; reflexivity].
Qed.

Lemma in_lit_same (a : ascii) : in_class (Lit a) a = true.
Proof. apply in_lit. reflexivity. Qed.

Section Order.
Variable R : Type.

(** A literal consumes itself and nothing else. *)
Lemma rmatch_str (u s : chars) (g : groups) (k : chars -> groups -> option R) :
  rmatch (Str u) (u ++ s) g k = k s g.
Proof.
  induction u as [|a u IH]; simpl; [reflexivity|].
  change ((code a =? code a)%nat) with (in_class (Lit a) a).
  rewrite in_lit_same. exact IH.
Qed.

Lemma rmatch_str_inv (u s : chars) (g : groups) (k : chars -> groups -> option R)
    (x : R) :
  rmatch (Str u) s g k = Some x -> exists t, s = u ++ t /\ k t g = Some x.
Proof.
  revert s. induction u as [|a u IH]; simpl; intros s H.
  - exists s. auto.
  - destruct s as [|b s]; [discriminate|].
    destruct ((code b =? code a)%nat) eqn:E; [|discriminate].
    apply Nat.eqb_eq, code_inj in E. subst b.
    destruct (IH s H) as (t & -> & Hk). exists t. auto.
Qed.

(** The lazy star stops at the first point where the rest matches. *)
Lemma star_lazy_shortest (c : cclass) (k : chars -> option R) (x : R) :
  forall u v,
  forallb (in_class c) u = true ->
  (forall u1 u2, u = u1 ++ u2 -> u2 <> [] -> k (u2 ++ v) = None) ->
  k v = Some x ->
  star_lazy c k (u ++ v) = Some x.
Proof.
  induction u as [|a u IH]; intros v Hc Hno Hk.
  - simpl. destruct v; simpl; rewrite Hk; reflexivity.
  - simpl in Hc. apply andb_true_iff in Hc as [Ha Hu].
    assert (H0 : k (a :: u ++ v) = None)
      by (apply (Hno [] (a :: u) eq_refl); discriminate).
    simpl. rewrite H0, Ha. apply IH; [exact Hu| |exact Hk].
    intros u1 u2 E Hne. apply (Hno (a :: u1) u2); [rewrite E; reflexivity|exact Hne].
Qed.

(** The greedy star takes the whole run when the rest matches after it. *)
Lemma star_greedy_longest (c : cclass) (k : chars -> option R) (x : R) :
  forall u v,
  forallb (in_class c) u = true ->
  k v = Some x ->
  match v with [] => True | a :: _ => in_class c a = false end ->
  star_greedy c k (u ++ v) = Some x.
Proof.
  induction u as [|a u IH]; intros v Hc Hk Hstop.
  - simpl. destruct v as [|b v]; simpl; [exact Hk|]. rewrite Hstop. exact Hk.
  - simpl in Hc. apply andb_true_iff in Hc as [Ha Hu].
    simpl. rewrite Ha, (IH v Hu Hk Hstop). reflexivity.
Qed.

End Order.

(** A match at the start is what [search] returns. *)
Lemma search_here (r : regex) (s : chars) (g : groups) :
  match_here r s = Some g -> search r s = Some g.
Proof. intros H. destruct s; simpl; rewrite H; reflexivity. Qed.

End Priority.

Module ParserMore.

Lemma nearest_even_nonneg (p q : Z) :
  (0 <= p)%Z -> (0 < q)%Z -> (0 <= nearest_even p q)%Z.
Proof.
  intros Hp Hq. unfold nearest_even.
  assert (0 <= p / q)%Z by (apply Z.div_pos; assumption).
  destruct (2 * (p mod q) ?= q)%Z; [destruct (Z.even (p / q))| |]; lia.
Qed.

Lemma Qred_nonneg (x : Q) : 0 <= x -> 0 <= Qred x.
Proof. intros H. rewrite Qred_correct. exact H. Qed.

Lemma Qmake_nonneg (n : Z) (d : positive) : (0 <= n)%Z -> 0 <= n # d.
Proof. intros H. unfold Qle. simpl. lia. Qed.

(** Rounding keeps a number that is not negative so. *)
Lemma round_to_nonneg (b prec emin : Z) (x : Q) :
  (0 < b)%Z -> 0 <= x -> 0 <= round_to b prec emin x.
Proof.
  intros Hb Hx. unfold round_to.
  assert (Hn : (0 <= Qnum x)%Z) by (unfold Qle in Hx; simpl in Hx; lia).
  destruct (Z.abs (Qnum x) =? 0)%Z; [unfold Qle; simpl; lia|].
  cbv zeta.
  replace (Qnum x <? 0)%Z with false by (symmetry; apply Z.ltb_ge; exact Hn).
  apply Qred_nonneg, Qmake_nonneg.
  apply Z.mul_nonneg_nonneg; [|apply Z.pow_nonneg; lia].
  apply nearest_even_nonneg.
  - apply Z.mul_nonneg_nonneg; [lia|apply Z.pow_nonneg; lia].
  - apply Z.mul_pos_pos; [reflexivity|apply Z.pow_pos_nonneg; lia].
Qed.

Lemma decimal_below_nonneg (digits : Z) (x : Q) : 0 <= x -> 0 <= decimal_below digits x.
Proof.
  intros Hx. unfold decimal_below.
  assert (Hn : (0 <= Qnum x)%Z) by (unfold Qle in Hx; simpl in Hx; lia).
  apply Qred_nonneg, Qmake_nonneg.
  apply Z.mul_nonneg_nonneg; [|apply Z.pow_nonneg; lia].
  apply Z.div_pos.
  - apply Z.mul_nonneg_nonneg; [exact Hn|apply Z.pow_nonneg; lia].
  - apply Z.mul_pos_pos; [reflexivity|apply Z.pow_pos_nonneg; lia].
Qed.

Lemma decimal_above_nonneg (digits : Z) (x : Q) : 0 <= x -> 0 <= decimal_above digits x.
Proof.
  intros Hx. unfold decimal_above.
  assert (Hn : (0 <= Qnum x)%Z) by (unfold Qle in Hx; simpl in Hx; lia).
  apply Qred_nonneg, Qmake_nonneg.
  apply Z.mul_nonneg_nonneg; [|apply Z.pow_nonneg; lia].
  assert (0 <= Qnum x * 10 ^ Z.max (- (magnitude 10 (Qnum x) (Z.pos (Qden x)) - (digits - 1))) 0
               / (Z.pos (Qden x)
                  * 10 ^ Z.max (magnitude 10 (Qnum x) (Z.pos (Qden x)) - (digits - 1)) 0))%Z; [|lia].
  apply Z.div_pos.
  - apply Z.mul_nonneg_nonneg; [exact Hn|apply Z.pow_nonneg; lia].
  - apply Z.mul_pos_pos; [reflexivity|apply Z.pow_pos_nonneg; lia].
Qed.

Lemma shortest_from_nonneg (more : nat) :
  forall (digits : Z) (v : Q), 0 <= v -> 0 <= shortest_from more digits v.
Proof.
  induction more as [|more IH]; intros digits v Hv; [exact Hv|].
  cbn [shortest_from]. cbv zeta.
  repeat match goal with |- context [if ?c then _ else _] => destruct c end;
    first [apply decimal_below_nonneg; exact Hv
          |apply decimal_above_nonneg; exact Hv
          |apply IH; exact Hv].
Qed.

(** The [float] nearest to a number that is not negative is not negative. *)
Lemma float_nearest_nonneg (x : Q) :
  0 <= x ->
  match float_nearest x with
  | Finite p => 0 <= p
  | NonFinite f => f = PosInf
  end.
Proof.
  intros Hx. unfold float_nearest, binary64.
  destruct (Qle_bool _ _ || Qle_bool _ _).
  - replace (Qle_bool 0 x) with true by (symmetry; apply Qle_bool_iff; exact Hx).
    reflexivity.
  - assert (Hv := @round_to_nonneg 2 53 (-1074) x eq_refl Hx).
    unfold shortest_decimal.
    destruct (Qeq_bool _ 0); [unfold Qle; simpl; lia|].
    replace (Qle_bool 0 (round_to 2 53 (-1074) x)) with true
      by (symmetry; apply Qle_bool_iff; exact Hv).
    apply shortest_from_nonneg. exact Hv.
Qed.

End ParserMore.

Module SentenceFacts.
Import Priority.

Lemma stops_token (c c' : cclass) (u v : chars) :
  token c' u ->
  (forall a, in_class c' a = true -> in_class c a = false) ->
  stops c (u ++ v).
Proof.
  intros Hu Hc. destruct (@token_head c' u Hu) as (a & u' & -> & Ha & _).
  simpl. apply Hc. exact Ha.
Qed.

Lemma stops_app (c : cclass) (u v : chars) :
  u <> [] -> stops c u -> stops c (u ++ v).
Proof. destruct u; [congruence|]. intros _ H. exact H. Qed.

Section Tokens.
Variable R : Type.
Implicit Types k : chars -> groups -> option R.

Lemma rmatch_seq (r1 r2 : regex) (s : chars) (g : groups) k :
  rmatch (Seq r1 r2) s g k = rmatch r1 s g (fun s' g' => rmatch r2 s' g' k).
Proof. reflexivity. Qed.

Lemma rmatch_group (n : nat) (r : regex) (s : chars) (g : groups) k :
  rmatch (Group n r) s g k
  = rmatch r s g
      (fun s' g' => k s' ((n, firstn (List.length s - List.length s') s) :: g')).
Proof. reflexivity. Qed.

Lemma rmatch_lazy (c : cclass) (s : chars) (g : groups) k :
  rmatch (Lazy c) s g k = star_lazy c (fun s' => k s' g) s.
Proof. reflexivity. Qed.

(** [c+] takes a whole token when the text after it cannot extend it and the
    rest of the pattern matches there. *)
Lemma rmatch_plus (c : cclass) (u v : chars) (g : groups) k (x : R) :
  token c u -> stops c v -> k v g = Some x ->
  rmatch (Plus c) (u ++ v) g k = Some x.
Proof.
  intros Hu Hstop Hk.
  destruct (@token_head c u Hu) as (a & u' & -> & Ha & Hrun).
  unfold Plus. simpl. rewrite Ha.
  apply (@star_greedy_longest R c (fun s' => k s' g) x u' v Hrun Hk Hstop).
Qed.

(** A group records what its body consumed. *)
Lemma rmatch_group_of (n : nat) (r : regex) (u v : chars) (g : groups) k (x : R) :
  (forall k' y, k' v g = Some y -> rmatch r (u ++ v) g k' = Some y) ->
  k v ((n, u) :: g) = Some x ->
  rmatch (Group n r) (u ++ v) g k = Some x.
Proof.
  intros Hr Hk. rewrite rmatch_group. apply Hr.
  cbv beta. rewrite firstn_consumed. exact Hk.
Qed.

(** The optional dollar sign. *)
Lemma rmatch_opt_dollar (cur rest : chars) (g : groups) k (x : R) :
  (cur = [] /\ stops (Lit "$"%char) rest) \/ cur = ["$"%char] ->
  k rest g = Some x ->
  rmatch (Opt (Chr (Lit "$"%char))) (cur ++ rest) g k = Some x.
Proof.
  intros [[-> Hstop]| ->] Hk; cbn [rmatch app].
  - destruct rest as [|a rest]; [exact Hk|].
    unfold stops in Hstop. rewrite Hstop. exact Hk.
  - rewrite in_lit_same, Hk. reflexivity.
Qed.

(** The fraction of a price. *)
Lemma rmatch_fraction (frac post : chars) (g : groups) k (x : R) :
  fraction frac post -> stops Digit post ->
  k post g = Some x ->
  rmatch (Seq (Opt (Chr (Lit "."%char))) (Star Digit)) (frac ++ post) g k = Some x.
Proof.
  intros [[-> Hdot]|(f & -> & Hf)] Hpost Hk; cbn [rmatch app].
  - assert (Hstar : star_greedy Digit (fun s' => k s' g) post = Some x)
      by (apply (@star_greedy_longest R Digit (fun s' => k s' g) x [] post
                   eq_refl Hk Hpost)).
    destruct post as [|b post]; [exact Hstar|].
    unfold stops in Hdot. rewrite Hdot. exact Hstar.
  - rewrite in_lit_same.
    rewrite (@star_greedy_longest R Digit (fun s' => k s' g) x f post Hf Hk Hpost).
    reflexivity.
Qed.

(** Digits, then the fraction. *)
Lemma rmatch_decimal (i frac post : chars) (g : groups) k (x : R) :
  token Digit i -> fraction frac post -> stops Digit post ->
  k post g = Some x ->
  rmatch (Seq (Plus Digit) (Seq (Opt (Chr (Lit "."%char))) (Star Digit)))
         ((i ++ frac) ++ post) g k = Some x.
Proof.
  intros Hi Hfrac Hpost Hk. rewrite rmatch_seq, <- app_assoc.
  apply rmatch_plus; [exact Hi| |].
  - destruct Hfrac as [[-> _]|(f & -> & _)]; [exact Hpost|reflexivity].
  - apply rmatch_fraction; assumption.
Qed.

(** Before the price, a filler character can only be skipped. *)
Lemma price_not_at_filler (a : ascii) (s : chars) (g : groups) k (r : regex) :
  filler a ->
  rmatch (Seq (Opt (Chr (Lit "$"%char))) (Group 3 (Seq (Plus Digit) r)))
         (a :: s) g k = None.
Proof.
  intros (_ & Hdigit & Hdollar).
  assert (Hlit : in_class (Lit "$"%char) a = false).
  { destruct (in_class (Lit "$"%char) a) eqn:E; [|reflexivity].
    apply in_lit in E. contradiction. }
  unfold Plus. cbn [rmatch]. rewrite Hlit.
  change (in_class Digit a) with (is_digit a). rewrite Hdigit. reflexivity.
Qed.

End Tokens.

(** The pattern cannot start at a character that is not a digit. *)
Lemma sale_pattern_needs_digit (a : ascii) (s : chars) :
  is_digit a = false -> match_here sale_pattern (a :: s) = None.
Proof.
  intros Ha. unfold match_here, sale_pattern, Plus. simpl. rewrite Ha. reflexivity.
Qed.

Lemma search_skips_to_digit (pre s : chars) :
  Forall (fun a => is_digit a = false) pre ->
  search sale_pattern (pre ++ s) = search sale_pattern s.
Proof.
  induction 1 as [|a pre Ha _ IH]; [reflexivity|].
  simpl app. cbn [search]. rewrite (@sale_pattern_needs_digit a (pre ++ s) Ha).
  exact IH.
Qed.

Lemma filler_run (mid : chars) : Forall filler mid -> run Dot mid.
Proof.
  unfold run. induction 1 as [|a mid (Ha & _) _ IH]; [reflexivity|].
  cbn [forallb]. rewrite Ha. exact IH.
Qed.

(** On a sentence that can be read in one way only, the pattern matches at
    its integer and the groups are the integer, the word and the price. *)
Lemma sentence_match (qty ws item mid cur i frac post : chars) :
  token Digit qty -> token Space ws -> token Word item ->
  stops Word (mid ++ cur ++ i) ->
  Forall filler mid ->
  cur = [] \/ cur = ["$"%char] ->
  token Digit i -> fraction frac post -> stops Digit post ->
  match_here sale_pattern
             (qty ++ ws ++ item ++ mid ++ cur ++ (i ++ frac) ++ post)
  = Some [(3, i ++ frac); (2, item); (1, qty)]%nat.
Proof.
  intros Hqty Hws Hitem Hafter Hmid Hcur Hi Hfrac Hpost.
  unfold match_here, sale_pattern.
  rewrite rmatch_seq. apply rmatch_group_of.
  { intros k' y Hk'. apply rmatch_plus; [exact Hqty| |exact Hk'].
    apply (@stops_token Digit Space ws _ Hws). intros a. apply space_not_digit. }
  rewrite rmatch_seq. apply rmatch_plus; [exact Hws| |].
  { apply (@stops_token Space Word item _ Hitem). intros a. apply word_not_space. }
  rewrite rmatch_seq. apply rmatch_group_of.
  { intros k' y Hk'. apply rmatch_plus; [exact Hitem| |exact Hk'].
    replace (mid ++ cur ++ (i ++ frac) ++ post)
      with ((mid ++ cur ++ i) ++ frac ++ post)
      by (repeat (rewrite <- app_assoc; simpl); reflexivity).
    apply stops_app; [|exact Hafter].
    destruct Hi as [Hne _]. destruct mid; [destruct cur; [exact Hne|]|];
      discriminate. }
  rewrite rmatch_seq, rmatch_lazy. apply star_lazy_shortest.
  - apply filler_run. exact Hmid.
  - intros u1 u2 E Hne. destruct u2 as [|a u2]; [congruence|].
    apply price_not_at_filler.
    rewrite E in Hmid. apply Forall_app in Hmid as [_ Hu2].
    inversion Hu2; assumption.
  - rewrite rmatch_seq. apply rmatch_opt_dollar.
    + destruct Hcur as [->| ->]; [left; split; [reflexivity|]|right; reflexivity].
      destruct (@token_head Digit i Hi) as (d & i' & -> & Hd & _).
      simpl. apply digit_not_dollar. exact Hd.
    + apply rmatch_group_of; [|reflexivity].
      intros k' y Hk'. apply rmatch_decimal; assumption.
Qed.

Lemma sentence_search (pre qty ws item mid cur i frac post : chars) :
  Forall (fun a => is_digit a = false) pre ->
  token Digit qty -> token Space ws -> token Word item ->
  stops Word (mid ++ cur ++ i) ->
  Forall filler mid ->
  cur = [] \/ cur = ["$"%char] ->
  token Digit i -> fraction frac post -> stops Digit post ->
  search sale_pattern
         (pre ++ qty ++ ws ++ item ++ mid ++ cur ++ (i ++ frac) ++ post)
  = Some [(3, i ++ frac); (2, item); (1, qty)]%nat.
Proof.
  intros Hpre Hqty Hws Hitem Hafter Hmid Hcur Hi Hfrac Hpost.
  rewrite (@search_skips_to_digit pre _ Hpre).
  apply search_here, sentence_match; assumption.
Qed.

Lemma fraction_decimal (i frac post : chars) :
  token Digit i -> fraction frac post -> decimal_token (i ++ frac).
Proof.
  intros Hi [[-> _]|(f & -> & Hf)].
  - exists i, []. split; [exact Hi|]. split; [reflexivity|]. left. reflexivity.
  - exists i, f. split; [exact Hi|]. split; [exact Hf|]. right. reflexivity.
Qed.

End SentenceFacts.

Module AnalyticsMore.

Lemma hour_add_total (d d' : list (nat * Z)) (h : nat) (q : Z) :
  hour_add d h q = Some d' -> values_total d' = (values_total d + q)%Z.
Proof.
  revert d'. induction d as [|[h0 v] d IH]; simpl; intros d' H; [discriminate|].
  destruct (h0 =? h)%nat.
  - inversion H; subst. simpl. lia.
  - destruct (hour_add d h q) as [d1|]; [|discriminate].
    inversion H; subst. simpl. rewrite (IH d1 eq_refl). lia.
Qed.

Lemma count_hours_total (sales : list sale) :
  forall d d', count_hours d sales = Ok d' ->
  values_total d' = (values_total d + units_of sales)%Z.
Proof.
  induction sales as [|s sales IH]; intros d d' H; cbn [count_hours] in H.
  - inversion H; subst. simpl. lia.
  - destruct (hour_add d (hour (created_at s)) (quantity s)) as [d1|] eqn:E;
      [|discriminate].
    rewrite (IH _ _ H), (hour_add_total _ _ _ E). simpl. lia.
Qed.

Lemma dict_get_cons (k0 k : string) (v0 : Z) (d : list (string * Z)) :
  dict_get ((k0, v0) :: d) k = if (k0 =? k)%string then v0 else dict_get d k.
Proof. unfold dict_get. simpl. destruct (k0 =? k)%string; reflexivity. Qed.

Lemma dict_add_total (d : list (string * Z)) (k : string) (q : Z) :
  values_total (dict_set d k (dict_get d k + q)%Z) = (values_total d + q)%Z.
Proof.
  induction d as [|[k0 v0] d IH].
  - unfold dict_get. simpl. lia.
  - rewrite dict_get_cons. cbn [dict_set].
    destruct (k0 =? k)%string; cbn [values_total fold_right snd].
    + lia.
    + fold (values_total (dict_set d k (dict_get d k + q)%Z)).
      fold (values_total d). rewrite IH. lia.
Qed.

Lemma count_items_total_from (sales : list sale) :
  forall items,
  values_total
    (fold_left
       (fun items s =>
          dict_set items (item_name s)
                   (dict_get items (item_name s) + quantity s)%Z)
       sales items)
  = (values_total items + units_of sales)%Z.
Proof.
  induction sales as [|s sales IH]; intros items; cbn [fold_left units_of fold_right].
  - lia.
  - rewrite IH, dict_add_total. fold (units_of sales). lia.
Qed.

Lemma keys_dict_set (d : list (string * Z)) (k : string) (v : Z) :
  map fst (dict_set d k v)
  = if existsb (String.eqb k) (map fst d) then map fst d else map fst d ++ [k].
Proof.
  induction d as [|[k0 v0] d IH]; [reflexivity|].
  cbn [dict_set map fst existsb].
  rewrite (String.eqb_sym k k0).
  destruct (k0 =? k)%string eqn:E; cbn [orb map fst].
  - apply String.eqb_eq in E. subst. reflexivity.
  - rewrite IH. destruct (existsb (String.eqb k) (map fst d)); reflexivity.
Qed.

Lemma count_items_keys_from (sales : list sale) :
  forall items,
  map fst
    (fold_left
       (fun items s =>
          dict_set items (item_name s)
                   (dict_get items (item_name s) + quantity s)%Z)
       sales items)
  = fold_left
      (fun seen name =>
         if existsb (String.eqb name) seen then seen else seen ++ [name])
      (map item_name sales) (map fst items).
Proof.
  induction sales as [|s sales IH]; intros items; [reflexivity|].
  cbn [fold_left map]. rewrite IH, keys_dict_set. reflexivity.
Qed.

Lemma first_seen_from (names : list string) :
  forall seen,
  NoDup seen ->
  let out := fold_left
      (fun seen name =>
         if existsb (String.eqb name) seen then seen else seen ++ [name])
      names seen in
  NoDup out /\ forall x, In x out <-> In x seen \/ In x names.
Proof.
  induction names as [|n names IH]; intros seen Hnd; cbn [fold_left].
  - split; [exact Hnd|]. intros x. simpl. tauto.
  - destruct (existsb (String.eqb n) seen) eqn:E.
    + destruct (IH seen Hnd) as [H1 H2]. split; [exact H1|].
      intros x. rewrite H2. simpl.
      apply existsb_exists in E as (y & Hy & Ey). apply String.eqb_eq in Ey. subst y.
      split; [tauto|]. intros [H|[<-|H]]; auto.
    + assert (Hnd' : NoDup (seen ++ [n])).
      { apply NoDup_app; [exact Hnd|repeat constructor; simpl; tauto|].
        intros x Hx [Hn|[]]. subst x.
        assert (existsb (String.eqb n) seen = true)
          by (apply existsb_exists; exists n; split; [exact Hx|apply String.eqb_refl]).
        congruence. }
      destruct (IH (seen ++ [n]) Hnd') as [H1 H2]. split; [exact H1|].
      intros x. rewrite H2, in_app_iff. simpl. tauto.
Qed.

Lemma lookup_in (A : Type) (d : list (string * A)) (k : string) (v : A) :
  lookup d k = Some v -> In (k, v) d.
Proof.
  induction d as [|[k0 v0] d IH]; simpl; [discriminate|].
  destruct (k0 =? k)%string eqn:E.
  - apply String.eqb_eq in E. intros H. inversion H; subst. auto.
  - auto.
Qed.

Lemma in_lookup (A : Type) (d : list (string * A)) (k : string) (v : A) :
  NoDup (map fst d) -> In (k, v) d -> lookup d k = Some v.
Proof.
  induction d as [|[k0 v0] d IH]; simpl; intros Hnd Hin; [tauto|].
  inversion Hnd as [|? ? Hnot Hnd']; subst.
  destruct Hin as [E|Hin].
  - inversion E; subst. rewrite String.eqb_refl. reflexivity.
  - destruct (k0 =? k)%string eqn:E; [|auto].
    apply String.eqb_eq in E. subst k0. exfalso. apply Hnot.
    apply in_map_iff. exists (k, v). auto.
Qed.

Lemma units_of_perm (l l' : list sale) :
  Permutation l l' -> units_of l = units_of l'.
Proof.
  induction 1; simpl; try lia.
Qed.

Lemma filter_perm (A : Type) (f : A -> bool) (l l' : list A) :
  Permutation l l' -> Permutation (filter f l) (filter f l').
Proof.
  induction 1; simpl.
  - constructor.
  - destruct (f x); [constructor|]; assumption.
  - destruct (f x), (f y); try reflexivity. apply perm_swap.
  - etransitivity; eassumption.
Qed.

Lemma sorted_app_order (A : Type) (R : A -> A -> Prop) (l1 l2 : list A) :
  StronglySorted R (l1 ++ l2) ->
  forall a b, In a l1 -> In b l2 -> R a b.
Proof.
  induction l1 as [|x l1 IH]; simpl; intros H a b Ha Hb; [tauto|].
  inversion H as [|? ? Hs Hall]; subst.
  destruct Ha as [<-|Ha].
  - rewrite Forall_forall in Hall. apply Hall. apply in_app_iff. auto.
  - eapply IH; eauto.
Qed.

(** The figures of a summary, for every input. *)
Lemma summary_figures (sales : list sale) :
  exists sm,
    compute_summary sales = Ok sm /\
    total_sales_count sm = units_of sales /\
    (forall name,
       lookup (items_sold sm) name
       = match sold_as name sales with
         | [] => None
         | l => Some (units_of l)
         end) /\
    NoDup (map fst (items_sold sm)) /\
    ((items_sold sm = [] /\ best_selling_quantity sm = 0%Z) \/
     (exists best, In (best, best_selling_quantity sm) (items_sold sm) /\
                   best_selling_item sm = Some best /\
                   forall e, In e (items_sold sm) ->
                             (snd e <= best_selling_quantity sm)%Z)) /\
    (forall h, (h < 24)%nat ->
       hour_get (hourly_sales sm) h = Some (units_of (sold_at h sales))) /\
    recent_sales sm = map recent_of (firstn 5 (newest_first sales)).
Proof.
  destruct sales as [|s rest].
  - eexists. split; [reflexivity|]. simpl.
    split; [reflexivity|].
    split; [reflexivity|]. split; [constructor|]. split; [left; auto|].
    split; [|reflexivity].
    intros h Hh. apply (empty_hours_get Hh).
  - set (sales := s :: rest).
    destruct (count_hours_ok sales) as (d & E & _ & Hget).
    unfold compute_summary. fold sales.
    change (match sales with [] => ?a | _ :: _ => ?b end) with b.
    rewrite E. eexists. split; [reflexivity|].
    cbn [total_revenue total_sales_count avg_order_value items_sold
         best_selling_item best_selling_quantity hourly_sales recent_sales].
    split; [apply sum_Z_units|].
    split; [apply count_items_lookup|].
    split.
    { pose proof (count_items_keys_from sales []) as Hk.
      fold (count_items sales) in Hk. rewrite Hk.
      apply (@first_seen_from (map item_name sales) [] (NoDup_nil _)). }
    split; [|split; [exact Hget|reflexivity]].
    right.
    pose proof (@count_items_nonempty s rest) as Hne. fold sales in Hne.
    unfold best_item. destruct (count_items sales) as [|x l]; [congruence|].
    destruct (max_by_first snd l x) as (before & after & Eq & Hb & Ha).
    cbn [fst snd]. exists (fst (max_by snd x l)).
    rewrite <- surjective_pairing.
    split; [rewrite Eq; apply in_app_iff; right; left; reflexivity|].
    split; [reflexivity|].
    intros e He. rewrite Eq in He. apply in_app_iff in He as [He|[<-|He]].
    + specialize (Hb e He). lia.
    + lia.
    + apply Ha. exact He.
Qed.

End AnalyticsMore.

Module StoreMore.

Lemma filter_none_keeps_all (A : Type) (f : A -> bool) (l : list A) :
  filter f l = [] -> filter (fun x => negb (f x)) l = l.
Proof.
  induction l as [|x l IH]; simpl; [reflexivity|].
  destruct (f x); [discriminate|]. intros H. simpl. f_equal. apply IH. exact H.
Qed.

Lemma NoDup_ids_filter (f : sale -> bool) (l : list sale) :
  NoDup (map id l) -> NoDup (map id (filter f l)).
Proof.
  induction l as [|x l IH]; simpl; intros H; [constructor|].
  inversion H as [|? ? Hnot Hnd]; subst.
  destruct (f x); [|auto]. simpl. constructor; [|auto].
  intros Hin. apply Hnot. apply in_map_iff in Hin as (y & Ey & Hy).
  apply filter_In in Hy as [Hy _]. apply in_map_iff. eauto.
Qed.

(** What the three operations do while the datastore answers. *)
Lemma insert_sale_up (i q p : value) (w : world) :
  db_fault w = None ->
  insert_sale i q p w
  = match column_values i q p with
    | None => (Raise wrong_type, contact Datastore w)
    | Some (s, n, x) =>
        (Ok (Sale (next_id w) s n x (now w)),
         World (ledger w ++ [Sale (next_id w) s n x (now w)]) (next_id w + 1)
               (now w) (db_fault w) (Datastore :: contacted w))
    end.
Proof.
  intros Hup. unfold insert_sale. rewrite (@with_connection_up _ _ _ Hup).
  destruct (column_values i q p) as [[[s n] x]|]; [reflexivity|].
  destruct w; reflexivity.
Qed.

Lemma fetch_sales_up (w : world) :
  db_fault w = None ->
  fetch_sales w = (Ok (order_by_id_desc (ledger w)), contact Datastore w).
Proof.
  intros Hup. unfold fetch_sales. rewrite (@with_connection_up _ _ _ Hup). reflexivity.
Qed.

Lemma store_step_refl (w : world) : store_step w w.
Proof.
  unfold store_step. split; [auto|]. split; [lia|]. split; reflexivity.
Qed.

Lemma store_step_trans (w1 w2 w3 : world) :
  store_step w1 w2 -> store_step w2 w3 -> store_step w1 w3.
Proof.
  unfold store_step. intros (A1 & B1 & C1 & D1) (A2 & B2 & C2 & D2).
  split; [auto|]. split; [lia|]. split; congruence.
Qed.

Lemma store_step_contact (s : service) (w : world) : store_step w (contact s w).
Proof.
  unfold store_step, store_ok, ids_below. simpl.
  split; [auto|]. split; [lia|]. split; reflexivity.
Qed.

Lemma keeps_fetch_sales : keeps_store fetch_sales.
Proof.
  intros w out w' H. destruct (db_fault w) as [e|] eqn:Hf.
  - rewrite (@fetch_sales_down _ _ Hf) in H. inversion H. apply store_step_contact.
  - rewrite (@fetch_sales_up _ Hf) in H. inversion H. apply store_step_contact.
Qed.

Lemma keeps_insert_sale (i q p : value) : keeps_store (insert_sale i q p).
Proof.
  intros w out w' H. destruct (db_fault w) as [e|] eqn:Hf.
  - rewrite (@insert_sale_down i q p _ _ Hf) in H. inversion H. apply store_step_contact.
  - rewrite (@insert_sale_up i q p _ Hf) in H.
    destruct (column_values i q p) as [[[s n] x]|];
      inversion H; subst; [|apply store_step_contact].
    unfold store_step, store_ok, ids_below. simpl.
    split; [|split; [lia|split; reflexivity]].
    intros [Hb Hnd]. split.
    + apply Forall_app. split.
      * eapply Forall_impl; [|exact Hb]. simpl. intros; lia.
      * repeat constructor. simpl. lia.
    + rewrite map_app. simpl. apply NoDup_app; [exact Hnd|repeat constructor; simpl; tauto|].
      intros y Hy [Ey|[]]. subst y.
      apply in_map_iff in Hy as (r & Er & Hr).
      rewrite Forall_forall in Hb. specialize (Hb r Hr). simpl in Hb. lia.
Qed.

Lemma keeps_delete_sale (id_matches : string -> result (Z -> bool)) (v : value) :
  keeps_store (delete_sale id_matches v).
Proof.
  intros w out w' H. destruct (db_fault w) as [e|] eqn:Hf.
  - rewrite (@delete_sale_down id_matches v _ _ Hf) in H. inversion H.
    apply store_step_contact.
  - unfold delete_sale in H. rewrite (@with_connection_up _ _ _ Hf) in H.
    assert (Hsub : forall f,
      store_step w (with_ledger (filter f (ledger w)) (contact Datastore w))).
    { intros f. unfold store_step, store_ok, ids_below. simpl.
      split; [|split; [lia|split; reflexivity]].
      intros [Hb Hnd]. split; [|apply NoDup_ids_filter; exact Hnd].
      apply Forall_forall. intros r Hr. apply filter_In in Hr as [Hr _].
      rewrite Forall_forall in Hb. auto. }
    destruct v as [| | | |s| | |];
      try (unfold raise in H; inversion H; subst; destruct w;
           apply (store_step_contact Datastore)).
    destruct (lower s =? "all").
    + inversion H; subst. specialize (Hsub (fun _ => false)).
      replace (filter (fun _ => false) (ledger w)) with (@nil sale) in Hsub
        by (clear; induction (ledger w); simpl; auto).
      exact Hsub.
    + simpl in H. destruct (id_matches s) as [matches|e].
      * destruct (filter (fun r => matches (id r)) (ledger w));
          inversion H; subst; apply Hsub.
      * inversion H; subst. destruct w. apply (store_step_contact Datastore).
Qed.

End StoreMore.

Module InterpreterMore.
Import StoreMore.

Section Always.

Variable R : world -> world -> Prop.
Hypothesis R_refl : forall w, R w w.
Hypothesis R_trans : forall w1 w2 w3, R w1 w2 -> R w2 w3 -> R w1 w3.

Lemma always_ret (A : Type) (a : A) : always R (ret a).
Proof. intros w out w' H. inversion H. apply R_refl. Qed.

Lemma always_lift (A : Type) (r : result A) : always R (lift r).
Proof. intros w out w' H. inversion H. apply R_refl. Qed.

Lemma always_bind (A B : Type) (m : M A) (k : A -> M B) :
  always R m -> (forall a, always R (k a)) -> always R (bind m k).
Proof.
  intros Hm Hk w out w' H. unfold bind in H.
  destruct (m w) as [[a|e] w1] eqn:E.
  - eapply R_trans; [eapply Hm; exact E|eapply Hk; exact H].
  - inversion H; subst. eapply Hm; exact E.
Qed.

Lemma always_try_except (A : Type) (m : M A) (h : exn -> M A) :
  always R m -> (forall e, always R (h e)) -> always R (try_except m h).
Proof.
  intros Hm Hh w out w' H. unfold try_except in H.
  destruct (m w) as [[a|e] w1] eqn:E.
  - inversion H; subst. eapply Hm; exact E.
  - eapply R_trans; [eapply Hm; exact E|eapply Hh; exact H].
Qed.

Lemma always_try_except_json (A : Type) (m : M A) (h : exn -> M A) :
  always R m -> (forall e, always R (h e)) -> always R (try_except_json m h).
Proof.
  intros Hm Hh w out w' H. unfold try_except_json in H.
  destruct (m w) as [[a|[[] msg]] w1] eqn:E;
    try (inversion H; subst; eapply Hm; exact E).
  eapply R_trans; [eapply Hm; exact E|eapply Hh; exact H].
Qed.

Variable id_matches : string -> result (Z -> bool).
Hypothesis R_insert : forall i q p, always R (insert_sale i q p).
Hypothesis R_fetch : always R fetch_sales.
Hypothesis R_delete : forall v, always R (delete_sale id_matches v).

Ltac step :=
  repeat first
    [ apply always_ret
    | apply always_lift
    | apply R_insert
    | apply R_fetch
    | apply R_delete
    | apply always_bind; [|intros ?]
    | apply always_try_except; [|intros ?]
    | match goal with
      | |- always R (if ?c then _ else _) => destruct c
      | |- always R (match ?x with _ => _ end) => destruct x
      | |- always R (let (_, _) := ?x in _) => destruct x
      end ].

Lemma always_run_command (response_data : value) :
  always R (run_command id_matches response_data).
Proof. unfold run_command. cbv zeta. step. Qed.

Lemma always_delete_sale_route (sale_id : string) :
  always R (delete_sale_route id_matches sale_id).
Proof. unfold delete_sale_route. step. Qed.

Lemma always_add_sale (data : list (string * value)) : always R (add_sale data).
Proof. unfold add_sale. cbv zeta. step. Qed.

Lemma always_get_analytics : always R get_analytics.
Proof. unfold get_analytics. step. Qed.

Lemma always_get_sales : always R get_sales.
Proof. unfold get_sales. step. Qed.

Variable GEMINI_API_KEY : option string.
Variable persona : string.
Variable generate_content : string -> result string.
Variable json_loads : string -> result value.
Hypothesis R_ask : forall prompt, always R (ask_model generate_content prompt).

Lemma always_ai_assistant (request_json : value) :
  always R (ai_assistant id_matches GEMINI_API_KEY persona generate_content
                         json_loads request_json).
Proof.
  unfold ai_assistant. cbv zeta.
  apply always_bind; [apply always_lift|intros user_text].
  destruct (negb (truthy user_text)); [apply always_ret|].
  destruct (negb (key_configured GEMINI_API_KEY)); [apply always_ret|].
  apply always_bind; [apply always_lift|intros prompt].
  apply always_try_except; [|intros e; apply always_ret].
  apply always_bind; [apply R_ask|intros reply].
  destruct (search fence_pattern (list_ascii_of_string (strip reply)));
    [|apply always_ret].
  apply always_try_except_json; [|intros e; apply always_ret].
  apply always_bind; [apply always_lift|intros d].
  apply always_run_command.
Qed.

End Always.

Lemma same_rows_refl (w : world) : same_rows w w.
Proof. split; reflexivity. Qed.

Lemma same_rows_trans (w1 w2 w3 : world) :
  same_rows w1 w2 -> same_rows w2 w3 -> same_rows w1 w3.
Proof. unfold same_rows. intros [A1 B1] [A2 B2]. split; congruence. Qed.








Lemma same_rows_fetch_sales : always same_rows fetch_sales.
Proof.
  intros w out w' H. destruct (db_fault w) as [e|] eqn:Hf.
  - rewrite (@fetch_sales_down _ _ Hf) in H. inversion H. split; reflexivity.
  - rewrite (@fetch_sales_up _ Hf) in H. inversion H. split; reflexivity.
Qed.

Lemma eq_str_true (v : value) (t : string) : eq_str v t = true -> v = VStr t.
Proof.
  destruct v; try discriminate. simpl. intros H.
  apply String.eqb_eq in H. congruence.
Qed.

(** Only the two writing commands can change the rows. *)
Lemma run_command_rows (id_matches : string -> result (Z -> bool)) (response_data : value)
    (w w' : world) (out : result response) :
  run_command id_matches response_data w = (out, w') ->
  same_rows w w' \/
  get response_data "action" = Ok (VStr "add_sale") \/
  get response_data "action" = Ok (VStr "remove_sale").
Proof.
  intros H. unfold run_command in H. cbv zeta in H.
  destruct response_data as [| | | | | |d|];
    try (inversion H; left; apply same_rows_refl).
  unfold bind at 1, lift at 1, get, get_default in H. cbv beta iota in H.
  unfold get, get_default.
  remember (match lookup d "action" with Some x => x | None => VNone end) as a.
  destruct (eq_str a "add_sale") eqn:E1;
    [apply eq_str_true in E1; subst a; rewrite E1; auto|].
  destruct (eq_str a "get_summary") eqn:E2.
  { left. revert H.
    apply (@always_bind _ same_rows_trans); [apply same_rows_fetch_sales|].
    intros sales.
    apply (@always_bind _ same_rows_trans);
      [apply (@always_lift _ same_rows_refl)|].
    intros sm.
    apply (@always_bind _ same_rows_trans);
      [apply (@always_lift _ same_rows_refl)|].
    intros m. apply (@always_ret _ same_rows_refl). }
  destruct (eq_str a "remove_sale") eqn:E3;
    [apply eq_str_true in E3; subst a; rewrite E3; auto|].
  left. destruct (eq_str a "convert_currency"); inversion H; apply same_rows_refl.
Qed.

(** The [add_sale] branch of the dispatch. *)
Lemma run_command_add (id_matches : string -> result (Z -> bool))
    (response_data item_name quantity price : value) (w : world) :
  get response_data "action" = Ok (VStr "add_sale") ->
  get response_data "item_name" = Ok item_name ->
  get response_data "quantity" = Ok quantity ->
  get response_data "price" = Ok price ->
  run_command id_matches response_data w
  = (if truthy item_name && is_not_none quantity && is_not_none price then
       sale <- insert_sale item_name quantity price ;;
       message <- lift (get_default response_data "message"
                          (VStr (glyph_done ++ " Sale added successfully!"))) ;;
       ret (envelope (JValue message) "sale_added" [])
     else
       message <- lift (get_default response_data "message"
                          (VStr "I'm not sure how to respond to that.")) ;;
       ret (envelope (JValue message) "chat" [])) w.
Proof.
  intros Ha Hi Hq Hp. unfold run_command. cbv zeta.
  unfold bind at 1. unfold lift at 1. rewrite Ha.
  change (eq_str (VStr "add_sale") "add_sale") with true. cbv beta iota.
  unfold bind at 1. unfold lift at 1. rewrite Hi.
  unfold bind at 1. unfold lift at 1. rewrite Hq.
  unfold bind at 1. unfold lift at 1. rewrite Hp.
  reflexivity.
Qed.

(** Either the request carries a non-empty text and a credential is
    configured, or the endpoint leaves the world untouched. *)
Lemma ai_assistant_asks_or_not (id_matches : string -> result (Z -> bool))
    (GEMINI_API_KEY : option string) (persona : string)
    (generate_content : string -> result string)
    (json_loads : string -> result value) (request_json : value) (w : world) :
  (exists text,
     get request_json "user_text" = Ok (VStr text) /\ text <> "" /\
     key_configured GEMINI_API_KEY = true)
  \/
  (snd (ai_assistant id_matches GEMINI_API_KEY persona generate_content
                     json_loads request_json w) = w /\
   ((exists e, get request_json "user_text" = Raise e /\
               fst (ai_assistant id_matches GEMINI_API_KEY persona
                                 generate_content json_loads request_json w)
               = Raise e) \/
    (exists v, get request_json "user_text" = Ok v /\
               (truthy v = false \/ key_configured GEMINI_API_KEY = false) /\
               exists r, fst (ai_assistant id_matches GEMINI_API_KEY persona
                                generate_content json_loads request_json w)
                         = Ok r) \/
    (exists v e, get request_json "user_text" = Ok v /\
                 truthy v = true /\ key_configured GEMINI_API_KEY = true /\
                 is_str v = false /\ concat_str persona v = Raise e /\
                 fst (ai_assistant id_matches GEMINI_API_KEY persona
                                   generate_content json_loads request_json w)
                 = Raise e))).
Proof.
  destruct (get request_json "user_text") as [user_text|e] eqn:Hget.
  2:{ right. unfold ai_assistant, bind, lift. rewrite Hget.
      split; [reflexivity|]. left. exists e. auto. }
  destruct (truthy user_text) eqn:Ht.
  2:{ right. unfold ai_assistant, bind, lift. rewrite Hget, Ht.
      split; [reflexivity|]. right; left. exists user_text.
      split; [reflexivity|]. split; [auto|]. eexists; reflexivity. }
  destruct (key_configured GEMINI_API_KEY) eqn:Hkey.
  2:{ right. unfold ai_assistant, bind, lift. rewrite Hget, Ht, Hkey.
      split; [reflexivity|]. right; left. exists user_text.
      split; [reflexivity|]. split; [auto|]. eexists; reflexivity. }
  destruct (is_str user_text) eqn:Hs.
  - left. destruct user_text as [| | | |text| | |]; try discriminate.
    exists text. split; [reflexivity|]. split; [|reflexivity].
    intros ->. discriminate.
  - right. unfold ai_assistant, bind, lift. rewrite Hget, Ht, Hkey.
    destruct user_text; try discriminate;
      (split; [reflexivity|]; right; right; do 2 eexists;
       repeat (split; [first [reflexivity|assumption]|]); reflexivity).
Qed.


End InterpreterMore.

Module FenceFacts.
Import Priority.

Lemma lstrip_app (l r : chars) (x : ascii) :
  is_space x = false -> lstrip (l ++ x :: r) = lstrip l ++ x :: r.
Proof.
  intros Hx. induction l as [|a l IH]; simpl; [rewrite Hx; reflexivity|].
  destruct (is_space a); [exact IH|reflexivity].
Qed.

Lemma lstrip_suffix (s : chars) : exists dropped, s = dropped ++ lstrip s.
Proof.
  induction s as [|a s IH]; simpl; [exists []; reflexivity|].
  destruct (is_space a); [|exists []; reflexivity].
  destruct IH as [d Hd]. exists (a :: d). simpl. f_equal. exact Hd.
Qed.

Lemma lstrip_in (a : ascii) (s : chars) : In a (lstrip s) -> In a s.
Proof.
  destruct (lstrip_suffix s) as [d Hd]. intros H. rewrite Hd.
  apply in_or_app. right. exact H.
Qed.

Lemma strip_chars_in (a : ascii) (s : chars) : In a (strip_chars s) -> In a s.
Proof.
  unfold strip_chars. intros H.
  apply in_rev, lstrip_in, in_rev, lstrip_in in H. exact H.
Qed.

(** Stripping a text whose middle begins and ends with a character that is
    not whitespace touches only what is before and after the middle. *)
Lemma strip_chars_around (l m t : chars) (x y : ascii) :
  is_space x = false -> is_space y = false ->
  strip_chars (l ++ (x :: m ++ [y]) ++ t)
  = lstrip l ++ (x :: m ++ [y]) ++ rev (lstrip (rev t)).
Proof.
  intros Hx Hy. unfold strip_chars. simpl.
  rewrite (@lstrip_app l ((m ++ [y]) ++ t) x Hx).
  assert (E : rev (lstrip l ++ x :: (m ++ [y]) ++ t)
              = rev t ++ y :: rev (lstrip l ++ x :: m)).
  { replace (lstrip l ++ x :: (m ++ [y]) ++ t)
      with (((lstrip l ++ x :: m) ++ [y]) ++ t)
      by (rewrite <- !app_assoc; reflexivity).
    rewrite rev_app_distr, rev_app_distr. reflexivity. }
  rewrite E, (@lstrip_app (rev t) (rev (lstrip l ++ x :: m)) y Hy).
  rewrite rev_app_distr. simpl. rewrite rev_involutive.
  repeat (rewrite <- app_assoc; simpl). reflexivity.
Qed.

(** The pattern cannot start at a character that is not a backtick. *)
Lemma fence_pattern_needs_backtick (a : ascii) (s : chars) :
  a <> backtick -> match_here fence_pattern (a :: s) = None.
Proof.
  intros Ha. unfold match_here, fence_pattern. simpl.
  destruct ((code a =? code backtick)%nat) eqn:E.
  - apply Nat.eqb_eq in E. exfalso. apply Ha. apply code_inj. exact E.
  - change (code backtick) with (code "`"%char) in E. rewrite E. reflexivity.
Qed.

Lemma search_skips (lead s : chars) :
  free_of backtick lead ->
  search fence_pattern (lead ++ s) = search fence_pattern s.
Proof.
  unfold free_of. induction lead as [|a lead IH]; intros Hfree; [reflexivity|].
  simpl app. cbn [search]. rewrite fence_pattern_needs_backtick.
  - apply IH. intros H. apply Hfree. right. exact H.
  - intros ->. apply Hfree. left. reflexivity.
Qed.

Lemma search_without_backtick (s : chars) :
  free_of backtick s -> search fence_pattern s = None.
Proof.
  intros H. rewrite <- (app_nil_r s), (@search_skips s [] H). reflexivity.
Qed.

(** A text that begins with the closing fence after some characters of a
    block holds the closing fence inside the block. *)
Lemma closing_not_early (u1 u2 tail rest : chars) :
  u2 <> [] ->
  u2 ++ closing ++ tail = closing ++ rest ->
  occurs_in closing (u1 ++ u2).
Proof.
  intros Hne E. unfold closing in *. simpl in *.
  destruct u2 as [|a [|b [|c [|d u2]]]]; simpl in E;
    try (inversion E; fail); [congruence|].
  inversion E; subst. exists u1, u2. reflexivity.
Qed.

Lemma block_is_group_1 (block tail : chars) :
  ~ occurs_in closing block ->
  match_here fence_pattern (opening ++ block ++ closing ++ tail)
  = Some [(1%nat, block)].
Proof.
  intros Hfree. unfold match_here, fence_pattern.
  change (list_ascii_of_string ("json" ++ newline))
    with (list_ascii_of_string ("json" ++ newline)).
  replace (opening ++ block ++ closing ++ tail)
    with (list_ascii_of_string fence
          ++ list_ascii_of_string ("json" ++ newline) ++ block ++ closing ++ tail)
    by reflexivity.
  cbn [rmatch]. rewrite rmatch_str. rewrite rmatch_str. cbn [rmatch].
  match goal with
  | |- match ?m with _ => _ end = _ =>
      assert (Hrest : m = Some [(1%nat, block)])
  end.
  { apply star_lazy_shortest.
    - clear. induction block; simpl; auto.
    - intros u1 u2 E Hne.
      match goal with |- ?m = None => destruct m as [x|] eqn:Hm; [|reflexivity] end.
      apply rmatch_str_inv in Hm as (t & Ht & _).
      exfalso. apply Hfree. rewrite E.
      apply (@closing_not_early u1 u2 tail t Hne Ht).
    - fold closing. rewrite rmatch_str. rewrite firstn_consumed. reflexivity. }
  rewrite Hrest. reflexivity.
Qed.

Lemma no_newline_no_closing (block : chars) :
  free_of (ascii_of_nat 10) block -> ~ occurs_in closing block.
Proof.
  intros Hfree (pre & post & E). apply Hfree. rewrite E.
  apply in_or_app. right. left. reflexivity.
Qed.

Lemma strip_fenced_reply (lead block tail : chars) :
  list_ascii_of_string (strip (fenced_reply lead block tail))
  = lstrip lead ++ opening ++ block ++ closing ++ rev (lstrip (rev tail)).
Proof.
  unfold strip, fenced_reply.
  rewrite !list_ascii_of_string_of_list_ascii.
  pose (m := list_ascii_of_string ("``json" ++ newline) ++ block
             ++ list_ascii_of_string (newline ++ "``")).
  assert (E : forall t, opening ++ block ++ closing ++ t
                        = (backtick :: m ++ [backtick]) ++ t).
  { intros t. unfold m, opening, closing. simpl.
    repeat (rewrite <- app_assoc; simpl). reflexivity. }
  rewrite !E. apply strip_chars_around; reflexivity.
Qed.

Lemma fenced_reply_block (lead block tail : chars) :
  free_of backtick lead ->
  ~ occurs_in closing block ->
  search fence_pattern (list_ascii_of_string (strip (fenced_reply lead block tail)))
  = Some [(1%nat, block)].
Proof.
  intros Hlead Hblock. rewrite strip_fenced_reply, search_skips.
  - apply search_here, block_is_group_1. exact Hblock.
  - intros H. apply Hlead. apply lstrip_in. exact H.
Qed.

End FenceFacts.

(** ** The properties *)

Import Priority ParserMore SentenceFacts AnalyticsMore StoreMore InterpreterMore FenceFacts.

(** X1. On an ASCII text [parse_sales_input] has three outcomes: three
    [None]s; an item that is a non-empty run of word characters with no
    upper-case letter, a quantity that is not negative and a price that is a
    float not below zero or positive infinity; or the [ValueError] that
    [int] raises for an integer token of more than 4300 digits. *)
Theorem parse_sales_input_components :
  forall text : string,
    ascii_text text ->
    parse_sales_input (VStr text) = Ok (VNone, VNone, VNone) \/
    (exists (item : chars) (quantity : Z) (price : value),
       parse_sales_input (VStr text)
         = Ok (VStr (string_of_list_ascii item), VInt quantity, price) /\
       item <> [] /\
       Forall (fun a => is_word a = true /\ is_upper a = false) item /\
       (0 <= quantity)%Z /\
       ((exists p, price = VFloat p /\ 0 <= p) \/ price = VNonFinite PosInf)) \/
    (exists qty : chars,
       token Digit qty /\ (int_max_str_digits < List.length qty)%nat /\
       parse_sales_input (VStr text) = Raise (too_many_digits qty)).
Proof.
  intros text _.
  destruct (parse_sales_input_cases text)
    as [[H _]|(pre & qty & item & prc & price & Hshape & _ & _ & _ & Hpos & H)];
    [left; exact H|right].
  destruct Hshape as (ws & mid & cur & post & E & Hqty & _ & [Hne Hrun] & _).
  destruct (Nat.leb_spec (List.length qty) int_max_str_digits) as [Hlen|Hlen].
  2:{ right. exists qty. auto. }
  left. exists item, (digits_value qty), (value_of_float (float_nearest price)).
  split; [exact H|].
  split; [exact Hne|].
  split.
  - unfold lower in E. rewrite list_ascii_of_string_of_list_ascii in E.
    replace (pre ++ qty ++ ws ++ item ++ mid ++ cur ++ prc ++ post)
      with ((pre ++ qty ++ ws) ++ item ++ (mid ++ cur ++ prc ++ post)) in E
      by (rewrite <- !app_assoc; reflexivity).
    apply map_eq_app in E as (b' & rest & _ & _ & Hrest).
    apply map_eq_app in Hrest as (p' & a' & _ & Hp & _).
    unfold run in Hrun. rewrite forallb_forall in Hrun.
    apply Forall_forall. intros a Ha. split; [apply (Hrun a Ha)|].
    rewrite <- Hp in Ha. apply in_map_iff in Ha as (b & <- & _).
    apply lower_char_not_upper.
  - split; [apply digits_value_nonneg|].
    pose proof (float_nearest_nonneg Hpos) as Hf.
    destruct (float_nearest price) as [p|f]; simpl.
    + left. exists p. auto.
    + right. congruence.
Qed.

(** "Sold 3 Eggs for $5" is ASCII text. *)
Lemma parse_sales_input_components_witness :
  ascii_text "Sold 3 Eggs for $5" /\
  (parse_sales_input (VStr "Sold 3 Eggs for $5") = Ok (VNone, VNone, VNone) \/
   (exists (item : chars) (quantity : Z) (price : value),
      parse_sales_input (VStr "Sold 3 Eggs for $5")
        = Ok (VStr (string_of_list_ascii item), VInt quantity, price) /\
      item <> [] /\
      Forall (fun a => is_word a = true /\ is_upper a = false) item /\
      (0 <= quantity)%Z /\
      ((exists p, price = VFloat p /\ 0 <= p) \/ price = VNonFinite PosInf)) \/
   (exists qty : chars,
      token Digit qty /\ (int_max_str_digits < List.length qty)%nat /\
      parse_sales_input (VStr "Sold 3 Eggs for $5") = Raise (too_many_digits qty))).
Proof.
  assert (H : ascii_text "Sold 3 Eggs for $5")
    by (repeat constructor).
  split; [exact H|].
  exact (@parse_sales_input_components "Sold 3 Eggs for $5" H).
Defined.

(** X2. [parse_sales_input] reads a text and its lower-cased form
    alike: lower-casing is idempotent, so nothing of the result depends on
    the case of the input. *)
Theorem parse_sales_input_ignores_case :
  forall text : string,
    parse_sales_input (VStr (lower text)) = parse_sales_input (VStr text).
Proof.
  intros text. unfold parse_sales_input. rewrite lower_idempotent. reflexivity.
Qed.

(** X3. On an ASCII text that, lower-cased, reads: no digit, then an
    integer of at most 4300 digits, whitespace, a word followed by a
    character that is not a word character, text without digit, dollar sign
    or newline, an optional dollar sign and a decimal number that the
    following text cannot extend, [parse_sales_input] returns exactly that
    word, the value of that integer and the float nearest to that decimal
    number (positive infinity when it is too large for a float). *)
Theorem parse_sales_input_reads_the_sentence :
  forall (text : string) (pre qty ws item mid cur i frac post : chars),
  ascii_text text ->
  list_ascii_of_string (lower text)
    = pre ++ qty ++ ws ++ item ++ mid ++ cur ++ (i ++ frac) ++ post ->
  Forall (fun a => is_digit a = false) pre ->
  token Digit qty -> (List.length qty <= int_max_str_digits)%nat ->
  token Space ws -> token Word item ->
  stops Word (mid ++ cur ++ i) ->
  Forall filler mid ->
  cur = [] \/ cur = ["$"%char] ->
  token Digit i -> fraction frac post -> stops Digit post ->
  exists price,
    decimal_value (i ++ frac) = Some price /\
    parse_sales_input (VStr text)
      = Ok (VStr (string_of_list_ascii item), VInt (digits_value qty),
            value_of_float (float_nearest price)).
Proof.
  intros text pre qty ws item mid cur i frac post _ E
         Hpre Hqty Hlen Hws Hitem Hafter Hmid Hcur Hi Hfrac Hpost.
  destruct (py_float_decimal (@fraction_decimal i frac post Hi Hfrac))
    as (price & Hvalue & _ & Hprice).
  exists price. split; [exact Hvalue|].
  unfold parse_sales_input. rewrite E.
  rewrite (@sentence_search pre qty ws item mid cur i frac post
             Hpre Hqty Hws Hitem Hafter Hmid Hcur Hi Hfrac Hpost).
  change (group_text [(3, i ++ frac); (2, item); (1, qty)]%nat 1) with qty.
  change (group_text [(3, i ++ frac); (2, item); (1, qty)]%nat 2) with item.
  change (group_text [(3, i ++ frac); (2, item); (1, qty)]%nat 3) with (i ++ frac).
  rewrite (py_int_token Hqty Hlen), Hprice. reflexivity.
Qed.

(** "Sold 3 Eggs for $5.50 today" is read as eggs, 3, 5.5. *)
Lemma parse_sales_input_reads_the_sentence_witness :
  parse_sales_input (VStr "Sold 3 Eggs for $5.50 today")
  = Ok (VStr "eggs", VInt 3, VFloat (11 # 2)).
Proof.
  destruct (@parse_sales_input_reads_the_sentence
              "Sold 3 Eggs for $5.50 today"
              (list_ascii_of_string "sold ") (list_ascii_of_string "3")
              (list_ascii_of_string " ") (list_ascii_of_string "eggs")
              (list_ascii_of_string " for ") (list_ascii_of_string "$")
              (list_ascii_of_string "5") (list_ascii_of_string ".50")
              (list_ascii_of_string " today")
              ltac:(repeat constructor)
              eq_refl
              ltac:(repeat constructor)
              ltac:(split; [discriminate|reflexivity])
              ltac:(apply Nat.leb_le; reflexivity)
              ltac:(split; [discriminate|reflexivity])
              ltac:(split; [discriminate|reflexivity])
              eq_refl
              ltac:(repeat (constructor;
                            [split; [reflexivity|split; [reflexivity|discriminate]]|]);
                    constructor)
              ltac:(right; reflexivity)
              ltac:(split; [discriminate|reflexivity])
              ltac:(right; exists (list_ascii_of_string "50"); split; reflexivity)
              eq_refl)
    as (price & Hprice & Hrun).
  vm_compute in Hprice. inversion Hprice; subst price.
  rewrite Hrun. vm_compute. reflexivity.
Defined.

(** X4. [compute_summary] never fails, and its three counts agree: the
    units per hour summed over the 24 hours, the units per item summed over
    the items, and [total_sales_count] are all the total of the quantities. *)
Theorem compute_summary_adds_up :
  forall sales : list sale,
  exists sm,
    compute_summary sales = Ok sm /\
    values_total (hourly_sales sm) = total_sales_count sm /\
    values_total (items_sold sm) = total_sales_count sm /\
    total_sales_count sm = units_of sales.
Proof.
  intros [|s rest].
  - eexists. split; [reflexivity|]. repeat split; reflexivity.
  - set (sales := s :: rest).
    destruct (count_hours_ok sales) as (d & E & _).
    unfold compute_summary. fold sales.
    change (match sales with [] => ?a | _ :: _ => ?b end) with b.
    rewrite E. eexists. split; [reflexivity|].
    cbn [hourly_sales items_sold total_sales_count].
    rewrite sum_Z_units.
    split; [rewrite (count_hours_total _ _ E); reflexivity|].
    split; [|reflexivity].
    unfold count_items. rewrite count_items_total_from. reflexivity.
Qed.

(** X5. The keys of [items_sold] are the distinct item names of the
    sales, each once, in the order of their first occurrence. *)
Theorem items_sold_keys :
  forall sales : list sale,
  exists sm,
    compute_summary sales = Ok sm /\
    map fst (items_sold sm) = first_seen (map item_name sales) /\
    NoDup (map fst (items_sold sm)) /\
    (forall name, In name (map fst (items_sold sm))
                  <-> In name (map item_name sales)).
Proof.
  intros sales.
  assert (Hkeys : map fst (count_items sales) = first_seen (map item_name sales)).
  { unfold count_items, first_seen. apply (count_items_keys_from sales []). }
  destruct (@first_seen_from (map item_name sales) [] (NoDup_nil _)) as [Hnd Hin].
  fold (first_seen (map item_name sales)) in Hnd, Hin.
  destruct sales as [|s rest].
  - eexists. split; [reflexivity|]. simpl.
    split; [reflexivity|]. split; [constructor|tauto].
  - set (sales := s :: rest) in *.
    destruct (count_hours_ok sales) as (d & E & _).
    unfold compute_summary. fold sales.
    change (match sales with [] => ?a | _ :: _ => ?b end) with b.
    rewrite E. eexists. split; [reflexivity|]. cbn [items_sold].
    rewrite Hkeys. split; [reflexivity|]. split; [exact Hnd|].
    intros name. rewrite Hin. simpl. tauto.
Qed.

(** X6. The counts of the summary do not depend on the order of the
    rows: for two orderings of the same sales the count, the units of every
    item, the best-selling quantity and the units of every hour are the same.
    The revenue does depend on it, since every addition is rounded to 28
    digits: 1E27 + 0.4 + 0.4 is 1E27, and 0.4 + 0.4 + 1E27 is 1E27 + 1. *)
Theorem compute_summary_order_independent :
  (forall sales sales' : list sale,
   Permutation sales sales' ->
   exists sm sm',
     compute_summary sales = Ok sm /\ compute_summary sales' = Ok sm' /\
     total_sales_count sm = total_sales_count sm' /\
     (forall name, lookup (items_sold sm) name = lookup (items_sold sm') name) /\
     best_selling_quantity sm = best_selling_quantity sm' /\
     (forall h, (h < 24)%nat ->
        hour_get (hourly_sales sm) h = hour_get (hourly_sales sm') h)) /\
  (exists sm sm',
     compute_summary
       [Sale 1 "gold" 1 (inject_Z (10 ^ 27)) (clock 9 0);
        Sale 2 "kuih" 1 (4 # 10) (clock 9 0);
        Sale 3 "kuih" 1 (4 # 10) (clock 9 0)] = Ok sm /\
     compute_summary
       [Sale 3 "kuih" 1 (4 # 10) (clock 9 0);
        Sale 2 "kuih" 1 (4 # 10) (clock 9 0);
        Sale 1 "gold" 1 (inject_Z (10 ^ 27)) (clock 9 0)] = Ok sm' /\
     total_revenue sm = inject_Z (10 ^ 27) /\
     total_revenue sm' = inject_Z (10 ^ 27 + 1)).
Proof.
  split.
  2:{ do 2 eexists. split; [reflexivity|]. split; [reflexivity|].
      split; vm_compute; reflexivity. }
  intros sales sales' Hperm.
  destruct (summary_figures sales)
    as (sm & E & Hcnt & Hitems & Hnd & Hbest & Hhours & _).
  destruct (summary_figures sales')
    as (sm' & E' & Hcnt' & Hitems' & Hnd' & Hbest' & Hhours' & _).
  exists sm, sm'. split; [exact E|]. split; [exact E'|].
  assert (Hlookup : forall name,
            lookup (items_sold sm) name = lookup (items_sold sm') name).
  { intros name. rewrite Hitems, Hitems'.
    pose proof (filter_perm (fun s => (item_name s =? name)%string) Hperm) as Hf.
    fold (sold_as name sales) (sold_as name sales') in Hf.
    destruct (sold_as name sales) as [|a l] eqn:Ea;
      destruct (sold_as name sales') as [|a' l'] eqn:Ea'.
    - reflexivity.
    - apply Permutation_nil in Hf. discriminate.
    - symmetry in Hf. apply Permutation_nil in Hf. discriminate.
    - f_equal. apply units_of_perm. exact Hf. }
  assert (Hin : forall e, In e (items_sold sm) <-> In e (items_sold sm')).
  { intros [k v]. split; intros H.
    - apply lookup_in. rewrite <- Hlookup. apply in_lookup; assumption.
    - apply lookup_in. rewrite Hlookup. apply in_lookup; assumption. }
  split; [rewrite Hcnt, Hcnt'; apply units_of_perm; exact Hperm|].
  split; [exact Hlookup|].
  split.
  { destruct Hbest as [[He Hq]|(b & Hb & _ & Hmax)];
      destruct Hbest' as [[He' Hq']|(b' & Hb' & _ & Hmax')].
    - congruence.
    - apply Hin in Hb'. rewrite He in Hb'. destruct Hb'.
    - apply Hin in Hb. rewrite He' in Hb. destruct Hb.
    - apply Hin in Hb. apply Hmax' in Hb.
      apply Hin in Hb'. apply Hmax in Hb'. simpl in *. lia. }
  intros h Hh. rewrite (Hhours h Hh), (Hhours' h Hh). f_equal.
  apply units_of_perm. apply filter_perm. exact Hperm.
Qed.

(** The ledger of the example and its reverse. *)
Lemma compute_summary_order_independent_witness :
  exists sm sm',
    compute_summary (ledger two_sales) = Ok sm /\
    compute_summary (rev (ledger two_sales)) = Ok sm' /\
    total_sales_count sm = total_sales_count sm' /\
    best_selling_quantity sm = best_selling_quantity sm'.
Proof.
  destruct (proj1 compute_summary_order_independent
              (ledger two_sales) (rev (ledger two_sales))
              (Permutation_rev (ledger two_sales)))
    as (sm & sm' & E & E' & Hcnt & _ & Hbest & _).
  exists sm, sm'. auto.
Defined.

(** X7. [recent_sales] shows min(5, n) sales, newest first, and no
    sale it leaves out is newer than one it shows. *)
Theorem recent_sales_are_the_newest :
  forall sales : list sale,
  exists sm shown hidden,
    compute_summary sales = Ok sm /\
    Permutation (shown ++ hidden) sales /\
    recent_sales sm = map recent_of shown /\
    List.length (recent_sales sm) = Nat.min 5 (List.length sales) /\
    StronglySorted no_older shown /\
    (forall a b, In a shown -> In b hidden -> no_older a b).
Proof.
  intros sales.
  destruct (summary_figures sales) as (sm & E & _ & _ & _ & _ & _ & Hrecent).
  exists sm, (firstn 5 (newest_first sales)), (skipn 5 (newest_first sales)).
  pose proof (newest_first_sorted sales) as Hsorted.
  rewrite <- (firstn_skipn 5 (newest_first sales)) in Hsorted.
  split; [exact E|].
  split; [rewrite firstn_skipn; apply newest_first_perm|].
  split; [exact Hrecent|].
  split.
  { rewrite Hrecent, length_map, length_firstn.
    rewrite (Permutation_length (newest_first_perm sales)). reflexivity. }
  split.
  { clear - Hsorted.
    induction (firstn 5 (newest_first sales)) as [|x l IH]; [constructor|].
    simpl in Hsorted. inversion Hsorted as [|? ? Hs Hall]; subst.
    constructor; [apply IH; exact Hs|].
    rewrite Forall_forall in *. intros y Hy. apply Hall. apply in_app_iff. auto. }
  apply sorted_app_order. exact Hsorted.
Qed.

(** X8. While the datastore answers, [delete_sale] with an identifier
    that lower-cases to "all" ("all", "All", "ALL", ...) empties the ledger and
    reports how many rows there were; the route answers 200, and the id
    sequence is not reset. *)
Theorem delete_all_in_any_spelling :
  forall (id_matches : string -> result (Z -> bool)) (sale_id : string) (w : world),
  lower sale_id = "all" ->
  db_fault w = None ->
  exists w',
    delete_sale id_matches (VStr sale_id) w
      = (Ok (DeletedAll "All sales have been deleted" (List.length (ledger w))), w') /\
    ledger w' = [] /\ next_id w' = next_id w /\
    exists w'',
      delete_sale_route id_matches sale_id w
        = (Ok (Response [("status", JText "success");
                         ("message", JText "All sales have been deleted")] 200),
           w'') /\
      ledger w'' = [] /\ next_id w'' = next_id w.
Proof.
  intros idm sid w Hall Hup.
  assert (E : delete_sale idm (VStr sid) w
              = (Ok (DeletedAll "All sales have been deleted"
                                (List.length (ledger w))),
                 with_ledger [] (contact Datastore w))).
  { unfold delete_sale. rewrite (@with_connection_up _ _ _ Hup), Hall. reflexivity. }
  eexists. split; [exact E|]. split; [reflexivity|]. split; [reflexivity|].
  unfold delete_sale_route, try_except, bind. rewrite E.
  eexists. split; [reflexivity|]. split; reflexivity.
Qed.

(** DELETE /api/sales/All on the ledger of the example. *)
Lemma delete_all_in_any_spelling_witness :
  exists w',
    delete_sale_route decimal_id "All" two_sales
      = (Ok (Response [("status", JText "success");
                       ("message", JText "All sales have been deleted")] 200),
         w') /\
    ledger w' = [] /\ next_id w' = 3%Z.
Proof.
  destruct (@delete_all_in_any_spelling decimal_id "All" two_sales eq_refl eq_refl)
    as (_ & _ & _ & _ & w'' & H).
  exists w''. exact H.
Defined.

(** X9. While the datastore answers, [delete_sale] with any other text
    depends on how the datastore reads the text as an id.  When it reads it,
    exactly the rows whose id matches are removed: one of them is returned,
    which is then gone, or none was found and the ledger is as it was.  When
    the datastore rejects the text, [delete_sale] raises that error and the
    ledger is as it was. *)
Theorem delete_by_id_removes_the_matches :
  forall (id_matches : string -> result (Z -> bool)) (sale_id : string) (w : world),
  lower sale_id <> "all" ->
  db_fault w = None ->
  match id_matches sale_id with
  | Ok matches =>
      exists out w',
        delete_sale id_matches (VStr sale_id) w = (Ok out, w') /\
        ledger w' = filter (fun r => negb (matches (id r))) (ledger w) /\
        next_id w' = next_id w /\
        match out with
        | DeletedOne message row =>
            message = ("Sale #" ++ sale_id ++ " has been deleted")%string /\
            In row (ledger w) /\ matches (id row) = true /\
            ~ In row (ledger w')
        | NotFound error =>
            error = ("No sale found with ID " ++ sale_id)%string /\
            ledger w' = ledger w
        | DeletedAll _ _ => False
        end
  | Raise e =>
      exists w',
        delete_sale id_matches (VStr sale_id) w = (Raise e, w') /\
        ledger w' = ledger w /\ next_id w' = next_id w
  end.
Proof.
  intros idm sid w Hall Hup. apply String.eqb_neq in Hall.
  rewrite (@delete_sale_up idm sid w Hup), Hall.
  destruct (idm sid) as [matches|e].
  2:{ eexists. split; [reflexivity|]. split; reflexivity. }
  cbv zeta.
  destruct (filter (fun r => matches (id r)) (ledger w)) as [|row hits] eqn:Hhits.
  - do 2 eexists. split; [reflexivity|]. simpl.
    split; [reflexivity|]. split; [reflexivity|]. split; [reflexivity|].
    apply filter_none_keeps_all. exact Hhits.
  - do 2 eexists. split; [reflexivity|]. simpl.
    split; [reflexivity|]. split; [reflexivity|]. split; [reflexivity|].
    assert (Hrow : In row (filter (fun r => matches (id r)) (ledger w)))
      by (rewrite Hhits; left; reflexivity).
    apply filter_In in Hrow as [Hin Hm].
    split; [exact Hin|]. split; [exact Hm|].
    intros Hkept. apply filter_In in Hkept as [_ Hk]. rewrite Hm in Hk. discriminate.
Qed.

(** Deleting sale 2 of the example. *)
Lemma delete_by_id_removes_the_matches_witness :
  exists w',
    delete_sale decimal_id (VStr "2") two_sales
      = (Ok (DeletedOne "Sale #2 has been deleted"
                        (Sale 2 "milk" 1 (3 # 1) (clock 14 0))), w') /\
    ledger w' = [Sale 1 "eggs" 3 (2 # 1) (clock 10 0)].
Proof.
  pose proof (@delete_by_id_removes_the_matches decimal_id "2" two_sales
                ltac:(vm_compute; discriminate) eq_refl) as H.
  change (decimal_id "2") with (Ok (Z.eqb 2) : result (Z -> bool)) in H.
  destruct H as (out & w' & Hrun & Hledger & _ & _).
  exists w'. split; [|exact Hledger].
  rewrite Hrun. f_equal. f_equal.
  vm_compute in Hrun. inversion Hrun. reflexivity.
Defined.

(** X10. Deleting the row that [insert_sale] has just returned, by its
    id, gives back that row and the ledger as it was before the insertion;
    only the id sequence has moved on. *)
Theorem insert_then_delete_restores :
  forall (id_matches : string -> result (Z -> bool)) (sale_id item : string)
         (qty : Z) (prc : Q) (w : world),
  db_fault w = None ->
  ids_below w ->
  lower sale_id <> "all" ->
  (exists matches, id_matches sale_id = Ok matches /\
                   forall n, matches n = (n =? next_id w)%Z) ->
  exists row w1 w2,
    insert_sale (VStr item) (VInt qty) (VFloat prc) w = (Ok row, w1) /\
    delete_sale id_matches (VStr sale_id) w1
      = (Ok (DeletedOne ("Sale #" ++ sale_id ++ " has been deleted") row), w2) /\
    ledger w2 = ledger w /\
    next_id w2 = (next_id w + 1)%Z.
Proof.
  intros idm sid item qty prc w Hup Hbelow Hall (matches & Hread & Hid).
  rewrite (@insert_sale_up _ _ _ _ Hup). simpl.
  do 3 eexists. split; [reflexivity|].
  apply String.eqb_neq in Hall.
  unfold delete_sale. rewrite with_connection_up by (simpl; exact Hup).
  rewrite Hall, Hread. simpl.
  assert (Hold : forall r, In r (ledger w) -> matches (id r) = false).
  { intros r Hr. rewrite Hid. apply Z.eqb_neq.
    unfold ids_below in Hbelow. rewrite Forall_forall in Hbelow.
    specialize (Hbelow r Hr). simpl in Hbelow. lia. }
  rewrite !filter_app. simpl. rewrite (Hid (next_id w)), Z.eqb_refl. simpl.
  destruct (filter_no_match (fun r => matches (id r)) (ledger w) Hold) as [-> ->].
  simpl. split; [reflexivity|]. simpl. split; [apply app_nil_r|reflexivity].
Qed.

(** Inserting into the example and deleting sale 3. *)
Lemma insert_then_delete_restores_witness :
  exists row w1 w2,
    insert_sale (VStr "kuih") (VInt 4) (VFloat (1 # 2)) two_sales = (Ok row, w1) /\
    delete_sale decimal_id (VStr "3") w1
      = (Ok (DeletedOne "Sale #3 has been deleted" row), w2) /\
    ledger w2 = ledger two_sales /\
    next_id w2 = 4%Z.
Proof.
  apply (@insert_then_delete_restores decimal_id "3" "kuih" 4 (1 # 2) two_sales).
  - reflexivity.
  - repeat constructor.
  - vm_compute. discriminate.
  - exists (Z.eqb 3). split; [reflexivity|]. intros n. apply Z.eqb_sym.
Defined.

(** X11. When the datastore cannot be reached, each of the four REST
    routes answers with status 500 and the text of the exception, and the
    ledger is untouched. *)
Theorem datastore_failure_is_answered_with_500 :
  forall (id_matches : string -> result (Z -> bool)) (e : exn) (w : world)
         (sale_id : string) (data : list (string * value))
         (item_name quantity price : value),
  db_fault w = Some e ->
  lookup data "item_name" = Some item_name ->
  lookup data "quantity" = Some quantity ->
  lookup data "price" = Some price ->
  let w' := contact Datastore w in
  ledger w' = ledger w /\ next_id w' = next_id w /\
  delete_sale_route id_matches sale_id w
    = (Ok (Response [("status", JText "error"); ("message", JText (exn_str e))] 500),
       w') /\
  add_sale data w = (Ok (Response [("error", JText (exn_str e))] 500), w') /\
  get_analytics w
    = (Ok (Response [("success", JBool false); ("error", JText (exn_str e))] 500),
       w') /\
  get_sales w = (Ok (Failed (exn_str e) 500), w').
Proof.
  intros idm e w sid data i q p Hdown Hi Hq Hp w'.
  split; [reflexivity|]. split; [reflexivity|].
  split.
  { unfold delete_sale_route, try_except, bind.
    rewrite (@delete_sale_down idm (VStr sid) _ _ Hdown). reflexivity. }
  split.
  { unfold add_sale. rewrite Hi, Hq, Hp. unfold try_except, bind.
    rewrite (@insert_sale_down i q p _ _ Hdown). reflexivity. }
  split.
  { unfold get_analytics, try_except, bind.
    rewrite (@fetch_sales_down _ _ Hdown). reflexivity. }
  unfold get_sales, try_except, bind.
  rewrite (@fetch_sales_down _ _ Hdown). reflexivity.
Qed.

(** POST /api/sales while the datastore refuses connections. *)
Lemma datastore_failure_is_answered_with_500_witness :
  add_sale [("item_name", VStr "kuih"); ("quantity", VInt 4); ("price", VInt 1)]
           (unreachable two_sales)
    = (Ok (Response [("error", JText "could not connect to server")] 500),
       contact Datastore (unreachable two_sales)) /\
  ledger (contact Datastore (unreachable two_sales)) = ledger two_sales.
Proof.
  destruct (@datastore_failure_is_answered_with_500 decimal_id
              (Exn DatabaseError "could not connect to server")
              (unreachable two_sales) "1"
              [("item_name", VStr "kuih"); ("quantity", VInt 4); ("price", VInt 1)]
              (VStr "kuih") (VInt 4) (VInt 1) eq_refl eq_refl eq_refl eq_refl)
    as (Hl & _ & _ & Hadd & _).
  split; [exact Hadd|exact Hl].
Defined.

(** X12. [delete_sale_route] never raises: it answers 200, 404 or 500;
    it only ever removes rows; the ledger is unchanged unless the answer is
    200; and the answer is 500 exactly when the datastore cannot be reached
    or, for an identifier other than "all", rejects the text as an id. *)
Theorem delete_sale_route_always_answers :
  forall (id_matches : string -> result (Z -> bool)) (sale_id : string) (w : world),
  exists r w',
    delete_sale_route id_matches sale_id w = (Ok r, w') /\
    (status r = 200 \/ status r = 404 \/ status r = 500)%nat /\
    incl (ledger w') (ledger w) /\
    (status r <> 200%nat -> ledger w' = ledger w) /\
    (status r = 500%nat <->
     (db_fault w <> None \/
      (lower sale_id <> "all" /\ exists e, id_matches sale_id = Raise e))).
Proof.
  intros idm sid w. destruct (db_fault w) as [e|] eqn:Hf.
  - unfold delete_sale_route, try_except, bind.
    rewrite (@delete_sale_down idm (VStr sid) _ _ Hf).
    do 2 eexists. split; [reflexivity|]. simpl.
    split; [auto|]. split; [apply incl_refl|]. split; [auto|].
    split; [intros _; left; discriminate|reflexivity].
  - unfold delete_sale_route, try_except, bind.
    rewrite (@delete_sale_up idm sid w Hf).
    destruct (lower sid =? "all") eqn:Hall.
    + do 2 eexists. split; [reflexivity|]. simpl. split; [auto|].
      split; [intros x []|]. split; [congruence|].
      apply String.eqb_eq in Hall.
      split; [discriminate|intros [H|[H _]]; congruence].
    + apply String.eqb_neq in Hall.
      destruct (idm sid) as [matches|e] eqn:Hread.
      2:{ do 2 eexists. split; [reflexivity|]. simpl. split; [auto|].
          split; [apply incl_refl|]. split; [reflexivity|].
          split; [intros _; right; split; [exact Hall|exists e; reflexivity]
                 |reflexivity]. }
      cbv zeta.
      assert (Hincl : incl (filter (fun r => negb (matches (id r))) (ledger w))
                           (ledger w)).
      { intros x Hx. apply filter_In in Hx as [Hx _]. exact Hx. }
      destruct (filter (fun r => matches (id r)) (ledger w))
        as [|row hits] eqn:Hhits;
        do 2 eexists; (split; [reflexivity|]); simpl;
        (split; [auto|]); (split; [exact Hincl|]).
      * split; [intros _; apply filter_none_keeps_all; exact Hhits|].
        split; [discriminate|intros [H|[_ [e H]]]; congruence].
      * split; [congruence|].
        split; [discriminate|intros [H|[_ [e H]]]; congruence].
Qed.

(** X13. [add_sale] appends at most one row.  It answers 201, 400 or
    500, or raises an exception of the parser.  When it answers 201, one row
    was appended, with the next id and the store's time, and it is the row in
    the answer; when it answers 400 or raises, the world is as before; in
    every case the ledger is as before or longer by one row that carries the
    next id. *)
Theorem add_sale_appends_at_most_one_row :
  forall (data : list (string * value)) (w : world),
  let out := fst (add_sale data w) in
  let w' := snd (add_sale data w) in
  (forall r, out = Ok r -> (status r = 201 \/ status r = 400 \/ status r = 500)%nat) /\
  (forall r, out = Ok r -> status r = 201%nat ->
     exists row,
       lookup (body r) "sale" = Some (JSale row) /\
       id row = next_id w /\ created_at row = now w /\
       ledger w' = ledger w ++ [row] /\ next_id w' = (next_id w + 1)%Z) /\
  (forall r, out = Ok r -> status r = 400%nat -> w' = w) /\
  (forall e, out = Raise e -> w' = w) /\
  (ledger w' = ledger w \/
   exists row, id row = next_id w /\ ledger w' = ledger w ++ [row]).
Proof.
  intros data w out w'.
  assert (Hrecord : forall i q p o v,
    try_except
      (sale <- insert_sale i q p ;;
       sales <- fetch_sales ;;
       summary <- lift (compute_summary sales) ;;
       ret (Response [("sale", JSale sale); ("summary", JSummary summary);
                      ("message", JText "Sale recorded successfully!")] 201))
      (fun e => ret (Response [("error", JText (exn_str e))] 500)) w = (o, v) ->
    (exists r row,
       o = Ok r /\ ledger v = ledger w ++ [row] /\ next_id v = (next_id w + 1)%Z /\
       status r = 201%nat /\
       lookup (body r) "sale" = Some (JSale row) /\
       id row = next_id w /\ created_at row = now w)
    \/
    (exists r, o = Ok r /\ status r = 500%nat /\ ledger v = ledger w)).
  { intros i q p o v Hrun. unfold try_except, bind at 1 in Hrun.
    destruct (db_fault w) as [e|] eqn:Hf.
    - rewrite (@insert_sale_down i q p _ _ Hf) in Hrun.
      inversion Hrun; subst. right. eexists. repeat split; reflexivity.
    - rewrite (@insert_sale_up i q p _ Hf) in Hrun.
      destruct (column_values i q p) as [[[s n] x]|].
      + unfold bind at 1 in Hrun.
        rewrite fetch_sales_up in Hrun by (simpl; exact Hf).
        unfold bind, lift, ret in Hrun.
        match type of Hrun with context [compute_summary ?l] =>
          destruct (compute_summary_ok l) as [sm Hsm]; rewrite Hsm in Hrun end.
        inversion Hrun; subst. left.
        do 2 eexists. split; [reflexivity|]. simpl.
        repeat split; reflexivity.
      + inversion Hrun; subst. right. eexists. repeat split; reflexivity. }
  assert (Hcases : forall o v, add_sale data w = (o, v) ->
    (exists r row,
       o = Ok r /\ ledger v = ledger w ++ [row] /\ next_id v = (next_id w + 1)%Z /\
       status r = 201%nat /\
       lookup (body r) "sale" = Some (JSale row) /\
       id row = next_id w /\ created_at row = now w)
    \/ (exists r, o = Ok r /\ status r = 500%nat /\ ledger v = ledger w)
    \/ (exists r, o = Ok r /\ status r = 400%nat /\ v = w)
    \/ (exists e, o = Raise e /\ v = w)).
  { intros o v H. unfold add_sale in H.
    destruct (lookup data "item_name") as [i|];
      [destruct (lookup data "quantity") as [q|];
       [destruct (lookup data "price") as [p|];
        [destruct (Hrecord i q p o v H) as [H'|H'];
         [left; exact H'|right; left; exact H']|]|]|];
      (destruct (lookup data "text") as [text|];
       [|inversion H; subst; right; right; left; eexists; repeat split; reflexivity]);
      (unfold bind at 1, lift at 1 in H;
       destruct (parse_sales_input text) as [[[i' q'] p']|e];
       [|inversion H; subst; right; right; right; eexists; split; reflexivity];
       destruct (negb (truthy i'));
       [inversion H; subst; right; right; left; eexists; repeat split; reflexivity|];
       destruct (Hrecord i' q' p' o v H) as [H'|H'];
       [left; exact H'|right; left; exact H']). }
  specialize (Hcases out w' (surjective_pairing _)).
  destruct Hcases as [(r & row & Ho & Hl & Hn & Hs & Hrow & Hid & Hat)
                     |[(r & Ho & Hs & Hl)|[(r & Ho & Hs & Hw)|(e & Ho & Hw)]]];
    rewrite Ho.
  - split; [intros r' Hr; injection Hr as <-; auto|].
    split; [intros r' Hr _; injection Hr as <-; exists row; auto|].
    split; [intros r' Hr Hs'; injection Hr as <-; congruence|].
    split; [discriminate|]. right. exists row. auto.
  - split; [intros r' Hr; injection Hr as <-; auto|].
    split; [intros r' Hr Hs'; injection Hr as <-; congruence|].
    split; [intros r' Hr Hs'; injection Hr as <-; congruence|].
    split; [discriminate|]. left. exact Hl.
  - split; [intros r' Hr; injection Hr as <-; auto|].
    split; [intros r' Hr Hs'; injection Hr as <-; congruence|].
    split; [intros _ _ _; exact Hw|]. split; [discriminate|].
    left. rewrite Hw. reflexivity.
  - split; [discriminate|]. split; [discriminate|]. split; [discriminate|].
    split; [intros _ _; exact Hw|]. left. rewrite Hw. reflexivity.
Qed.

(** X14. While the datastore answers, [get_sales] and [get_analytics]
    succeed with status 200 on every ledger: the listing is the whole ledger
    ordered by id, largest first, and the analytics count all its units. *)
Theorem reading_never_fails_while_the_store_answers :
  forall w : world,
  db_fault w = None ->
  exists sm,
    compute_summary (order_by_id_desc (ledger w)) = Ok sm /\
    get_sales w = (Ok (Rows (order_by_id_desc (ledger w)) 200), contact Datastore w) /\
    get_analytics w
      = (Ok (Response [("success", JBool true); ("analytics", JSummary sm)] 200),
         contact Datastore w) /\
    Permutation (order_by_id_desc (ledger w)) (ledger w) /\
    StronglySorted id_no_smaller (order_by_id_desc (ledger w)) /\
    total_sales_count sm = units_of (ledger w).
Proof.
  intros w Hup.
  destruct (AnalyticsMore.summary_figures (order_by_id_desc (ledger w)))
    as (sm & Hsm & Hcount & _).
  exists sm. split; [exact Hsm|].
  split.
  { unfold get_sales, try_except, bind at 1.
    rewrite (@fetch_sales_up _ Hup). unfold bind, lift. rewrite Hsm. reflexivity. }
  split.
  { unfold get_analytics, try_except, bind at 1.
    rewrite (@fetch_sales_up _ Hup). unfold bind, lift. rewrite Hsm. reflexivity. }
  split; [apply order_by_id_desc_perm|].
  split; [apply order_by_id_desc_sorted|].
  rewrite Hcount. apply AnalyticsMore.units_of_perm. apply order_by_id_desc_perm.
Qed.

(** Reading the ledger of the example. *)
Lemma reading_never_fails_while_the_store_answers_witness :
  exists sm,
    get_sales two_sales
      = (Ok (Rows [Sale 2 "milk" 1 (3 # 1) (clock 14 0);
                   Sale 1 "eggs" 3 (2 # 1) (clock 10 0)] 200),
         contact Datastore two_sales) /\
    get_analytics two_sales
      = (Ok (Response [("success", JBool true); ("analytics", JSummary sm)] 200),
         contact Datastore two_sales) /\
    total_sales_count sm = 4%Z.
Proof.
  destruct (@reading_never_fails_while_the_store_answers two_sales eq_refl)
    as (sm & _ & Hsales & Han & _ & _ & Hcount).
  exists sm. split; [exact Hsales|]. split; [exact Han|exact Hcount].
Defined.

(** X15. Whatever the five endpoints are given and whatever they answer
    or raise, they keep the ledger well formed (every id below the id
    sequence, no id twice), never lower the id sequence and leave the clock
    and the state of the connection alone. *)
Theorem every_endpoint_keeps_the_store :
  forall (id_matches : string -> result (Z -> bool)) (GEMINI_API_KEY : option string)
         (persona : string) (generate_content : string -> result string)
         (json_loads : string -> result value)
         (data : list (string * value)) (sale_id : string)
         (request_json : value) (w : world),
  store_step w (snd (add_sale data w)) /\
  store_step w (snd (delete_sale_route id_matches sale_id w)) /\
  store_step w (snd (get_sales w)) /\
  store_step w (snd (get_analytics w)) /\
  store_step w (snd (ai_assistant id_matches GEMINI_API_KEY persona
                                  generate_content json_loads request_json w)).
Proof.
  intros idm key persona gen jl data sid req w.
  pose proof store_step_refl as Hr. pose proof store_step_trans as Ht.
  pose proof keeps_insert_sale as Hi. pose proof keeps_fetch_sales as Hf.
  pose proof (keeps_delete_sale idm) as Hd.
  split; [|split; [|split; [|split]]].
  - eapply (@always_add_sale _ Hr Ht Hi Hf). apply surjective_pairing.
  - eapply (@always_delete_sale_route _ Hr Ht idm Hd). apply surjective_pairing.
  - eapply (@always_get_sales _ Hr Ht Hf). apply surjective_pairing.
  - eapply (@always_get_analytics _ Hr Ht Hf). apply surjective_pairing.
  - eapply (@always_ai_assistant _ Hr Ht idm Hi Hf Hd key persona gen jl).
    + intros prompt v out v' H. inversion H. apply store_step_contact.
    + apply surjective_pairing.
Qed.



(** X18. A request to [ai_assistant] can change the ledger or the id
    sequence only if the model's reply holds a fenced block that decodes to a
    command whose action is add_sale or remove_sale. *)
Theorem only_writing_commands_change_the_ledger :
  forall (id_matches : string -> result (Z -> bool)) (GEMINI_API_KEY : option string)
         (persona : string) (generate_content : string -> result string)
         (json_loads : string -> result value)
         (request_json : value) (w : world),
  let w' := snd (ai_assistant id_matches GEMINI_API_KEY persona generate_content
                              json_loads request_json w) in
  same_rows w w' \/
  exists text response_data,
    get request_json "user_text" = Ok (VStr text) /\
    commands persona generate_content json_loads text response_data /\
    (get response_data "action" = Ok (VStr "add_sale") \/
     get response_data "action" = Ok (VStr "remove_sale")).
Proof.
  intros idm key persona gen jl req w w'. subst w'.
  destruct (@ai_assistant_asks_or_not idm key persona gen jl req w)
    as [(text & Hget & Htext & Hkey)|[-> _]]; [|left; apply same_rows_refl].
  rewrite (@ai_assistant_asks idm key persona gen jl req text w Hkey Hget Htext).
  unfold try_except, bind at 1, ask_model.
  destruct (gen ((persona ++ text) ++ newline)%string) as [reply|e] eqn:Hgen;
    [|left; split; reflexivity].
  destruct (search fence_pattern (list_ascii_of_string (strip reply)))
    as [g|] eqn:Hsearch; [|left; split; reflexivity].
  unfold try_except_json, bind, lift.
  destruct (jl (strip (string_of_list_ascii (group_text g 1)))) as [d|e] eqn:Hjl.
  - destruct (run_command idm d (contact LanguageModel w)) as [[r|e] v] eqn:Hrun.
    + destruct (run_command_rows _ _ _ Hrun) as [Hsame|Hwrite].
      * left. simpl. destruct Hsame as [A B]. split; [exact A|exact B].
      * right. exists text, d. split; [exact Hget|]. split; [|exact Hwrite].
        exists reply, g. auto.
    + destruct (run_command_rows _ _ _ Hrun) as [Hsame|Hwrite].
      * left. destruct Hsame as [A B].
        destruct e as [[] msg]; simpl; split; assumption.
      * right. exists text, d. split; [exact Hget|]. split; [|exact Hwrite].
        exists reply, g. auto.
  - left. destruct e as [[] msg]; split; reflexivity.
Qed.

(** X19. An add_sale command whose item name is falsy, or whose
    quantity or price is null, records nothing and contacts no datastore: it
    is answered as chat, with the command's message or the stock reply. *)
Theorem incomplete_add_sale_is_not_recorded :
  forall (id_matches : string -> result (Z -> bool)) (GEMINI_API_KEY : option string)
         (persona : string) (generate_content : string -> result string)
         (json_loads : string -> result value)
         (request_json : value) (text : string)
         (response_data item_name quantity price : value) (w : world),
  key_configured GEMINI_API_KEY = true ->
  get request_json "user_text" = Ok (VStr text) ->
  text <> "" ->
  commands persona generate_content json_loads text response_data ->
  get response_data "action" = Ok (VStr "add_sale") ->
  get response_data "item_name" = Ok item_name ->
  get response_data "quantity" = Ok quantity ->
  get response_data "price" = Ok price ->
  truthy item_name && is_not_none quantity && is_not_none price = false ->
  exists message,
    get_default response_data "message"
                (VStr "I'm not sure how to respond to that.") = Ok message /\
    ai_assistant id_matches GEMINI_API_KEY persona generate_content json_loads
                 request_json w
    = (Ok (envelope (JValue message) "chat" []), contact LanguageModel w).
Proof.
  intros idm key persona gen jl req text d i q p w
         Hkey Hget Htext Hcmd Ha Hi Hq Hp Hbad.
  rewrite (@ai_assistant_runs idm key persona gen jl req text d w
             Hkey Hget Htext Hcmd).
  unfold try_except, try_except_json.
  rewrite (@run_command_add idm d i q p _ Ha Hi Hq Hp), Hbad.
  destruct d; try discriminate.
  eexists. split; [reflexivity|]. reflexivity.
Qed.

(** An add_sale command with an empty item name. *)
Lemma incomplete_add_sale_is_not_recorded_witness :
  ai_assistant decimal_id (Some "key") "You are Laku. User: "
               (model_saying (fenced add_nameless_text))
               (decoding add_nameless_text
                  (add_command (VStr "") (VInt 2) (VFloat (3 # 2))))
               (request "sold 2 for 1.50") two_sales
  = (Ok (envelope (JValue (VStr "I'm not sure how to respond to that.")) "chat" []),
     contact LanguageModel two_sales).
Proof.
  destruct (@incomplete_add_sale_is_not_recorded decimal_id (Some "key")
              "You are Laku. User: "
              (model_saying (fenced add_nameless_text))
              (decoding add_nameless_text
                 (add_command (VStr "") (VInt 2) (VFloat (3 # 2))))
              (request "sold 2 for 1.50") "sold 2 for 1.50"
              (add_command (VStr "") (VInt 2) (VFloat (3 # 2)))
              (VStr "") (VInt 2) (VFloat (3 # 2)) two_sales
              eq_refl eq_refl ltac:(discriminate)
              ltac:(eexists; eexists; split; [reflexivity|];
                    split; vm_compute; reflexivity)
              eq_refl eq_refl eq_refl eq_refl eq_refl)
    as (message & Hm & Hrun).
  inversion Hm; subst message. exact Hrun.
Defined.

(** X21. A remove_sale command for "all" in any spelling whose
    [confirmed] field is truthy, whatever its value, deletes every row. *)
Theorem any_truthy_confirmation_opens_the_gate :
  forall (id_matches : string -> result (Z -> bool)) (GEMINI_API_KEY : option string)
         (persona : string) (generate_content : string -> result string)
         (json_loads : string -> result value)
         (request_json : value) (text : string)
         (response_data confirmed : value) (sale_id : string) (w : world),
  key_configured GEMINI_API_KEY = true ->
  get request_json "user_text" = Ok (VStr text) ->
  text <> "" ->
  commands persona generate_content json_loads text response_data ->
  get response_data "action" = Ok (VStr "remove_sale") ->
  get response_data "sale_id" = Ok (VStr sale_id) ->
  get response_data "confirmed" = Ok confirmed ->
  truthy confirmed = true ->
  lower sale_id = "all" ->
  db_fault w = None ->
  exists w',
    ai_assistant id_matches GEMINI_API_KEY persona generate_content json_loads
                 request_json w
    = (Ok (deleted_all_response (List.length (ledger w))), w') /\
    ledger w' = [].
Proof.
  intros idm key persona gen jl req text cmd confirmed sid w
         Hkey Hget Htext Hcmd Haction Hsid Hconf Htruthy Hall Hup.
  assert (Hne : sid <> "").
  { intros ->. vm_compute in Hall. discriminate. }
  rewrite (@ai_assistant_runs idm key persona gen jl req text cmd w
             Hkey Hget Htext Hcmd).
  unfold try_except, try_except_json.
  rewrite (@run_command_remove idm cmd (VStr sid) confirmed _ Haction Hsid Hconf).
  rewrite (nonempty_truthy Hne), Htruthy. simpl negb. rewrite andb_false_r.
  unfold bind, delete_sale.
  rewrite with_connection_up by exact Hup.
  rewrite Hall. simpl. eexists. split; reflexivity.
Qed.

(** The confirmation "no" deletes everything. *)
Lemma any_truthy_confirmation_opens_the_gate_witness :
  exists w',
    ai_assistant decimal_id (Some "key") "You are Laku. User: "
                 (model_saying (fenced confirmed_delete_text))
                 (decoding confirmed_delete_text confirmed_delete_command)
                 (request "delete all? no") two_sales
    = (Ok (deleted_all_response 2), w') /\
    ledger w' = [].
Proof.
  apply (@any_truthy_confirmation_opens_the_gate decimal_id (Some "key")
           "You are Laku. User: "
           (model_saying (fenced confirmed_delete_text))
           (decoding confirmed_delete_text confirmed_delete_command)
           (request "delete all? no") "delete all? no"
           confirmed_delete_command (VStr "no") "all" two_sales
           eq_refl eq_refl ltac:(discriminate)
           ltac:(eexists; eexists; split; [reflexivity|];
                 split; vm_compute; reflexivity)
           eq_refl eq_refl eq_refl eq_refl eq_refl eq_refl).
Defined.

(** X22. A reply of the model without a backtick is never decoded: it
    is returned, stripped, as a chat message, and no datastore is contacted. *)
Theorem reply_without_fence_is_chat :
  forall (id_matches : string -> result (Z -> bool)) (GEMINI_API_KEY : option string)
         (persona : string) (generate_content : string -> result string)
         (json_loads : string -> result value)
         (request_json : value) (text reply : string) (w : world),
  key_configured GEMINI_API_KEY = true ->
  get request_json "user_text" = Ok (VStr text) -> text <> "" ->
  generate_content ((persona ++ text) ++ newline)%string = Ok reply ->
  free_of backtick (list_ascii_of_string reply) ->
  ai_assistant id_matches GEMINI_API_KEY persona generate_content json_loads
               request_json w
  = (Ok (envelope (JText (strip reply)) "chat" []), contact LanguageModel w).
Proof.
  intros idm key persona gen jl req text reply w Hkey Hget Htext Hgen Hfree.
  rewrite (@ai_assistant_asks idm key persona gen jl req text w Hkey Hget Htext).
  unfold try_except, bind at 1, ask_model. rewrite Hgen.
  rewrite search_without_backtick; [reflexivity|].
  unfold strip. rewrite list_ascii_of_string_of_list_ascii.
  intros H. apply Hfree. apply strip_chars_in. exact H.
Qed.

(** A greeting comes back without the blanks around it. *)
Lemma reply_without_fence_is_chat_witness :
  ai_assistant decimal_id (Some "key") "You are Laku. User: "
               (model_saying "  Selamat pagi! Ada apa-apa jualan hari ini?  ")
               (decoding "" VNone) (request "hello") two_sales
  = (Ok (envelope (JText "Selamat pagi! Ada apa-apa jualan hari ini?") "chat" []),
     contact LanguageModel two_sales).
Proof.
  apply (@reply_without_fence_is_chat decimal_id (Some "key")
           "You are Laku. User: "
           (model_saying "  Selamat pagi! Ada apa-apa jualan hari ini?  ")
           (decoding "" VNone) (request "hello") "hello"
           "  Selamat pagi! Ada apa-apa jualan hari ini?  " two_sales
           eq_refl eq_refl ltac:(discriminate) eq_refl).
  intros H. simpl in H.
  repeat (destruct H as [H|H]; [discriminate H|]). exact H.
Defined.

(** X23. When the reply holds, after text without a backtick, the
    opening fence with its json tag, a block that does not contain the closing
    fence, and the closing fence, then whatever leads or follows, group 1 of
    the match is that block, and the block, stripped, is what [json_loads]
    is given and whose value is dispatched. *)
Theorem fenced_block_is_the_command :
  forall (id_matches : string -> result (Z -> bool)) (GEMINI_API_KEY : option string)
         (persona : string) (generate_content : string -> result string)
         (json_loads : string -> result value)
         (request_json : value) (text : string) (lead block tail : chars)
         (w : world),
  key_configured GEMINI_API_KEY = true ->
  get request_json "user_text" = Ok (VStr text) -> text <> "" ->
  generate_content ((persona ++ text) ++ newline)%string
    = Ok (fenced_reply lead block tail) ->
  free_of backtick lead ->
  ~ occurs_in closing block ->
  search fence_pattern (list_ascii_of_string (strip (fenced_reply lead block tail)))
    = Some [(1%nat, block)] /\
  ai_assistant id_matches GEMINI_API_KEY persona generate_content json_loads
               request_json w
  = try_except
      (try_except_json
         (response_data <- lift (json_loads (strip (string_of_list_ascii block))) ;;
          run_command id_matches response_data)
         (fun e => ret (parse_failure (exn_str e))))
      (fun e => ret (error_response e))
      (contact LanguageModel w).
Proof.
  intros idm key persona gen jl req text lead block tail w
         Hkey Hget Htext Hgen Hlead Hblock.
  assert (Hsearch := @fenced_reply_block lead block tail Hlead Hblock).
  split; [exact Hsearch|].
  rewrite (@ai_assistant_asks idm key persona gen jl req text w Hkey Hget Htext).
  unfold try_except, bind at 1, ask_model. rewrite Hgen, Hsearch. reflexivity.
Qed.

(** A reply with text before and after the block. *)
Lemma fenced_block_is_the_command_witness :
  search fence_pattern
         (list_ascii_of_string
            (strip (fenced_reply (list_ascii_of_string " Deleting now: ")
                                 (list_ascii_of_string confirmed_delete_text)
                                 (list_ascii_of_string " Done. "))))
  = Some [(1%nat, list_ascii_of_string confirmed_delete_text)].
Proof.
  refine (proj1 (@fenced_block_is_the_command decimal_id (Some "key")
           "You are Laku. User: "
           (model_saying (fenced_reply (list_ascii_of_string " Deleting now: ")
                                       (list_ascii_of_string confirmed_delete_text)
                                       (list_ascii_of_string " Done. ")))
           (decoding confirmed_delete_text confirmed_delete_command)
           (request "yes, delete all") "yes, delete all"
           (list_ascii_of_string " Deleting now: ")
           (list_ascii_of_string confirmed_delete_text)
           (list_ascii_of_string " Done. ") two_sales
           eq_refl eq_refl ltac:(discriminate) eq_refl _ _)).
  - intros H. simpl in H.
    repeat (destruct H as [H|H]; [discriminate H|]). exact H.
  - apply no_newline_no_closing. intros H. vm_compute in H.
    repeat (destruct H as [H|H]; [discriminate H|]). exact H.
Defined.
